(** * Cainhurst: frame extraction, indexing and semantic retrieval

    A shallow embedding of the decision logic of

      - [app/services/extractor.py]  (class [FrameExtractor]),
      - [scripts/process_videos.py]  ([index_frames], [test_query], [main]),
      - [app/services/search.py]     (class [SearchService]),
      - [app/routes/search.py]       (the endpoint [search_frames]),

    together with the properties of the sampling policy, the filename
    scheme, the document builder, the error paths and the
    distance-to-similarity mapping.

    Modelling conventions.

    - Python [float] values (frame rates, timestamps, distances) are
      rationals [Q].  The float operations the retriever performs (halving,
      and [1 - x] for [x] in [[1/2, 1]]) are exact in binary64, so on finite
      inputs the rational model of the similarity mapping agrees with the
      float one.  For the sampler, [video_fps / fps] is the binary64
      quotient: the exact quotient rounded to 53 significant bits, ties to
      even ([PyNum.truediv]); a quotient beyond the binary64 range is not
      modelled.
    - Python [str] values are [string]s; Python [int] counters that start at
      zero and are only incremented are [nat]; other integers are [Z].
    - Exceptions are values of type [exn]; a Python function that touches the
      file system, the console or the random source is a function in the
      monad [M], which threads a [world] and keeps the world reached when an
      exception escapes.
    - OpenCV, CLIP and ChromaDB are external: a video is described by what
      [cv2.VideoCapture] reports about it, the CLIP ranking is an oracle that
      may raise, and a collection is the list of entries added to it. *)

From Stdlib Require Import ZArith QArith Qminmax Qround Qpower Qabs.
From Stdlib Require Import String Ascii List.
From Stdlib Require Import Lia Lqa Sorted.
From Stdlib Require Import DecimalString DecimalNat.
From stdpp Require Import gmap strings list.

Open Scope string_scope.

(** ** Python strings *)

Module PyStr.

(** [str(n)] for a non-negative integer. *)
Definition decimal (n : nat) : string :=
  NilEmpty.string_of_uint (Nat.to_uint n).

Fixpoint zeros (k : nat) : string :=
  match k with
  | O => ""
  | S k' => String "0" (zeros k')
  end.

(** [f"{n:05d}"] for a non-negative [n]: at least five digits, padded on
    the left with zeros. *)
Definition format_05d (n : nat) : string :=
  let s := decimal n in
  zeros (5 - String.length s) ++ s.

(** [s.replace(old, new)] for one-character [old] and [new]. *)
Fixpoint replace (old new : ascii) (s : string) : string :=
  match s with
  | "" => ""
  | String c s' =>
      String (if Ascii.eqb c old then new else c) (replace old new s')
  end.

(** [sep.join(parts)]. *)
Definition join (sep : string) (parts : list string) : string :=
  String.concat sep parts.

(** [c.isspace()] on the code points below 256. *)
Definition isspace (c : ascii) : bool :=
  let n := nat_of_ascii c in
  (((9 <=? n) && (n <=? 13)) || ((28 <=? n) && (n <=? 32))
   || (n =? 133) || (n =? 160))%nat.

Fixpoint lstrip (s : string) : string :=
  match s with
  | "" => ""
  | String c s' => if isspace c then lstrip s' else s
  end.

Fixpoint rstrip (s : string) : string :=
  match s with
  | "" => ""
  | String c s' =>
      match rstrip s' with
      | "" => if isspace c then "" else String c ""
      | r => String c r
      end
  end.

(** [s.strip()]. *)
Definition strip (s : string) : string := lstrip (rstrip s).

(** [s.rfind(c)], with [None] for -1. *)
Fixpoint rfind (c : ascii) (s : string) : option nat :=
  match s with
  | "" => None
  | String a s' =>
      match rfind c s' with
      | Some i => Some (S i)
      | None => if Ascii.eqb a c then Some 0 else None
      end
  end.

Fixpoint all_dots (s : string) : bool :=
  match s with
  | "" => true
  | String a s' => Ascii.eqb a "." && all_dots s'
  end.

(** [os.path.splitext(p)] for a path without directory separators (the
    extractor applies it to [os.path.basename(video_path)]): split at the
    last dot unless only dots precede it. *)
Definition splitext (p : string) : string * string :=
  match rfind "." p with
  | Some dotIndex =>
      if all_dots (substring 0 dotIndex p) then (p, "")
      else (substring 0 dotIndex p,
            substring dotIndex (String.length p - dotIndex) p)
  | None => (p, "")
  end.

(** [s.endswith(suffix)]. *)
Definition endswith (s suffix : string) : bool :=
  let n := String.length s in
  let k := String.length suffix in
  (k <=? n)%nat && String.eqb (substring (n - k) k s) suffix.

(** A string is truthy when it is not empty. *)
Definition truthy (s : string) : bool := negb (String.eqb s "").

End PyStr.

(** ** Python numbers *)

Module PyNum.

(** [int(x)] for a finite float [x]: truncation towards zero. *)
Definition int (x : Q) : Z := Z.quot (Qnum x) (Zpos (Qden x)).

(** [x > y] on floats. *)
Definition gt (x y : Q) : bool := negb (Qle_bool x y).

(** [x == 0.0]: a float is falsy exactly when it is zero. *)
Definition is_zero (x : Q) : bool := Qeq_bool x 0.

(** The integer nearest to [x], a tie going to the even one. *)
Definition rne (x : Q) : Z :=
  let f := Qfloor x in
  match Qcompare (x - inject_Z f) (1 # 2) with
  | Lt => f
  | Gt => (f + 1)%Z
  | Eq => if Z.even f then f else (f + 1)%Z
  end.

(** For a positive [x], the exponent [e] with [2^52 <= x / 2^e < 2^53]: the
    weight of the last of the 53 significant bits of [x]. *)
Definition ulp_exponent (x : Q) : Z :=
  let e := (Z.log2 (Qnum x) - Z.log2 (Zpos (Qden x)) - 52)%Z in
  if Qle_bool (2 ^ 52) (x / 2 ^ e) then e else (e - 1)%Z.

Definition round53_pos (x : Q) : Q :=
  let e := ulp_exponent x in (inject_Z (rne (x / 2 ^ e)) * 2 ^ e)%Q.

(** Rounding to 53 significant bits, ties to even: the binary64 value an
    arithmetic operation returns for the exact result [x], as long as that
    value is finite and normal. *)
Definition round53 (x : Q) : Q :=
  match Qnum x with
  | Z0 => 0
  | Zpos _ => round53_pos x
  | Zneg _ => (- round53_pos (- x))%Q
  end.

(** [x / y] on floats, for [y] other than zero. *)
Definition truediv (x y : Q) : Q := round53 (x / y).

(** [f"{x:.2f}"]: the decimal with two digits after the point nearest to
    [x], a tie going to the even last digit. *)
Definition format_2f (x : Q) : string :=
  let n := rne (Qabs x * 100) in
  let cents := PyStr.decimal (Z.to_nat (n mod 100)) in
  let body :=
    PyStr.decimal (Z.to_nat (n / 100)) ++ "."
    ++ PyStr.zeros (2 - String.length cents) ++ cents in
  if Qle_bool 0 x then body else "-" ++ body.

End PyNum.

(** ** Exceptions and effects *)

Inductive exn : Type :=
| ValueError (msg : string)
| ZeroDivisionError (msg : string)
| IndexError (msg : string)
| FileNotFoundError (msg : string)
| RuntimeError (msg : string).

Definition exn_message (e : exn) : string :=
  match e with
  | ValueError m | ZeroDivisionError m | IndexError m
  | FileNotFoundError m | RuntimeError m => m
  end.

Inductive result (A : Type) : Type :=
| Ok (a : A)
| Raise (e : exn).
Arguments Ok {A} a.
Arguments Raise {A} e.

(** The decoded content of one frame; only its identity matters. *)
Definition image : Type := nat.

(** One entry of [metadata.json]: the [metadata] dict built by
    [extract_frames_from_video]. The key ["description"] is optional. *)
Record FrameMetadata : Type := Frame {
  id : string;
  filename : string;
  video_filename : string;
  frame_number : nat;
  timestamp : Q;
  description : option string
}.

(** A Python [dict] keyed by frame id, in insertion order. *)
Definition dict : Type := list (string * FrameMetadata).

Fixpoint dict_set (d : dict) (k : string) (v : FrameMetadata) : dict :=
  match d with
  | [] => [(k, v)]
  | (k', v') :: d' =>
      if String.eqb k' k then (k', v) :: d' else (k', v') :: dict_set d' k v
  end.

Fixpoint dict_get (d : dict) (k : string) : option FrameMetadata :=
  match d with
  | [] => None
  | (k', v') :: d' => if String.eqb k' k then Some v' else dict_get d' k
  end.

Definition dict_values (d : dict) : list FrameMetadata := map snd d.

(** One entry of the vector collection: id, document and the metadata
    sidecar ([video_filename], [frame_number], [timestamp]).  The embedding is
    a function of the document and is not represented. *)
Record entry : Type := Entry {
  entry_id : string;
  entry_document : string;
  entry_metadata : string * nat * Q
}.

(** What the batch job can observe and change. *)
Record world : Type := World {
  entropy : nat -> string;          (* the values [uuid.uuid4()] will return *)
  drawn : nat;                      (* how many of them were consumed *)
  frames_dir : gmap string image;   (* image files under FRAMES_DIR *)
  metadata_json : option dict;      (* FRAMES_DIR/metadata.json *)
  chroma : gmap string (list entry);  (* the persistent collections, by name *)
  stdout : list string              (* lines printed so far *)
}.

Definition M (A : Type) : Type := world -> result A * world.

Definition ret {A} (a : A) : M A := fun w => (Ok a, w).

Definition raise {A} (e : exn) : M A := fun w => (Raise e, w).

Definition bind {A B} (m : M A) (k : A -> M B) : M B :=
  fun w =>
    match m w with
    | (Ok a, w') => k a w'
    | (Raise e, w') => (Raise e, w')
    end.

(** [try: body  except Exception as e: handler(e)]. *)
Definition try_except {A} (body : M A) (handler : exn -> M A) : M A :=
  fun w =>
    match body w with
    | (Ok a, w') => (Ok a, w')
    | (Raise e, w') => handler e w'
    end.

Notation "'do' x <- m ; k" := (bind m (fun x => k))
  (at level 10, x name, m at level 100, k at level 200).
Notation "'run' m ; k" := (bind m (fun _ => k))
  (at level 10, m at level 100, k at level 200).

Definition print (line : string) : M unit :=
  fun w => (Ok tt, World (entropy w) (drawn w) (frames_dir w)
                         (metadata_json w) (chroma w) (stdout w ++ [line])).

(** [str(uuid.uuid4())]. *)
Definition uuid4 : M string :=
  fun w => (Ok (entropy w (drawn w)),
            World (entropy w) (S (drawn w)) (frames_dir w)
                  (metadata_json w) (chroma w) (stdout w)).

(** [cv2.imwrite(os.path.join(frames_dir, name), img)]. *)
Definition imwrite (name : string) (img : image) : M unit :=
  fun w => (Ok tt, World (entropy w) (drawn w) (<[name := img]> (frames_dir w))
                         (metadata_json w) (chroma w) (stdout w)).

(** [json.dump(all_metadata, open(metadata_path, 'w'))]. *)
Definition json_dump (d : dict) : M unit :=
  fun w => (Ok tt, World (entropy w) (drawn w) (frames_dir w)
                         (Some d) (chroma w) (stdout w)).

Definition read_frames_dir : M (gmap string image) :=
  fun w => (Ok (frames_dir w), w).

Definition read_chroma : M (gmap string (list entry)) :=
  fun w => (Ok (chroma w), w).

Definition write_chroma (c : gmap string (list entry)) : M unit :=
  fun w => (Ok tt, World (entropy w) (drawn w) (frames_dir w)
                         (metadata_json w) c (stdout w)).

(** ** Configuration and inputs *)

(** [app/config.py]: the fields of [Settings] the pipeline reads. *)
Record Settings : Type := {
  VIDEOS_DIR : string;
  FRAMES_PER_SECOND : Q;
  COLLECTION_NAME : string
}.

Definition default_settings : Settings :=
  {| VIDEOS_DIR := "data/videos";
     FRAMES_PER_SECOND := 1;
     COLLECTION_NAME := "ember_frames" |}.

(** A video file, as [cv2.VideoCapture] presents it. *)
Record video : Type := Video {
  name : string;                (* file name inside VIDEOS_DIR *)
  isOpened : bool;              (* cap.isOpened() *)
  CAP_PROP_FPS : Q;             (* cap.get(cv2.CAP_PROP_FPS) *)
  CAP_PROP_FRAME_COUNT : Z;     (* int(cap.get(cv2.CAP_PROP_FRAME_COUNT)) *)
  stream : list image           (* the frames cap.read() delivers, in order,
                                   before it first answers ret = False *)
}.

(** The loaded CLIP model: everything between [Image.open] and [topk(3)] is
    one oracle, from the candidate labels and the image to the indices of
    the best labels; it may raise. *)
Record clip : Type := Clip {
  topk : list string -> image -> result (list nat)
}.

(** ** Frame extraction ([app/services/extractor.py]) *)

Module FrameExtractor.

Record t : Type := Make {
  settings : Settings;
  videos_dir : list video;      (* the files of [self.videos_dir] *)
  ember_only : bool;
  clip_model : option clip      (* [None] when CLIP is missing, disabled
                                   or failed to load *)
}.

Definition _get_candidate_labels (self : t) : list string :=
  if ember_only self then
    [ "Ember character"; "Ember holding phone"; "Ember using phone";
      "Ember close-up"; "Ember from distance"; "Ember smiling";
      "Ember talking"; "Ember walking"; "Ember sitting"; "Ember standing";
      "indoor scene"; "outdoor scene"; "daytime scene"; "nighttime scene";
      "person holding smartphone"; "person using mobile phone";
      "person looking at phone screen"; "person texting on phone";
      "person taking selfie"; "person recording video" ]
  else
    [ "Ember character"; "Ember holding phone"; "Ember using phone";
      "Ember close-up"; "Ember from distance"; "Ember smiling";
      "Ember talking"; "Ember walking"; "Ember sitting"; "Ember standing";
      "person"; "bicycle"; "car"; "motorcycle"; "airplane"; "bus"; "train";
      "truck"; "boat";
      "traffic light"; "fire hydrant"; "stop sign"; "parking meter"; "bench";
      "chair"; "couch"; "potted plant"; "bed"; "dining table"; "toilet";
      "tv"; "laptop";
      "mouse"; "remote"; "keyboard"; "cell phone"; "microwave"; "oven";
      "toaster"; "sink";
      "refrigerator"; "book"; "clock"; "vase"; "scissors"; "teddy bear";
      "hair drier"; "toothbrush";
      "umbrella"; "handbag"; "tie"; "suitcase"; "frisbee"; "skis";
      "snowboard"; "sports ball";
      "kite"; "baseball bat"; "baseball glove"; "skateboard"; "surfboard";
      "tennis racket";
      "indoor scene"; "outdoor scene"; "urban environment";
      "natural environment";
      "daytime scene"; "nighttime scene"; "sunset scene"; "sunrise scene";
      "crowded scene"; "empty scene"; "busy environment";
      "quiet environment";
      "person standing"; "person sitting"; "person walking";
      "person running";
      "person jumping"; "person dancing"; "person exercising";
      "person working";
      "person using phone"; "person using laptop"; "person reading";
      "person writing";
      "person talking"; "person smiling"; "person laughing";
      "person looking";
      "person holding smartphone"; "person using mobile phone";
      "person looking at phone screen";
      "person texting on phone"; "person taking selfie";
      "person recording video";
      "person scrolling phone"; "person holding phone up";
      "person holding phone down";
      "person using phone while walking"; "person using phone while sitting";
      "close-up shot"; "wide shot"; "medium shot"; "group shot"; "solo shot";
      "candid moment"; "posed shot"; "action shot"; "portrait shot";
      "landscape shot";
      "street scene"; "park scene"; "office scene"; "home scene";
      "restaurant scene" ].

(** [[candidate_labels[idx] for idx in indices]]. *)
Fixpoint pick_labels (candidate_labels : list string) (indices : list nat)
  : result (list string) :=
  match indices with
  | [] => Ok []
  | idx :: rest =>
      match candidate_labels !! idx with
      | None => Raise (IndexError "list index out of range")
      | Some label =>
          match pick_labels candidate_labels rest with
          | Ok labels => Ok (label :: labels)
          | Raise e => Raise e
          end
      end
  end.

(** The body of the [try] block of [_generate_frame_description]. *)
Definition describe (self : t) (model : clip) (frame_path : string)
  : M string :=
  do files <- read_frames_dir;
  match files !! frame_path with
  | None => raise (FileNotFoundError frame_path)
  | Some img =>
      let candidate_labels := _get_candidate_labels self in
      match topk model candidate_labels img with
      | Raise e => raise e
      | Ok indices =>
          match pick_labels candidate_labels indices with
          | Raise e => raise e
          | Ok top_labels => ret (PyStr.join ", " top_labels)
          end
      end
  end.

Definition _generate_frame_description (self : t) (model : clip)
    (frame_path : string) : M (option string) :=
  try_except
    (do d <- describe self model frame_path; ret (Some d))
    (fun e =>
       run print ("Error generating frame description: " ++ exn_message e);
       ret None).

(** [max_frames] is truthy when it is given and not zero. *)
Definition cap_set (max_frames : option Z) : bool :=
  match max_frames with
  | Some n => negb (n =? 0)%Z
  | None => false
  end.

Definition cap_value (max_frames : option Z) : Z :=
  match max_frames with
  | Some n => n
  | None => 0
  end.

(** [frames_per_second or settings.FRAMES_PER_SECOND]. *)
Definition target_fps (self : t) (frames_per_second : option Q) : Q :=
  match frames_per_second with
  | Some f =>
      if PyNum.is_zero f then FRAMES_PER_SECOND (settings self) else f
  | None => FRAMES_PER_SECOND (settings self)
  end.

(** Lines 139-142: the sampling interval.  The quotient is the binary64
    one; a quotient in the subnormal range truncates to 0 like its rounded
    value, and one that overflows binary64 is outside the model. *)
Definition frame_interval (video_fps fps : Q) : Z :=
  let frame_interval := PyNum.int (PyNum.truediv video_fps fps) in
  if (frame_interval <? 1)%Z then 1%Z else frame_interval.

(** Lines 144-148: how many frames are decoded at most. *)
Definition frames_to_extract (total_frames : Z) (max_frames : option Z)
    (frame_interval : Z) : Z :=
  if cap_set max_frames
  then Z.min total_frames (cap_value max_frames * frame_interval)
  else total_frames.

Definition frame_filename (video_filename : string) (processed_count : nat)
  : string :=
  fst (PyStr.splitext video_filename) ++ "_frame_"
  ++ PyStr.format_05d processed_count ++ ".jpg".

Definition video_path (self : t) (v : video) : string :=
  VIDEOS_DIR (settings self) ++ "/" ++ name v.

Section Loop.

Variable self : t.
Variable video_filename : string.
Variable video_fps : Q.
Variable max_frames : option Z.
Variable frame_interval : Z.
Variable frames_to_extract : Z.

(** Lines 162-188: what happens to a selected frame. *)
Definition save_frame (frame : image) (frame_count processed_count : nat)
  : M FrameMetadata :=
  do frame_id <- uuid4;
  let frame_filename := frame_filename video_filename processed_count in
  run imwrite frame_filename frame;
  do timestamp <-
    (if PyNum.is_zero video_fps
     then raise (ZeroDivisionError "float division by zero")
     else ret (inject_Z (Z.of_nat frame_count) / video_fps)%Q);
  let metadata :=
    Frame frame_id frame_filename video_filename frame_count timestamp None in
  match clip_model self with
  | Some model =>
      do description <- _generate_frame_description self model frame_filename;
      match description with
      | Some d =>
          if PyStr.truthy d
          then ret (Frame frame_id frame_filename video_filename frame_count
                          timestamp (Some d))
          else ret metadata
      | None => ret metadata
      end
  | None => ret metadata
  end.

(** Lines 155-194: the [while] loop.  [stream] is what is left of the
    capture, so one successful [cap.read()] consumes its head. *)
Fixpoint extract_loop (stream : list image) (frame_count processed_count : nat)
    (frame_metadata : list FrameMetadata) : M (list FrameMetadata) :=
  if (Z.of_nat frame_count <? frames_to_extract)%Z then
    match stream with
    | [] => ret frame_metadata
    | frame :: stream' =>
        if (Z.of_nat frame_count mod frame_interval =? 0)%Z then
          do metadata <- save_frame frame frame_count processed_count;
          let frame_metadata := (frame_metadata ++ [metadata])%list in
          let processed_count := S processed_count in
          if cap_set max_frames
             && (cap_value max_frames <=? Z.of_nat processed_count)%Z
          then ret frame_metadata
          else extract_loop stream' (S frame_count) processed_count
                            frame_metadata
        else extract_loop stream' (S frame_count) processed_count
                          frame_metadata
    end
  else ret frame_metadata.

End Loop.

Definition extract_frames_from_video (self : t) (v : video)
    (frames_per_second : option Q) (max_frames : option Z)
  : M (list FrameMetadata) :=
  let fps := target_fps self frames_per_second in
  let video_filename := name v in
  if negb (isOpened v)
  then raise (ValueError ("Could not open video file: " ++ video_path self v))
  else
    let video_fps := CAP_PROP_FPS v in
    let total_frames := CAP_PROP_FRAME_COUNT v in
    if PyNum.is_zero fps
    then raise (ZeroDivisionError "float division by zero")
    else
      let frame_interval := frame_interval video_fps fps in
      let frames_to_extract :=
        frames_to_extract total_frames max_frames frame_interval in
      extract_loop self video_filename video_fps max_frames frame_interval
                   frames_to_extract (stream v) 0 0 [].

(** [self.videos_dir.glob('*' + ext)]. *)
Definition glob (dir : list video) (ext : string) : list video :=
  List.filter (fun v => PyStr.endswith (name v) ext) dir.

Definition video_files (self : t) : list video :=
  flat_map (glob (videos_dir self)) [".mp4"; ".avi"; ".mov"; ".mkv"].

Definition add_metadata (all_metadata : dict)
    (frame_metadata : list FrameMetadata) : dict :=
  fold_left (fun d metadata => dict_set d (id metadata) metadata)
            frame_metadata all_metadata.

(** Lines 256-262: the loop over the video files. *)
Fixpoint process_videos (self : t) (files : list video) (all_metadata : dict)
  : M dict :=
  match files with
  | [] => ret all_metadata
  | v :: rest =>
      run print ("Processing video: " ++ video_path self v);
      do frame_metadata <- extract_frames_from_video self v None None;
      process_videos self rest (add_metadata all_metadata frame_metadata)
  end.

Definition process_all_videos (self : t) : M dict :=
  let video_files := video_files self in
  match video_files with
  | [] =>
      raise (ValueError ("No video files found in "
                         ++ VIDEOS_DIR (settings self)))
  | _ =>
      run print ("Found " ++ PyStr.decimal (length video_files)
                 ++ " video files to process");
      do all_metadata <- process_videos self video_files [];
      run json_dump all_metadata;
      run print ("Processed " ++ PyStr.decimal (length all_metadata)
                 ++ " frames from " ++ PyStr.decimal (length video_files)
                 ++ " videos");
      ret all_metadata
  end.

End FrameExtractor.

(** ** Indexing ([scripts/process_videos.py]) *)

Module Indexer.

Record Args : Type := {
  recreate : bool;
  test : bool;
  skip_extraction : bool
}.

(** Lines 56-73: the document embedded for one frame. *)
Definition build_document (frame_data : FrameMetadata) : string :=
  let doc_text :=
    match description frame_data with
    | Some d => [d]
    | None => []
    end in
  let video_name := fst (PyStr.splitext (video_filename frame_data)) in
  let video_name := PyStr.replace "-" " " (PyStr.replace "_" " " video_name) in
  let doc_text := (doc_text ++ ["Video: " +:+ video_name])%list in
  let doc_text := (doc_text ++ ["Frame from video content"])%list in
  let doc_text := (doc_text ++ ["Scene from video"])%list in
  PyStr.join " " doc_text.

(** Lines 51-88: the three parallel lists handed to [collection.add]. *)
Record Batch : Type := {
  ids : list string;
  documents : list string;
  metadatas : list (string * nat * Q)
}.

Fixpoint prepare (items : dict) (acc : Batch) : Batch :=
  match items with
  | [] => acc
  | (frame_id, frame_data) :: rest =>
      let document := build_document frame_data in
      if negb (PyStr.truthy (PyStr.strip document))
      then prepare rest acc
      else
        prepare rest
          {| ids := (ids acc ++ [frame_id])%list;
             documents := (documents acc ++ [document])%list;
             metadatas := (metadatas acc
                           ++ [(video_filename frame_data,
                                frame_number frame_data,
                                timestamp frame_data)])%list |}
  end.

Fixpoint zip3 (xs ys : list string) (zs : list (string * nat * Q))
  : list entry :=
  match xs, ys, zs with
  | x :: xs', y :: ys', z :: zs' => Entry x y z :: zip3 xs' ys' zs'
  | _, _, _ => []
  end.

(** [l[i:j]]. *)
Definition slice {A} (l : list A) (i j : nat) : list A :=
  firstn (j - i) (skipn i l).

(** [collection.add(ids=..., documents=..., metadatas=...)]. *)
Definition collection_add (name : string) (b : Batch) : M unit :=
  do c <- read_chroma;
  write_chroma
    (<[name := (default [] (c !! name)
                ++ zip3 (ids b) (documents b) (metadatas b))%list]> c).

(** [range(0, stop, step)]. *)
Definition range_step (stop step : nat) : list nat :=
  map (fun k => k * step) (seq 0 ((stop + step - 1) / step)).

Definition batch_size : nat := 100.

(** Lines 97-104: one round of the batch loop. *)
Definition add_batch (name : string) (b : Batch) (i : nat) : M unit :=
  let batch_end := Nat.min (i + batch_size) (length (ids b)) in
  run collection_add name
        {| ids := slice (ids b) i batch_end;
           documents := slice (documents b) i batch_end;
           metadatas := slice (metadatas b) i batch_end |};
  print ("Indexed batch " ++ PyStr.decimal (i / batch_size + 1) ++ "/"
         ++ PyStr.decimal ((length (ids b) - 1) / batch_size + 1)).

Fixpoint add_batches (name : string) (b : Batch) (starts : list nat)
  : M unit :=
  match starts with
  | [] => ret tt
  | i :: rest => run add_batch name b i; add_batches name b rest
  end.

(** [name in [c.name for c in client.list_collections()]]. *)
Definition has_collection (c : gmap string (list entry)) (name : string)
  : bool :=
  match c !! name with
  | Some _ => true
  | None => false
  end.

(** Line 132 of [test_query]: the conversion used by the smoke test. *)
Definition test_query_similarity (distance : Q) : Q :=
  1 - Qmin distance 2 / 2.

(** [results['ids'][0]], [results['distances'][0]] and
    [results['documents'][0]] of a collection query. *)
Record Hits : Type := {
  hit_ids : list string;
  hit_distances : list Q;
  hit_documents : list string
}.

Definition test_queries : list string :=
  [ "Person holding a phone"; "Outdoor scene in daylight"; "Person smiling";
    "Urban environment" ].

(** The line feed that opens two of the lines [test_query] prints. *)
Definition LF : string := String "010" "".

(** Lines 129-134: the loop over
    [enumerate(zip(results['ids'][0], results['distances'][0]))].  The
    similarity printed is the binary64 value of line 132: halving is exact,
    the subtraction rounds. *)
Fixpoint print_results (results : Hits) (i : nat)
    (pairs : list (string * Q)) : M unit :=
  match pairs with
  | [] => ret tt
  | (doc_id, distance) :: rest =>
      let similarity := PyNum.round53 (test_query_similarity distance) in
      run print ("  Result " ++ PyStr.decimal (i + 1) ++ ": ID=" ++ doc_id
                 ++ ", Similarity=" ++ PyNum.format_2f similarity);
      match hit_documents results !! i with
      | None => raise (IndexError "list index out of range")
      | Some document =>
          run print ("  Document: " ++ document);
          print_results results (S i) rest
      end
  end.

(** Lines 122-134: the loop over the test queries.  [engine] is the
    collection's nearest-neighbour query as a function of its entries; it
    may raise. *)
Fixpoint run_queries (engine : list entry -> string -> nat -> result Hits)
    (name : string) (queries : list string) : M unit :=
  match queries with
  | [] => ret tt
  | query :: rest =>
      run print (LF ++ "Query: '" ++ query ++ "'");
      do c <- read_chroma;
      match engine (default [] (c !! name)) query 2 with
      | Raise e => raise e
      | Ok results =>
          run print_results results 0
                (zip (hit_ids results) (hit_distances results));
          run_queries engine name rest
      end
  end.

(** [test_query(collection)] (lines 113-134). *)
Definition test_query (engine : list entry -> string -> nat -> result Hits)
    (name : string) : M unit :=
  run print (LF ++ "Testing the search functionality...");
  run_queries engine name test_queries.

(** [index_frames(metadata, args)] (lines 28-110). *)
Definition index_frames (cfg : Settings)
    (engine : list entry -> string -> nat -> result Hits)
    (metadata : dict) (args : Args) : M unit :=
  run print "Indexing frames in ChromaDB...";
  do c <- read_chroma;
  run (if recreate args && has_collection c (COLLECTION_NAME cfg)
       then
         run write_chroma (delete (COLLECTION_NAME cfg) c);
         print ("Deleted existing collection: " ++ COLLECTION_NAME cfg)
       else ret tt);
  do c <- read_chroma;
  run (match c !! COLLECTION_NAME cfg with
       | Some _ => ret tt
       | None => write_chroma (<[COLLECTION_NAME cfg := []]> c)
       end);
  let b := prepare metadata {| ids := []; documents := []; metadatas := [] |} in
  match ids b with
  | [] => print "No frames to index!"
  | _ =>
      run add_batches (COLLECTION_NAME cfg) b
            (range_step (length (ids b)) batch_size);
      run print ("Indexed " ++ PyStr.decimal (length (ids b))
                 ++ " frames in ChromaDB");
      if test args then test_query engine (COLLECTION_NAME cfg) else ret tt
  end.

End Indexer.

(** ** Retrieval ([app/services/search.py]) *)

Module schemas.

Record FrameResponse : Type := {
  image_url : string;
  video_filename : string;
  frame_number : nat;
  similarity_score : Q
}.

End schemas.

Module SearchService.

(** [results['ids'][0]] and [results['distances'][0]] of a collection
    query. *)
Record QueryResult : Type := {
  ids : list string;
  distances : list Q
}.

Record t : Type := Make {
  collection_query : string -> nat -> result QueryResult;
  frame_metadata : dict
}.

(** Lines 60-63: the score attached to a hit at raw distance [distance]. *)
Definition similarity (distance : Q) : Q :=
  let similarity := distance in
  if PyNum.gt similarity 1
  then 1 - Qmin similarity 2 / 2
  else similarity.

(** Lines 55-72: the loop over [enumerate(results['ids'][0])]. *)
Fixpoint collect (self : t) (results : QueryResult) (i : nat)
    (rest : list string) (frame_results : list schemas.FrameResponse)
  : result (list schemas.FrameResponse) :=
  match rest with
  | [] => Ok frame_results
  | frame_id :: rest' =>
      match dict_get (frame_metadata self) frame_id with
      | Some metadata =>
          match distances results !! i with
          | None => Raise (IndexError "list index out of range")
          | Some distance =>
              collect self results (S i) rest'
                (frame_results
                 ++ [ {| schemas.image_url := filename metadata;
                         schemas.video_filename := video_filename metadata;
                         schemas.frame_number := frame_number metadata;
                         schemas.similarity_score := similarity distance |} ]
                )%list
          end
      | None => collect self results (S i) rest' frame_results
      end
  end.

Definition search (self : t) (query : string) (limit : nat)
  : result (list schemas.FrameResponse) :=
  match collection_query self query limit with
  | Raise e => Raise e
  | Ok results => collect self results 0 (ids results) []
  end.

End SearchService.


(** ** Start-up ([FrameExtractor.__init__], [SearchService.__init__]) *)

Definition read_metadata_json : M (option dict) :=
  fun w => (Ok (metadata_json w), w).

Module Startup.

(** What the process finds when it starts: whether [torch], [clip] and
    [PIL] import, [settings.USE_CLIP_CAPTIONING], [torch.cuda.is_available()]
    and the outcome of [clip.load]. *)
Record Runtime : Type := {
  CLIP_AVAILABLE : bool;
  USE_CLIP_CAPTIONING : bool;
  cuda_is_available : bool;
  clip_load : result clip
}.

(** [FrameExtractor.__init__] (extractor.py, lines 21-48); [dir] is the
    listing of the videos directory. *)
Definition FrameExtractor_init (cfg : Settings) (rt : Runtime)
    (dir : list video) (ember_only : bool) : M FrameExtractor.t :=
  if CLIP_AVAILABLE rt && USE_CLIP_CAPTIONING rt then
    let device := if cuda_is_available rt then "cuda" else "cpu" in
    match clip_load rt with
    | Ok model =>
        run print ("CLIP model loaded for automatic captioning (using "
                   ++ device ++ ")");
        ret (FrameExtractor.Make cfg dir ember_only (Some model))
    | Raise e =>
        run print ("Failed to load CLIP model: " ++ exn_message e);
        ret (FrameExtractor.Make cfg dir ember_only None)
    end
  else ret (FrameExtractor.Make cfg dir ember_only None).

(** [SearchService.__init__] (search.py, lines 13-33).  [engine] is the
    collection's nearest-neighbour query as a function of its entries; the
    service answers from the entries and the metadata it found when it was
    built. *)
Definition SearchService_init (cfg : Settings)
    (engine : list entry -> string -> nat -> result SearchService.QueryResult)
  : M SearchService.t :=
  do c <- read_chroma;
  run (match c !! COLLECTION_NAME cfg with
       | Some _ => ret tt
       | None => write_chroma (<[COLLECTION_NAME cfg := []]> c)
       end);
  do snapshot <- read_metadata_json;
  ret (SearchService.Make (engine (default [] (c !! COLLECTION_NAME cfg)))
                          (default [] snapshot)).

End Startup.

(** ** The query endpoint ([app/routes/search.py]) *)

Module SearchRoute.

(** [SearchResponse] of [app/models/schemas.py]. *)
Record SearchResponse : Type := {
  results : list schemas.FrameResponse;
  count : nat;
  query : string
}.

(** What the handler gives back: a body, or [HTTPException]. *)
Inductive reply : Type :=
| Response (body : SearchResponse)
| HTTPException (status_code : nat) (detail : string).

(** [s.rstrip(c)] for a one-character [c]. *)
Fixpoint rstrip_char (c : ascii) (s : string) : string :=
  match s with
  | "" => ""
  | String a s' =>
      match rstrip_char c s' with
      | "" => if Ascii.eqb a c then "" else String a ""
      | r => String a r
      end
  end.

(** Line 26: [result.image_url = f"{base_url}/frames/{result.image_url}"]. *)
Definition absolute (base_url : string) (result : schemas.FrameResponse)
  : schemas.FrameResponse :=
  {| schemas.image_url := base_url ++ "/frames/" ++ schemas.image_url result;
     schemas.video_filename := schemas.video_filename result;
     schemas.frame_number := schemas.frame_number result;
     schemas.similarity_score := schemas.similarity_score result |}.

(** [search_frames] (lines 10-35); [limit] has passed the [ge=1, le=20]
    validation of the framework. *)
Definition search_frames (search_service : SearchService.t)
    (request_base_url : string) (query : string) (limit : nat) : reply :=
  match SearchService.search search_service query limit with
  | Ok results =>
      let base_url := rstrip_char "/" request_base_url in
      let results := map (absolute base_url) results in
      Response {| results := results; count := length results;
                  query := query |}
  | Raise e => HTTPException 500 ("Search failed: " ++ exn_message e)
  end.

End SearchRoute.

(** ** The batch script ([scripts/process_videos.py], [main]) *)

Module Script.

(** [process_videos(args)] (lines 22-25). *)
Definition process_videos (cfg : Settings) (rt : Startup.Runtime)
    (dir : list video) : M dict :=
  do extractor <- Startup.FrameExtractor_init cfg rt dir false;
  FrameExtractor.process_all_videos extractor.

(** [main] (lines 137-160), after argument parsing. *)
Definition main (cfg : Settings) (rt : Startup.Runtime)
    (engine : list entry -> string -> nat -> result Indexer.Hits)
    (dir : list video) (args : Indexer.Args) : M unit :=
  if negb (Indexer.skip_extraction args) then
    run print "Extracting frames from videos...";
    do metadata <- process_videos cfg rt dir;
    Indexer.index_frames cfg engine metadata args
  else
    do snapshot <- read_metadata_json;
    match snapshot with
    | Some metadata =>
        run print ("Loaded metadata for " ++ PyStr.decimal (length metadata)
                   ++ " frames");
        Indexer.index_frames cfg engine metadata args
    | None => print "No metadata found. Run without --skip-extraction first"
    end.

End Script.

(** * Specification-side definitions

    The notions the properties below are stated with: the mapping and the
    document as the specification words them, the frames a run selects, the
    records and files it leaves, and a few predicates on strings. *)

Module StrSpec.

(** [occurs c s]: the character [c] occurs in [s]. *)
Fixpoint occurs (c : ascii) (s : string) : bool :=
  match s with
  | "" => false
  | String a s' => Ascii.eqb a c || occurs c s'
  end.

Definition is_digit (c : ascii) : bool :=
  let n := nat_of_ascii c in ((48 <=? n) && (n <=? 57))%nat.

Fixpoint all_digits (s : string) : bool :=
  match s with
  | "" => true
  | String a s' => is_digit a && all_digits s'
  end.

(** Reading a padded number back. *)
Definition parse (s : string) : option nat :=
  option_map Nat.of_uint (NilEmpty.uint_of_string s).

(** [all_space s]: [s] consists of whitespace only. *)
Fixpoint all_space (s : string) : bool :=
  match s with
  | "" => true
  | String a s' => PyStr.isspace a && all_space s'
  end.

End StrSpec.

Module SearchSpec.
Local Open Scope Q_scope.

(** The mapping as the specification words it: a distance in [[0,1]] is the
    similarity, any other one goes through [1 - min(d, 2) / 2]. *)
Definition similarity_spec (distance : Q) : Q :=
  if Qle_bool 0 distance && Qle_bool distance 1
  then distance
  else 1 - Qmin distance 2 / 2.

(** The response built for one hit, with [score] as the mapping; [None] for
    a hit whose id is not in the metadata. *)
Definition response (score : Q -> Q) (md : dict) (hit : string * Q)
  : option schemas.FrameResponse :=
  match dict_get md (fst hit) with
  | Some metadata =>
      Some {| schemas.image_url := filename metadata;
              schemas.video_filename := video_filename metadata;
              schemas.frame_number := frame_number metadata;
              schemas.similarity_score := score (snd hit) |}
  | None => None
  end.

End SearchSpec.

Module ExtractorSpec.
Import FrameExtractor.

(** A frame the sampler selects: its position in the decode stream, its
    sequence number among the selected frames, and its content. *)
Definition selected : Type := nat * nat * image.

(** A record without its description. *)
Definition erase (r : FrameMetadata) : FrameMetadata :=
  Frame (id r) (filename r) (video_filename r) (frame_number r) (timestamp r)
        None.

Section Loop.

Variable self : t.
Variable video_filename : string.
Variable video_fps : Q.
Variable max_frames : option Z.
Variable frame_interval : Z.
Variable frames_to_extract : Z.

(** The control flow of [extract_loop] alone: which frames it selects. *)
Fixpoint selection (stream : list image) (frame_count processed_count : nat)
  : list selected :=
  if (Z.of_nat frame_count <? frames_to_extract)%Z then
    match stream with
    | [] => []
    | frame :: stream' =>
        if (Z.of_nat frame_count mod frame_interval =? 0)%Z then
          (frame_count, processed_count, frame)
          :: (if cap_set max_frames
                 && (cap_value max_frames <=? Z.of_nat (S processed_count))%Z
              then []
              else selection stream' (S frame_count) (S processed_count))
        else selection stream' (S frame_count) processed_count
    end
  else [].

(** What [extract_loop] does with the frames it selects. *)
Fixpoint save_all (sel : list selected) (frame_metadata : list FrameMetadata)
  : M (list FrameMetadata) :=
  match sel with
  | [] => ret frame_metadata
  | (frame_count, processed_count, frame) :: rest =>
      do metadata <- save_frame self video_filename video_fps frame
                                frame_count processed_count;
      save_all rest (frame_metadata ++ [metadata])%list
  end.

Definition timestamp_of (frame_count : nat) : Q :=
  (inject_Z (Z.of_nat frame_count) / video_fps)%Q.

(** The record of a selected frame when no caption is attached. *)
Definition plain_record (frame_id : string) (s : selected) : FrameMetadata :=
  Frame frame_id (frame_filename video_filename (snd (fst s))) video_filename
        (fst (fst s)) (timestamp_of (fst (fst s))) None.

Fixpoint plain_records (ent : nat -> string) (k : nat) (sel : list selected)
  : list FrameMetadata :=
  match sel with
  | [] => []
  | s :: rest => plain_record (ent k) s :: plain_records ent (S k) rest
  end.

(** The image files written for a list of selected frames. *)
Fixpoint saved_files (sel : list selected) (files : gmap string image)
  : gmap string image :=
  match sel with
  | [] => files
  | s :: rest =>
      saved_files rest
        (<[frame_filename video_filename (snd (fst s)) := snd s]> files)
  end.

(** The captioner was asked about [img] and raised. *)
Definition captioning_raises (img : image) : Prop :=
  exists (model : clip) (e : exn),
    clip_model self = Some model
    /\ topk model (_get_candidate_labels self) img = Raise e.

(** How many frames of [stream] are decoded from position [fc] on. *)
Definition decodable (stream : list image) (fc : nat) : nat :=
  Z.to_nat (Z.min frames_to_extract (Z.of_nat (fc + length stream))).

End Loop.

(** [ceil_div a b]: the number of multiples of [b] below [a]. *)
Definition ceil_div (a b : nat) : nat := (a + b - 1) / b.

(** The number of frames selected from a stream of which [decoded] frames
    are read, with one frame kept out of [i], under the cap. *)
Definition selected_count (decoded i : nat) (max_frames : option Z) : nat :=
  let by_stream := ceil_div decoded i in
  if cap_set max_frames
  then Z.to_nat (Z.min (Z.of_nat by_stream) (cap_value max_frames))
  else by_stream.

(** The frames [extract_frames_from_video] selects from an opened video. *)
Definition sampled (self : t) (v : video) (frames_per_second : option Q)
    (max_frames : option Z) : list selected :=
  let interval :=
    frame_interval (CAP_PROP_FPS v) (target_fps self frames_per_second) in
  selection max_frames interval
            (frames_to_extract (CAP_PROP_FRAME_COUNT v) max_frames interval)
            (stream v) 0 0.


(** A computation that never writes the metadata snapshot. *)
Definition keeps_snapshot {A : Type} (m : M A) : Prop :=
  forall w : world, metadata_json (snd (m w)) = metadata_json w.

(** The first line [process_all_videos] prints. *)
Definition found_line (self : t) : string :=
  "Found " ++ PyStr.decimal (length (video_files self))
  ++ " video files to process".

(** The filename stem of a video. *)
Definition stem (v : video) : string := fst (PyStr.splitext (name v)).

(** The records a batch returned, none when it raised. *)
Definition records_of (outcome : result dict * world) : list FrameMetadata :=
  match fst outcome with
  | Ok md => dict_values md
  | Raise _ => []
  end.

(** The records one run returned, none when it raised. *)
Definition frames_of (outcome : result (list FrameMetadata) * world)
  : list FrameMetadata :=
  match fst outcome with
  | Ok frames => frames
  | Raise _ => []
  end.

(** A record is named after one of the videos of [done]. *)
Definition named_after (done : list video) (r : FrameMetadata) : Prop :=
  exists (u : video) (pc : nat),
    In u done /\ filename r = frame_filename (name u) pc.

End ExtractorSpec.

Module IndexerSpec.
Import Indexer.

(** What the two [replace] calls do to one character. *)
Definition normalize_char (c : ascii) : ascii :=
  if (Ascii.eqb c "_" || Ascii.eqb c "-")%bool then " "%char else c.

Definition empty_batch : Batch :=
  {| ids := []; documents := []; metadatas := [] |}.

End IndexerSpec.

(** ** Concrete inputs *)

Module Demo.

Definition uuids (n : nat) : string := "uuid-" ++ PyStr.decimal n.

(** Nothing drawn, written, indexed or printed yet. *)
Definition world0 : world := World uuids 0 ∅ None ∅ [].

(** The double nearest to 0.1. *)
Definition tenth : Q := 3602879701896397 # 36028797018963968.

(** 100 frames at 30 frames per second. *)
Definition clip_mp4 : video := Video "clip.mp4" true 30 100 (seq 0 100).

(** Another container of the same name: one frame. *)
Definition clip_avi : video := Video "clip.avi" true 1 1 [500].

(** Three frames at 1 frame per second. *)
Definition short_mp4 : video := Video "short.mp4" true 1 3 [7; 8; 9].

(** A file OpenCV cannot open. *)
Definition broken_mp4 : video := Video "broken.mp4" false 0 0 [].

(** Five frames, reported at 0 frames per second. *)
Definition still_mp4 : video := Video "still.mp4" true 0 5 [1; 2; 3; 4; 5].

Definition extractor (dir : list video) : FrameExtractor.t :=
  FrameExtractor.Make default_settings dir false None.



(** The batch over two containers of the same name. *)
Definition same_stem_run : result dict * world :=
  FrameExtractor.process_all_videos (extractor [clip_mp4; clip_avi]) world0.

Definition args : Indexer.Args :=
  {| Indexer.recreate := false;
     Indexer.test := false;
     Indexer.skip_extraction := false |}.

(** A collection that answers every query with its first [n] entries, at
    distance [1/2] each. *)
Definition nearest (entries : list entry) (query : string) (n : nat)
  : result Indexer.Hits :=
  Ok {| Indexer.hit_ids := map entry_id (firstn n entries);
        Indexer.hit_distances := map (fun _ => (1 # 2)%Q) (firstn n entries);
        Indexer.hit_documents := map entry_document (firstn n entries) |}.

(** A retriever whose collection answers with two known frames and a stale
    id. *)
Definition service : SearchService.t :=
  SearchService.Make
    (fun _ _ =>
       Ok {| SearchService.ids := ["a"; "b"; "stale"];
             SearchService.distances := [1 # 2; 3 # 2; 5 # 2]%Q |})
    [ ("a", Frame "a" "clip_frame_00000.jpg" "clip.mp4" 0 0 None);
      ("b", Frame "b" "clip_frame_00001.jpg" "clip.mp4" 30 1 None) ].

End Demo.


Module RetrievalSpec.

(** The records of the hits that have metadata, in the order of the hits. *)
Definition known_hits (md : dict) (ids : list string) : list FrameMetadata :=
  omap (dict_get md) ids.

(** What a response shows of a record. *)
Definition shown (r : schemas.FrameResponse) : string * string * nat :=
  (schemas.image_url r, schemas.video_filename r, schemas.frame_number r).

Definition stored (m : FrameMetadata) : string * string * nat :=
  (filename m, video_filename m, frame_number m).

Fixpoint last_char (s : string) : option ascii :=
  match s with
  | "" => None
  | String a "" => Some a
  | String _ s' => last_char s'
  end.

(** [k] copies of [c]. *)
Fixpoint copies (c : ascii) (k : nat) : string :=
  match k with
  | O => ""
  | S k' => String c (copies c k')
  end.

End RetrievalSpec.

Module DemoMore.

(** A retriever without metadata whose collection still answers. *)
Definition blank_service : SearchService.t :=
  SearchService.Make
    (fun _ _ => Ok {| SearchService.ids := ["x"; "y"];
                      SearchService.distances := [] |})
    [].

(** A CLIP model that always ranks the second and third label first. *)
Definition labelling_clip : clip := Clip (fun _ _ => Ok [1; 2]%nat).

Definition labelling_extractor (dir : list video) : FrameExtractor.t :=
  FrameExtractor.Make default_settings dir false (Some labelling_clip).

(** One run on the three-frame video, without and with captioning. *)
Definition short_run : result (list FrameMetadata) * world :=
  FrameExtractor.extract_frames_from_video
    (Demo.extractor [Demo.short_mp4]) Demo.short_mp4 None None Demo.world0.

Definition labelled_run : result (list FrameMetadata) * world :=
  FrameExtractor.extract_frames_from_video
    (labelling_extractor [Demo.short_mp4]) Demo.short_mp4 None None
    Demo.world0.

End DemoMore.


Module IndexingSpec.
Import Indexer.

(** The collection entry of one item of the metadata. *)
Definition entry_of (item : string * FrameMetadata) : entry :=
  Entry (fst item) (build_document (snd item))
        (video_filename (snd item), frame_number (snd item),
         timestamp (snd item)).

(** The slices the batch loop of [index_frames] hands to [collection.add]. *)
Definition batches {A : Type} (l : list A) : list (list A) :=
  map (fun i => slice l i (Nat.min (i + batch_size) (length l)))
      (range_step (length l) batch_size).

End IndexingSpec.


Module ExtractionSpec.
Import FrameExtractor ExtractorSpec.

(** The extensions [process_all_videos] looks for, in its order. *)
Definition video_extensions : list string := [".mp4"; ".avi"; ".mov"; ".mkv"].

Definition has_video_extension (file : string) : bool :=
  existsb (PyStr.endswith file) video_extensions.

(** The position of a selected frame in the decode stream. *)
Definition position (s : selected) : nat := fst (fst s).

(** Its sequence number among the selected frames. *)
Definition sequence (s : selected) : nat := snd (fst s).

(** [path] is none of the frame files of the video named [video_filename]. *)
Definition foreign_to (video_filename : string) (path : string) : Prop :=
  forall k : nat, path <> frame_filename video_filename k.

(** The caption [d] is the join of the candidate labels the model ranked
    first for [img]. *)
Definition caption_of (self : t) (img : image) (d : string) : Prop :=
  exists (model : clip) (indices : list nat) (labels : list string),
    clip_model self = Some model
    /\ topk model (_get_candidate_labels self) img = Ok indices
    /\ Forall2 (fun i l => _get_candidate_labels self !! i = Some l)
               indices labels
    /\ d = PyStr.join ", " labels.

(** The record [r] is persisted: it describes a frame of one of [videos],
    its file is named after that video by the filename scheme, and the
    file holds the image of that frame. *)
Definition persisted (videos : list video) (files : gmap string image)
    (r : FrameMetadata) : Prop :=
  exists (v : video) (pc : nat) (img : image),
    In v videos
    /\ video_filename r = name v
    /\ filename r = frame_filename (name v) pc
    /\ stream v !! frame_number r = Some img
    /\ files !! filename r = Some img.

End ExtractionSpec.

Module BatchSpec.

(** The ids drawn between two states of the world, in the order drawn. *)
Definition ids_drawn (w w1 : world) : list string :=
  map (entropy w) (seq (drawn w) (drawn w1 - drawn w)).

(** Every item of the dictionary sits under the id of its record. *)
Definition keyed_by_id (md : dict) : Prop :=
  Forall (fun item => id (snd item) = fst item) md.

(** The ids of the entries of a collection. *)
Definition entry_ids (entries : list entry) : list string :=
  map entry_id entries.

(** A run of the script without captioning. *)
Definition plain_runtime : Startup.Runtime :=
  {| Startup.CLIP_AVAILABLE := false;
     Startup.USE_CLIP_CAPTIONING := true;
     Startup.cuda_is_available := false;
     Startup.clip_load := Raise (RuntimeError "no model") |}.

(** A collection that answers every query with its first [n] entries, at
    distance [1/2] each. *)
Definition first_entries (entries : list entry) (q : string) (n : nat)
  : result SearchService.QueryResult :=
  Ok {| SearchService.ids := map entry_id (firstn n entries);
        SearchService.distances := map (fun _ => (1 # 2)%Q)
                                       (firstn n entries) |}.

(** The script's flags with the smoke test on. *)
Definition testing_args : Indexer.Args :=
  {| Indexer.recreate := true;
     Indexer.test := true;
     Indexer.skip_extraction := false |}.

(** A state in which the collection was filled from the snapshot. *)
Definition synced_world : world :=
  let metadata := SearchService.frame_metadata Demo.service in
  World Demo.uuids 0 ∅ (Some metadata)
        (<["ember_frames" := map IndexingSpec.entry_of metadata]> ∅) [].

End BatchSpec.

(** * Properties *)

(** ** Binary64 rounding *)

Module PyNumFacts.
Import PyNum.
Local Open Scope Q_scope.

Lemma rne_floor (x : Q) : (Qfloor x <= rne x)%Z.
Proof.
  unfold rne. destruct (Qcompare _ _); [destruct (Z.even _) | |]; lia.
Qed.

Lemma rne_ge (x : Q) (n : Z) : inject_Z n <= x -> (n <= rne x)%Z.
Proof.
  intros H. apply Qfloor_resp_le in H. rewrite Qfloor_Z in H.
  pose proof (rne_floor x). lia.
Qed.

Lemma rne_le (x : Q) (n : Z) : x <= inject_Z n -> (rne x <= n)%Z.
Proof.
  intros H. assert (Hf := H). apply Qfloor_resp_le in Hf.
  rewrite Qfloor_Z in Hf.
  destruct (Z.eq_dec (Qfloor x) n) as [E | Hne].
  - assert (Hx : x - inject_Z (Qfloor x) < 1 # 2).
    { pose proof (Qfloor_le x). rewrite E in *. lra. }
    unfold rne.
    destruct (Qcompare_spec (x - inject_Z (Qfloor x)) (1 # 2)) as [H' | |];
      [rewrite H' in Hx; discriminate | lia | lra].
  - unfold rne. destruct (Qcompare _ _); [destruct (Z.even _) | |]; lia.
Qed.

Lemma pow2_pos (e : Z) : 0 < 2 ^ e.
Proof. apply Qpower_0_lt. reflexivity. Qed.

Lemma pow2_Z (k : Z) : (0 <= k)%Z -> 2 ^ k == inject_Z (2 ^ k).
Proof. intros H. now rewrite Zpower_Qpower. Qed.

Lemma pow2_neg (e : Z) : 2 ^ e == / 2 ^ (- e).
Proof.
  rewrite <- (Z.opp_involutive e) at 1. apply Qpower_opp.
Qed.

Lemma quotient_bound (A B P R T : Q) :
  0 < B -> 0 < P -> 0 < R -> 0 < T -> P <= A -> B <= R ->
  T <= A / B / (P * / R * / T).
Proof.
  intros HB HP HR HT HA HBR.
  assert (HiR : 0 < / R) by now apply Qinv_lt_0_compat.
  assert (HiT : 0 < / T) by now apply Qinv_lt_0_compat.
  assert (Hc : 0 < P * / R * / T).
  { apply Qmult_lt_0_compat; [apply Qmult_lt_0_compat |]; assumption. }
  apply Qle_shift_div_l; [exact Hc |].
  apply Qle_shift_div_l; [exact HB |].
  assert (E : T * (P * / R * / T) * B == P * (B * / R)).
  { field. split; apply Qnot_eq_sym, Qlt_not_eq; assumption. }
  rewrite E.
  assert (H1 : B * / R <= 1).
  { apply Qle_shift_div_r; [exact HR | lra]. }
  apply (Qle_trans _ (P * 1)); [| lra].
  apply Qmult_le_l; assumption.
Qed.

Lemma ulp_exponent_spec (x : Q) :
  0 < x -> 2 ^ 52 <= x / 2 ^ ulp_exponent x.
Proof.
  intros Hx. unfold ulp_exponent.
  set (la := Z.log2 (Qnum x)). set (lb := Z.log2 (Zpos (Qden x))).
  destruct (Qle_bool _ _) eqn:E; [now apply Qle_bool_iff in E |].
  clear E.
  assert (Ha : (0 < Qnum x)%Z).
  { destruct x as [a b]. unfold Qlt in Hx. simpl in *. lia. }
  destruct (Z.log2_spec (Qnum x) Ha) as [HA _]. fold la in HA.
  destruct (Z.log2_spec (Zpos (Qden x)) eq_refl) as [_ HB]. fold lb in HB.
  assert (Hla : (0 <= la)%Z) by apply Z.log2_nonneg.
  assert (Hlb : (0 <= lb)%Z) by apply Z.log2_nonneg.
  assert (Hpow : 2 ^ (la - lb - 52 - 1)
                 == 2 ^ la * / 2 ^ (Z.succ lb) * / 2 ^ 52).
  { replace (la - lb - 52 - 1)%Z with (la + - Z.succ lb + - 52)%Z by lia.
    rewrite !Qpower_plus by discriminate. now rewrite !Qpower_opp. }
  rewrite Hpow.
  assert (Hq : x == inject_Z (Qnum x) / inject_Z (Zpos (Qden x))).
  { destruct x as [a b]. apply Qmake_Qdiv. }
  rewrite Hq at 1.
  apply quotient_bound; try apply pow2_pos.
  - reflexivity.
  - rewrite pow2_Z by exact Hla. now rewrite <- Zle_Qle.
  - rewrite pow2_Z by lia. rewrite <- Zle_Qle. lia.
Qed.

Lemma scaled_down (x : Q) (e : Z) :
  (e <= 0)%Z -> x / 2 ^ e == x * inject_Z (2 ^ (- e)).
Proof.
  intros He. unfold Qdiv. rewrite (pow2_neg e).
  rewrite Qinv_involutive. rewrite (pow2_Z (- e)) by lia. reflexivity.
Qed.


Lemma round53_pos_le (x : Q) (n : Z) :
  0 < x -> (n < 2 ^ 53)%Z -> x <= inject_Z n ->
  round53_pos x <= inject_Z n.
Proof.
  intros Hx Hn Hle. unfold round53_pos.
  assert (Hspec := ulp_exponent_spec x Hx).
  set (e := ulp_exponent x) in *.
  destruct (Z.le_gt_cases e 0) as [He | He].
  - set (K := (2 ^ (- e))%Z).
    assert (HK : (0 < K)%Z) by (apply Z.pow_pos_nonneg; lia).
    assert (Hm : (rne (x / 2 ^ e) <= n * K)%Z).
    { apply rne_le. rewrite scaled_down by exact He. fold K.
      rewrite inject_Z_mult. apply Qmult_le_compat_r; [exact Hle |].
      change 0 with (inject_Z 0). rewrite <- Zle_Qle. lia. }
    set (m := rne (x / 2 ^ e)) in *.
    rewrite pow2_neg, pow2_Z by lia. fold K.
    apply Qle_shift_div_r.
    + change 0 with (inject_Z 0). now rewrite <- Zlt_Qlt.
    + rewrite <- inject_Z_mult. now rewrite <- Zle_Qle.
  - exfalso.
    assert (H2 : (2 ^ 1 <= 2 ^ e)%Z) by (apply Z.pow_le_mono_r; lia).
    assert (Hbig : inject_Z (2 ^ 53) <= x).
    { apply (Qle_trans _ (2 ^ 52 * 2 ^ e)).
      - rewrite (pow2_Z e) by lia. rewrite (pow2_Z 52) by lia.
        rewrite <- inject_Z_mult, <- Zle_Qle.
        change (2 ^ 53)%Z with (2 ^ 52 * 2 ^ 1)%Z. nia.
      - assert (Hx' : x / 2 ^ e * 2 ^ e == x).
        { field. apply Qnot_eq_sym, Qlt_not_eq, pow2_pos. }
        apply (Qle_trans _ (x / 2 ^ e * 2 ^ e));
          [| rewrite Hx'; apply Qle_refl].
        apply Qmult_le_compat_r; [exact Hspec |].
        apply Qlt_le_weak, pow2_pos. }
    assert (Hlt : inject_Z n < inject_Z (2 ^ 53)) by now rewrite <- Zlt_Qlt.
    lra.
Qed.

Lemma round53_positive (x : Q) : 0 < x -> round53 x = round53_pos x.
Proof.
  intros Hx. unfold round53. destruct x as [[| a | a] b]; try reflexivity;
    unfold Qlt in Hx; simpl in Hx; lia.
Qed.

Lemma round53_zero (x : Q) : x == 0 -> round53 x = 0.
Proof.
  intros Hx. unfold round53. destruct x as [[| a | a] b]; try reflexivity;
    unfold Qeq in Hx; simpl in Hx; lia.
Qed.


Lemma round53_le (x : Q) (n : Z) :
  0 < x -> (n < 2 ^ 53)%Z -> x <= inject_Z n -> round53 x <= inject_Z n.
Proof.
  intros Hx Hn Hle. rewrite round53_positive by exact Hx.
  now apply round53_pos_le.
Qed.

Lemma round53_nonneg (x : Q) : 0 < x -> 0 <= round53 x.
Proof.
  intros Hx. rewrite round53_positive by exact Hx. unfold round53_pos.
  apply Qmult_le_0_compat; [| apply Qlt_le_weak, pow2_pos].
  change 0 with (inject_Z 0). rewrite <- Zle_Qle.
  apply rne_ge. apply Qlt_le_weak.
  apply Qlt_shift_div_l; [apply pow2_pos |]. now rewrite Qmult_0_l.
Qed.

End PyNumFacts.

(** ** Strings *)

Module PyStrFacts.
Import PyStr StrSpec.

Lemma append_cons (x : ascii) (a b : string) :
  String x a ++ b = String x (a ++ b).
Proof. reflexivity. Qed.

Lemma append_nil_l (b : string) : "" ++ b = b.
Proof. reflexivity. Qed.

Lemma append_assoc (a b c : string) : (a ++ b) ++ c = a ++ (b ++ c).
Proof.
  induction a as [| x a IH]; [reflexivity |].
  rewrite !append_cons. now rewrite IH.
Qed.

Lemma occurs_append (c : ascii) (a b : string) :
  occurs c (a ++ b) = occurs c a || occurs c b.
Proof.
  induction a as [| x a IH]; [reflexivity |].
  rewrite append_cons. simpl. now rewrite IH, orb_assoc.
Qed.

(** A string is split in one way only at the last occurrence of [c]. *)
Lemma split_at_last (c : ascii) :
  forall s1 s2 t1 t2 : string,
    occurs c t1 = false -> occurs c t2 = false ->
    s1 ++ String c t1 = s2 ++ String c t2 ->
    s1 = s2 /\ t1 = t2.
Proof.
  induction s1 as [| x s1 IH]; intros [| y s2] t1 t2 H1 H2 E;
    rewrite ?append_cons, ?append_nil_l in E.
  - injection E as ->. auto.
  - injection E as <- ->.
    rewrite occurs_append in H1. simpl in H1.
    rewrite Ascii.eqb_refl, orb_true_r in H1. discriminate.
  - injection E as -> <-.
    rewrite occurs_append in H2. simpl in H2.
    rewrite Ascii.eqb_refl, orb_true_r in H2. discriminate.
  - injection E as -> E. destruct (IH _ _ _ H1 H2 E) as [-> ->]. auto.
Qed.

Lemma all_digits_append (a b : string) :
  all_digits (a ++ b) = all_digits a && all_digits b.
Proof.
  induction a as [| x a IH]; [reflexivity |].
  rewrite append_cons. simpl. now rewrite IH, andb_assoc.
Qed.

Lemma all_digits_no (c : ascii) (s : string) :
  is_digit c = false -> all_digits s = true -> occurs c s = false.
Proof.
  intros Hc. induction s as [| a s IH]; simpl; [reflexivity |].
  intros H. apply andb_prop in H as [Ha Hs].
  rewrite (IH Hs), orb_false_r.
  destruct (Ascii.eqb_spec a c) as [-> |]; [congruence | reflexivity].
Qed.

Lemma string_of_uint_digits (d : Decimal.uint) :
  all_digits (NilEmpty.string_of_uint d) = true.
Proof. induction d; simpl; auto. Qed.

Lemma zeros_digits (k : nat) : all_digits (zeros k) = true.
Proof. induction k; simpl; auto. Qed.

Lemma format_05d_digits (n : nat) : all_digits (format_05d n) = true.
Proof.
  unfold format_05d, decimal.
  now rewrite all_digits_append, zeros_digits, string_of_uint_digits.
Qed.

Lemma parse_zeros (k : nat) (s : string) : parse (zeros k ++ s) = parse s.
Proof.
  induction k as [| k IH]; [reflexivity |].
  simpl zeros. rewrite append_cons. unfold parse in *. simpl.
  destruct (NilEmpty.uint_of_string (zeros k ++ s)) as [d |];
    destruct (NilEmpty.uint_of_string s) as [d' |]; simpl in *;
    try discriminate; try reflexivity.
  injection IH as IH. f_equal. exact IH.
Qed.

Lemma parse_format_05d (n : nat) : parse (format_05d n) = Some n.
Proof.
  unfold format_05d, decimal. rewrite parse_zeros. unfold parse.
  rewrite NilEmpty.usu. simpl. f_equal. apply Unsigned.of_to.
Qed.

Lemma format_05d_inj (n m : nat) : format_05d n = format_05d m -> n = m.
Proof.
  intros E. apply (f_equal parse) in E.
  rewrite !parse_format_05d in E. congruence.
Qed.

Lemma all_space_append (a b : string) :
  all_space (a ++ b) = all_space a && all_space b.
Proof.
  induction a as [| x a IH]; [reflexivity |].
  rewrite append_cons. simpl. now rewrite IH, andb_assoc.
Qed.

Lemma lstrip_empty (s : string) : lstrip s = "" -> all_space s = true.
Proof.
  induction s as [| a s IH]; simpl; [reflexivity |].
  destruct (isspace a); [exact IH | discriminate].
Qed.

Lemma rstrip_all_space (s : string) :
  all_space (rstrip s) = true -> all_space s = true.
Proof.
  induction s as [| a s IH]; simpl; [reflexivity |].
  destruct (rstrip s) as [| b r] eqn:E.
  - destruct (isspace a) eqn:Ea; simpl.
    + intros _. now apply IH.
    + rewrite Ea. discriminate.
  - simpl. intros H. apply andb_prop in H as [-> H]. simpl. now apply IH.
Qed.

Lemma strip_empty (s : string) : strip s = "" -> all_space s = true.
Proof.
  unfold strip. intros H. apply rstrip_all_space. now apply lstrip_empty.
Qed.

End PyStrFacts.

(** ** Frame extraction *)

Module ExtractorFacts.
Import FrameExtractor ExtractorSpec.

Section Loop.

Variable self : t.
Variable video_filename : string.
Variable video_fps : Q.
Variable max_frames : option Z.
Variable frame_interval : Z.
Variable frames_to_extract : Z.

Lemma extract_loop_selection :
  forall (stream : list image) (frame_count processed_count : nat)
         (acc : list FrameMetadata) (w : world),
    extract_loop self video_filename video_fps max_frames frame_interval
                 frames_to_extract stream frame_count processed_count acc w
    = save_all self video_filename video_fps
        (selection max_frames frame_interval frames_to_extract stream
                   frame_count processed_count) acc w.
Proof.
  intros stream.
  induction stream as [| frame stream IH]; intros fc pc acc w; simpl.
  - destruct (Z.of_nat fc <? frames_to_extract)%Z; reflexivity.
  - destruct (Z.of_nat fc <? frames_to_extract)%Z; [| reflexivity].
    destruct (Z.of_nat fc mod frame_interval =? 0)%Z; [| apply IH].
    simpl. unfold bind.
    destruct (save_frame self video_filename video_fps frame fc pc w)
      as [[metadata | e] w']; [| reflexivity].
    destruct (cap_set max_frames
              && (cap_value max_frames <=? Z.of_nat (S pc))%Z);
      [reflexivity | apply IH].
Qed.

(** The sequence numbers of the selected frames are consecutive. *)
Lemma selection_counts :
  forall (stream : list image) (fc pc : nat),
    map (fun s : selected => snd (fst s))
        (selection max_frames frame_interval frames_to_extract stream fc pc)
    = seq pc (length (selection max_frames frame_interval
                                frames_to_extract stream fc pc)).
Proof.
  intros stream. induction stream as [| frame stream IH]; intros fc pc; simpl.
  - destruct (Z.of_nat fc <? frames_to_extract)%Z; reflexivity.
  - destruct (Z.of_nat fc <? frames_to_extract)%Z; [| reflexivity].
    destruct (Z.of_nat fc mod frame_interval =? 0)%Z; [| apply IH].
    simpl. f_equal.
    destruct (cap_set max_frames
              && (cap_value max_frames <=? Z.of_nat (S pc))%Z);
      [reflexivity | apply IH].
Qed.

(** Every selected frame is the frame of the stream at its position. *)
Lemma selection_frames :
  forall (stream : list image) (fc pc : nat),
    Forall (fun s : selected =>
              (fc <= fst (fst s))%nat
              /\ stream !! (fst (fst s) - fc)%nat = Some (snd s))
           (selection max_frames frame_interval frames_to_extract stream
                      fc pc).
Proof.
  intros stream. induction stream as [| frame stream IH]; intros fc pc; simpl.
  - destruct (Z.of_nat fc <? frames_to_extract)%Z; constructor.
  - assert (Hshift : Forall (fun s : selected =>
              (fc <= fst (fst s))%nat
              /\ (frame :: stream) !! (fst (fst s) - fc)%nat = Some (snd s))
              (selection max_frames frame_interval frames_to_extract stream
                         (S fc) pc) /\
            Forall (fun s : selected =>
              (fc <= fst (fst s))%nat
              /\ (frame :: stream) !! (fst (fst s) - fc)%nat = Some (snd s))
              (selection max_frames frame_interval frames_to_extract stream
                         (S fc) (S pc))).
    { split; (eapply Forall_impl; [apply IH |]); intros [[a b] c]; simpl;
        intros [Hle Hget]; (split; [lia |]);
        replace (a - fc)%nat with (S (a - S fc)) by lia; exact Hget. }
    destruct Hshift as [H1 H2].
    destruct (Z.of_nat fc <? frames_to_extract)%Z; [| constructor].
    destruct (Z.of_nat fc mod frame_interval =? 0)%Z; [| exact H1].
    constructor.
    + simpl. split; [lia |]. now rewrite Nat.sub_diag.
    + destruct (cap_set max_frames
                && (cap_value max_frames <=? Z.of_nat (S pc))%Z);
        [constructor | exact H2].
Qed.

End Loop.

Lemma ceil_div_spec (a b k : nat) :
  (1 <= b)%nat -> (k < ceil_div a b)%nat <-> (k * b < a)%nat.
Proof.
  intros Hb. unfold ceil_div. split; intros H.
  - destruct (Nat.lt_ge_cases (k * b) a) as [Hlt | Hge]; [exact Hlt |].
    exfalso.
    assert ((a + b - 1) / b < S k)%nat; [| lia].
    apply Nat.Div0.div_lt_upper_bound. lia.
  - assert (S k <= (a + b - 1) / b)%nat; [| lia].
    apply Nat.div_le_lower_bound; lia.
Qed.

Section Closed.
Variable max_frames : option Z.
Variable i : nat.
Variable frames_to_extract : Z.
Hypothesis interval_pos : (1 <= i)%nat.
Hypothesis cap_bound :
  cap_set max_frames = true ->
  (frames_to_extract <= cap_value max_frames * Z.of_nat i)%Z.

Lemma multiple_at (fc pc : nat) :
  (fc <= pc * i < fc + i)%nat ->
  (Z.of_nat fc mod Z.of_nat i =? 0)%Z = true <-> fc = (pc * i)%nat.
Proof.
  intros Hinv. rewrite Z.eqb_eq. split.
  - intros Hm.
    assert (Hd := Z.div_mod (Z.of_nat fc) (Z.of_nat i) ltac:(lia)).
    rewrite Hm, Z.add_0_r in Hd.
    assert (Hq : (0 <= Z.of_nat fc / Z.of_nat i)%Z)
      by (apply Z.div_pos; lia).
    set (q := (Z.of_nat fc / Z.of_nat i)%Z) in *.
    assert (q = Z.of_nat pc) by nia. nia.
  - intros ->. rewrite Nat2Z.inj_mul. apply Z.mod_mul. lia.
Qed.

Lemma selection_closed :
  forall (stream : list image) (fc pc : nat),
    (fc <= pc * i < fc + i)%nat ->
    map (fun s : selected => fst (fst s))
        (selection max_frames (Z.of_nat i) frames_to_extract stream fc pc)
    = map (fun k => (k * i)%nat)
          (seq pc (ceil_div (decodable frames_to_extract stream fc) i - pc)).
Proof.
  intros stream. induction stream as [| frame stream IH]; intros fc pc Hinv.
  - set (K := ceil_div (decodable frames_to_extract [] fc) i).
    assert (Hk : ~ (pc < K)%nat).
    { subst K. rewrite ceil_div_spec by assumption.
      unfold decodable. simpl. lia. }
    replace (K - pc)%nat with 0%nat by lia.
    simpl. destruct (Z.of_nat fc <? frames_to_extract)%Z; reflexivity.
  - assert (Hsame : decodable frames_to_extract stream (S fc)
                    = decodable frames_to_extract (frame :: stream) fc).
    { unfold decodable. simpl. do 2 f_equal. lia. }
    set (K := ceil_div (decodable frames_to_extract (frame :: stream) fc) i).
    assert (HK : forall k : nat,
              (k < K)%nat
              <-> (k * i
                   < decodable frames_to_extract (frame :: stream) fc)%nat).
    { intros k. subst K. now apply ceil_div_spec. }
    simpl.
    destruct (Z.of_nat fc <? frames_to_extract)%Z eqn:Hlt.
    + apply Z.ltb_lt in Hlt.
      destruct (Z.of_nat fc mod Z.of_nat i =? 0)%Z eqn:Hmod.
      * apply (multiple_at fc pc Hinv) in Hmod.
        assert (Hk : (pc < K)%nat).
        { apply HK. unfold decodable. simpl. lia. }
        replace (K - pc)%nat with (S (K - S pc)) by lia.
        simpl. f_equal; [exact Hmod |].
        destruct (cap_set max_frames
                  && (cap_value max_frames <=? Z.of_nat (S pc))%Z) eqn:Hcap.
        -- apply andb_prop in Hcap as [Hset Hle]. apply Z.leb_le in Hle.
           specialize (cap_bound Hset).
           assert (Hk' : ~ (S pc < K)%nat).
           { rewrite HK. unfold decodable. nia. }
           replace (K - S pc)%nat with 0%nat by lia.
           reflexivity.
        -- rewrite IH by lia. now rewrite Hsame.
      * assert (Hne : fc <> (pc * i)%nat).
        { intros E. apply (multiple_at fc pc Hinv) in E. congruence. }
        rewrite IH by lia. now rewrite Hsame.
    + apply Z.ltb_ge in Hlt.
      assert (Hk : ~ (pc < K)%nat).
      { rewrite HK. unfold decodable. lia. }
      replace (K - pc)%nat with 0%nat by lia.
      reflexivity.
Qed.

End Closed.


(** *** Saving one frame *)

Section Save.

Variable self : t.
Variable video_filename : string.
Variable video_fps : Q.

Lemma _generate_frame_description_returns (model : clip) (path : string)
    (w : world) :
  exists (d : option string) (out : list string),
    _generate_frame_description self model path w
    = (Ok d, World (entropy w) (drawn w) (frames_dir w) (metadata_json w)
                   (chroma w) (stdout w ++ out))
    /\ (forall (img : image) (e : exn),
          frames_dir w !! path = Some img ->
          topk model (_get_candidate_labels self) img = Raise e ->
          d = None).
Proof.
  unfold _generate_frame_description, try_except, describe, bind,
    read_frames_dir, print, ret, raise.
  destruct w as [ent k files meta ch out]. simpl.
  destruct (files !! path) as [img |] eqn:Hfile; simpl.
  - destruct (topk model (_get_candidate_labels self) img) as [idx | e] eqn:Hk;
      simpl.
    + destruct (pick_labels (_get_candidate_labels self) idx) as [ls | e];
        simpl.
      * exists (Some (PyStr.join ", " ls)), []. rewrite app_nil_r.
        split; [reflexivity |]. intros img' e' [= <-]. congruence.
      * eexists None, [_]. split; [reflexivity | reflexivity].
    + eexists None, [_]. split; reflexivity.
  - eexists None, [_]. split; [reflexivity |]. intros; discriminate.
Qed.

Lemma save_frame_zero_fps (frame : image) (fc pc : nat) (w : world) :
  PyNum.is_zero video_fps = true ->
  save_frame self video_filename video_fps frame fc pc w
  = (Raise (ZeroDivisionError "float division by zero"),
     World (entropy w) (S (drawn w))
           (<[frame_filename video_filename pc := frame]> (frames_dir w))
           (metadata_json w) (chroma w) (stdout w)).
Proof.
  intros Hz. unfold save_frame, bind, uuid4, imwrite, raise. simpl.
  now rewrite Hz.
Qed.

Lemma save_frame_ok (frame : image) (fc pc : nat) (w : world) :
  PyNum.is_zero video_fps = false ->
  exists (d : option string) (out : list string),
    save_frame self video_filename video_fps frame fc pc w
    = (Ok (Frame (entropy w (drawn w)) (frame_filename video_filename pc)
                 video_filename fc (timestamp_of video_fps fc) d),
       World (entropy w) (S (drawn w))
             (<[frame_filename video_filename pc := frame]> (frames_dir w))
             (metadata_json w) (chroma w) (stdout w ++ out))
    /\ (clip_model self = None -> d = None /\ out = [])
    /\ (captioning_raises self frame -> d = None).
Proof.
  intros Hz. unfold save_frame, bind, uuid4, imwrite, ret. simpl.
  rewrite Hz. simpl.
  destruct (clip_model self) as [model |] eqn:Hclip.
  - match goal with
    | |- context [_generate_frame_description self model ?p ?w0] =>
        destruct (_generate_frame_description_returns model p w0)
          as (d & out & Hd & Hraise)
    end.
    rewrite Hd. simpl in *.
    assert (Hnone : captioning_raises self frame -> d = None).
    { intros (model' & e & Hm & Hk). rewrite Hclip in Hm. injection Hm as <-.
      apply (Hraise frame e); [apply lookup_insert_eq | exact Hk]. }
    destruct d as [d |].
    + destruct (PyStr.truthy d).
      * exists (Some d), out. split; [reflexivity |].
        split; [discriminate | exact Hnone].
      * exists None, out. split; [reflexivity |].
        split; [discriminate | reflexivity].
    + exists None, out. split; [reflexivity |].
      split; [discriminate | reflexivity].
  - exists None, []. rewrite app_nil_r. split; [reflexivity |].
    split; [auto | reflexivity].
Qed.

End Save.


(** *** Saving all selected frames *)

Section SaveAll.

Variable self : t.
Variable video_filename : string.
Variable video_fps : Q.

Lemma save_all_zero_fps (s : selected) (rest : list selected)
    (acc : list FrameMetadata) (w : world) :
  PyNum.is_zero video_fps = true ->
  save_all self video_filename video_fps (s :: rest) acc w
  = (Raise (ZeroDivisionError "float division by zero"),
     World (entropy w) (S (drawn w))
           (<[frame_filename video_filename (snd (fst s)) := snd s]>
              (frames_dir w))
           (metadata_json w) (chroma w) (stdout w)).
Proof.
  intros Hz. destruct s as [[fc pc] frame]. simpl. unfold bind.
  now rewrite save_frame_zero_fps.
Qed.

Lemma save_all_ok :
  PyNum.is_zero video_fps = false ->
  forall (sel : list selected) (acc : list FrameMetadata) (w : world),
  exists (new : list FrameMetadata) (out : list string),
    save_all self video_filename video_fps sel acc w
    = (Ok (acc ++ new)%list,
       World (entropy w) (drawn w + length sel)
             (saved_files video_filename sel (frames_dir w))
             (metadata_json w) (chroma w) (stdout w ++ out))
    /\ map erase new
       = plain_records video_filename video_fps (entropy w) (drawn w) sel
    /\ (clip_model self = None ->
        new = plain_records video_filename video_fps (entropy w) (drawn w) sel
        /\ out = [])
    /\ Forall2 (fun (s : selected) (r : FrameMetadata) =>
                  frame_number r = fst (fst s)
                  /\ (captioning_raises self (snd s) -> description r = None))
               sel new.
Proof.
  intros Hz. induction sel as [| [[fc pc] frame] sel IH]; intros acc w.
  - exists [], []. simpl. rewrite !app_nil_r, Nat.add_0_r.
    destruct w; repeat split; constructor.
  - simpl. unfold bind.
    destruct (save_frame_ok self video_filename video_fps frame fc pc w Hz)
      as (d & out1 & Hsave & Hnoclip & Hraise).
    rewrite Hsave.
    match goal with
    | |- context [save_all _ _ _ sel ?acc0 ?w0] =>
        destruct (IH acc0 w0) as (new & out2 & Hall & Herase & Hplain & Hcap)
    end.
    rewrite Hall. simpl in *.
    eexists (_ :: new), (out1 ++ out2)%list.
    split; [| split; [| split]].
    + rewrite <- !app_assoc. simpl.
      replace (drawn w + S (length sel))%nat
        with (S (drawn w + length sel)) by lia.
      reflexivity.
    + simpl. unfold erase at 1. simpl. unfold plain_record. simpl.
      now rewrite Herase.
    + intros Hnone. destruct (Hnoclip Hnone) as [-> ->].
      destruct (Hplain Hnone) as [-> ->]. split; reflexivity.
    + constructor; [split; [reflexivity | exact Hraise] | exact Hcap].
Qed.

End SaveAll.

(** *** One video *)

Lemma extract_unopenable (self : t) (v : video) (fps : option Q)
    (max_frames : option Z) (w : world) :
  isOpened v = false ->
  extract_frames_from_video self v fps max_frames w
  = (Raise (ValueError ("Could not open video file: " ++ video_path self v)),
     w).
Proof.
  intros Ho. unfold extract_frames_from_video. now rewrite Ho.
Qed.

Lemma extract_as_save_all (self : t) (v : video) (fps : option Q)
    (max_frames : option Z) (w : world) :
  isOpened v = true ->
  PyNum.is_zero (target_fps self fps) = false ->
  extract_frames_from_video self v fps max_frames w
  = save_all self (name v) (CAP_PROP_FPS v) (sampled self v fps max_frames)
             [] w.
Proof.
  intros Ho Hfps. unfold extract_frames_from_video. rewrite Ho, Hfps. simpl.
  apply extract_loop_selection.
Qed.

Lemma frame_interval_pos (video_fps fps : Q) :
  (1 <= frame_interval video_fps fps)%Z.
Proof.
  unfold frame_interval.
  destruct (PyNum.int (PyNum.truediv video_fps fps) <? 1)%Z eqn:E; [lia |].
  now apply Z.ltb_ge in E.
Qed.

Lemma same_bound (a b : nat) :
  (forall k : nat, (k < a)%nat <-> (k < b)%nat) -> a = b.
Proof.
  intros H. destruct (Nat.lt_trichotomy a b) as [Hlt | [-> | Hgt]].
  - apply H in Hlt. lia.
  - reflexivity.
  - apply H in Hgt. lia.
Qed.

Lemma sampled_positions (self : t) (v : video) (fps : option Q)
    (max_frames : option Z) :
  let i :=
    Z.to_nat (frame_interval (CAP_PROP_FPS v) (target_fps self fps)) in
  let decoded :=
    Z.to_nat (Z.min (CAP_PROP_FRAME_COUNT v) (Z.of_nat (length (stream v)))) in
  map (fun s : selected => fst (fst s)) (sampled self v fps max_frames)
  = map (fun k => (k * i)%nat) (seq 0 (selected_count decoded i max_frames)).
Proof.
  intros i decoded. unfold sampled.
  assert (Hpos := frame_interval_pos (CAP_PROP_FPS v) (target_fps self fps)).
  assert (Hi : frame_interval (CAP_PROP_FPS v) (target_fps self fps)
               = Z.of_nat i) by (subst i; lia).
  rewrite Hi.
  rewrite (selection_closed max_frames i _ ltac:(lia)).
  - rewrite Nat.sub_0_r. do 2 f_equal.
    apply same_bound. intros k.
    rewrite ceil_div_spec by lia.
    unfold selected_count, decodable, frames_to_extract. simpl.
    destruct (cap_set max_frames) eqn:Hcap.
    + assert (Hk : (k < ceil_div decoded i)%nat <-> (k * i < decoded)%nat)
        by (apply ceil_div_spec; lia).
      subst decoded. split; intros H.
      * assert ((k * i < Z.to_nat (Z.min (CAP_PROP_FRAME_COUNT v)
                                         (Z.of_nat (length (stream v)))))%nat)
          by lia.
        apply Hk in H0. nia.
      * assert (Hk1 : (k < ceil_div
                             (Z.to_nat (Z.min (CAP_PROP_FRAME_COUNT v)
                                              (Z.of_nat (length (stream v)))))
                             i)%nat) by lia.
        apply Hk in Hk1. nia.
    + subst decoded. rewrite ceil_div_spec by lia. reflexivity.
  - unfold frames_to_extract. intros ->. lia.
  - lia.
Qed.


Lemma plain_records_positions (vf : string) (vfps : Q) (sel : list selected) :
  forall (ent : nat -> string) (k : nat),
    map frame_number (plain_records vf vfps ent k sel)
    = map (fun s : selected => fst (fst s)) sel.
Proof.
  induction sel as [| s sel IH]; intros ent k; simpl; [reflexivity |].
  now rewrite IH.
Qed.

Lemma plain_records_filenames (vf : string) (vfps : Q) (sel : list selected) :
  forall (ent : nat -> string) (k : nat),
    map filename (plain_records vf vfps ent k sel)
    = map (fun s : selected => frame_filename vf (snd (fst s))) sel.
Proof.
  induction sel as [| s sel IH]; intros ent k; simpl; [reflexivity |].
  now rewrite IH.
Qed.

Lemma map_erase (A : Type) (f : FrameMetadata -> A) (l : list FrameMetadata) :
  (forall r, f (erase r) = f r) -> map f (map erase l) = map f l.
Proof.
  intros H. rewrite map_map. apply map_ext. exact H.
Qed.

Lemma is_zero_spec (x : Q) : PyNum.is_zero x = true <-> (x == 0)%Q.
Proof. unfold PyNum.is_zero. apply Qeq_bool_iff. Qed.

Lemma is_zero_false (x : Q) : (0 < x)%Q -> PyNum.is_zero x = false.
Proof.
  intros H. destruct (PyNum.is_zero x) eqn:E; [| reflexivity].
  apply is_zero_spec in E. rewrite E in H. discriminate.
Qed.

(** What a run over an opened video with non-zero rates returns and leaves
    behind. *)
Lemma extract_ok (self : t) (v : video) (fps : option Q)
    (max_frames : option Z) (w : world) :
  isOpened v = true ->
  PyNum.is_zero (target_fps self fps) = false ->
  PyNum.is_zero (CAP_PROP_FPS v) = false ->
  let sel := sampled self v fps max_frames in
  exists (frames : list FrameMetadata) (out : list string),
    extract_frames_from_video self v fps max_frames w
    = (Ok frames,
       World (entropy w) (drawn w + length sel)
             (saved_files (name v) sel (frames_dir w))
             (metadata_json w) (chroma w) (stdout w ++ out))
    /\ map erase frames
       = plain_records (name v) (CAP_PROP_FPS v) (entropy w) (drawn w) sel
    /\ (clip_model self = None ->
        frames
        = plain_records (name v) (CAP_PROP_FPS v) (entropy w) (drawn w) sel
        /\ out = [])
    /\ Forall2 (fun (s : selected) (r : FrameMetadata) =>
                  frame_number r = fst (fst s)
                  /\ (captioning_raises self (snd s) -> description r = None))
               sel frames.
Proof.
  intros Ho Hfps Hv sel.
  rewrite extract_as_save_all by assumption.
  destruct (save_all_ok self (name v) (CAP_PROP_FPS v) Hv sel [] w)
    as (new & out & Hall & Hrest).
  exists new, out. split; [exact Hall | exact Hrest].
Qed.

Lemma extract_positions (self : t) (v : video) (fps : option Q)
    (max_frames : option Z) (w : world) :
  isOpened v = true ->
  PyNum.is_zero (target_fps self fps) = false ->
  PyNum.is_zero (CAP_PROP_FPS v) = false ->
  let i :=
    Z.to_nat (frame_interval (CAP_PROP_FPS v) (target_fps self fps)) in
  let decoded :=
    Z.to_nat (Z.min (CAP_PROP_FRAME_COUNT v) (Z.of_nat (length (stream v)))) in
  exists frames : list FrameMetadata,
    fst (extract_frames_from_video self v fps max_frames w) = Ok frames
    /\ map frame_number frames
       = map (fun k => (k * i)%nat)
             (seq 0 (selected_count decoded i max_frames)).
Proof.
  intros Ho Hfps Hv i decoded.
  destruct (extract_ok self v fps max_frames w Ho Hfps Hv)
    as (frames & out & Hrun & Herase & _).
  exists frames. rewrite Hrun. split; [reflexivity |].
  rewrite <- (map_erase _ frame_number) by reflexivity.
  rewrite Herase, plain_records_positions.
  apply sampled_positions.
Qed.

Lemma int_is_floor (q : Q) : (0 <= q)%Q -> PyNum.int q = Qfloor q.
Proof.
  destruct q as [n d]. unfold Qle, PyNum.int. simpl. intros H.
  apply Z.quot_div_nonneg; lia.
Qed.





(** The binary64 quotient at work: for the doubles 30.0 and 0.1 the
    program's interval is 300, while the exact quotient of the two doubles
    is just below 300. *)
Remark binary64_quotient_of_30_and_tenth :
  frame_interval 30 Demo.tenth = 300%Z
  /\ Qfloor (30 / Demo.tenth) = 299%Z.
Proof. split; vm_compute; reflexivity. Qed.


Lemma sampled_empty_returns (self : t) (v : video) (fps : option Q)
    (max_frames : option Z) (w : world) :
  isOpened v = true ->
  PyNum.is_zero (target_fps self fps) = false ->
  sampled self v fps max_frames = [] ->
  extract_frames_from_video self v fps max_frames w = (Ok [], w).
Proof.
  intros Ho Hfps Hsel. rewrite extract_as_save_all by assumption.
  now rewrite Hsel.
Qed.

Lemma extract_zero_fps (self : t) (v : video) (fps : option Q)
    (max_frames : option Z) (w : world) (s : selected)
    (rest : list selected) :
  isOpened v = true ->
  PyNum.is_zero (target_fps self fps) = false ->
  PyNum.is_zero (CAP_PROP_FPS v) = true ->
  sampled self v fps max_frames = s :: rest ->
  extract_frames_from_video self v fps max_frames w
  = (Raise (ZeroDivisionError "float division by zero"),
     World (entropy w) (S (drawn w))
           (<[frame_filename (name v) (snd (fst s)) := snd s]> (frames_dir w))
           (metadata_json w) (chroma w) (stdout w)).
Proof.
  intros Ho Hfps Hv Hsel. rewrite extract_as_save_all by assumption.
  rewrite Hsel. now apply save_all_zero_fps.
Qed.




(** C10: on an opened video that reports a native frame rate of 0 the
    interval is clamped to 1 without failing; as soon as one frame is
    decoded, the run writes that frame's image and then raises
    [ZeroDivisionError] on its timestamp, and nothing catches it. *)
Theorem zero_native_fps_raises_at_first_timestamp (self : t) (v : video)
    (frames_per_second : option Q) (max_frames : option Z) (w : world)
    (frame : image) (rest : list image) :
  isOpened v = true ->
  (CAP_PROP_FPS v == 0)%Q ->
  PyNum.is_zero (target_fps self frames_per_second) = false ->
  stream v = frame :: rest ->
  (0 < frames_to_extract (CAP_PROP_FRAME_COUNT v) max_frames 1)%Z ->
  frame_interval (CAP_PROP_FPS v) (target_fps self frames_per_second) = 1%Z
  /\ extract_frames_from_video self v frames_per_second max_frames w
     = (Raise (ZeroDivisionError "float division by zero"),
        World (entropy w) (S (drawn w))
              (<[frame_filename (name v) 0 := frame]> (frames_dir w))
              (metadata_json w) (chroma w) (stdout w)).
Proof.
  intros Ho Hzero Hfps Hstream Hsome.
  assert (Hint : frame_interval (CAP_PROP_FPS v)
                   (target_fps self frames_per_second) = 1%Z).
  { unfold frame_interval, PyNum.truediv.
    rewrite PyNumFacts.round53_zero; [reflexivity |].
    rewrite Hzero. unfold Qdiv. apply Qmult_0_l. }
  split; [exact Hint |].
  assert (Hsel : exists tail,
            sampled self v frames_per_second max_frames
            = (0%nat, 0%nat, frame) :: tail).
  { unfold sampled. rewrite Hint, Hstream.
    apply Z.ltb_lt in Hsome. cbn [selection].
    change (Z.of_nat 0) with 0%Z. rewrite Hsome. simpl. eauto. }
  destruct Hsel as [tail Hsel].
  rewrite (extract_zero_fps _ _ _ _ _ _ _ Ho Hfps
             (proj2 (is_zero_spec _) Hzero) Hsel).
  reflexivity.
Qed.

Lemma zero_native_fps_raises_at_first_timestamp_witness :
  fst (extract_frames_from_video (Demo.extractor [Demo.still_mp4])
         Demo.still_mp4 None None Demo.world0)
  = Raise (ZeroDivisionError "float division by zero")
  /\ frames_dir (snd (extract_frames_from_video
                        (Demo.extractor [Demo.still_mp4])
                        Demo.still_mp4 None None Demo.world0))
     !! "still_frame_00000.jpg" = Some 1%nat.
Proof.
  destruct (zero_native_fps_raises_at_first_timestamp
              (Demo.extractor [Demo.still_mp4]) Demo.still_mp4 None None
              Demo.world0 1%nat [2; 3; 4; 5]%nat
              eq_refl eq_refl eq_refl eq_refl eq_refl) as [_ Hrun].
  rewrite Hrun. split; reflexivity.
Defined.




(** *** The batch *)

Lemma keeps_ret (A : Type) (a : A) : keeps_snapshot (ret a).
Proof. intros w. reflexivity. Qed.

Lemma keeps_raise (A : Type) (e : exn) : keeps_snapshot (@raise A e).
Proof. intros w. reflexivity. Qed.

Lemma keeps_print (line : string) : keeps_snapshot (print line).
Proof. intros w. reflexivity. Qed.

Lemma keeps_uuid4 : keeps_snapshot uuid4.
Proof. intros w. reflexivity. Qed.

Lemma keeps_imwrite (path : string) (img : image) :
  keeps_snapshot (imwrite path img).
Proof. intros w. reflexivity. Qed.

Lemma keeps_read_frames_dir : keeps_snapshot read_frames_dir.
Proof. intros w. reflexivity. Qed.

Lemma keeps_bind (A B : Type) (m : M A) (k : A -> M B) :
  keeps_snapshot m -> (forall a, keeps_snapshot (k a)) ->
  keeps_snapshot (bind m k).
Proof.
  intros Hm Hk w. unfold bind. specialize (Hm w).
  destruct (m w) as [[a | e] w1]; simpl in *; [| exact Hm].
  now rewrite Hk.
Qed.

Lemma keeps_try_except (A : Type) (body : M A) (handler : exn -> M A) :
  keeps_snapshot body -> (forall e, keeps_snapshot (handler e)) ->
  keeps_snapshot (try_except body handler).
Proof.
  intros Hm Hk w. unfold try_except. specialize (Hm w).
  destruct (body w) as [[a | e] w1]; simpl in *; [exact Hm |].
  now rewrite Hk.
Qed.

Create HintDb keeps.
#[local] Hint Resolve keeps_ret keeps_raise keeps_print keeps_uuid4
  keeps_imwrite keeps_read_frames_dir : keeps.

Lemma keeps_describe (self : t) (model : clip) (path : string) :
  keeps_snapshot (describe self model path).
Proof.
  unfold describe. apply keeps_bind; [auto with keeps |]. intros files.
  destruct (files !! path); [| auto with keeps].
  destruct (topk model _ _); [| auto with keeps].
  destruct (pick_labels _ _); auto with keeps.
Qed.

Lemma keeps_generate (self : t) (model : clip) (path : string) :
  keeps_snapshot (_generate_frame_description self model path).
Proof.
  unfold _generate_frame_description.
  apply keeps_try_except.
  2:{ intros e. apply keeps_bind; [auto with keeps | intros _].
      auto with keeps. }
  apply keeps_bind; [apply keeps_describe | intros d; auto with keeps].
Qed.

Lemma keeps_save_frame (self : t) (vf : string) (vfps : Q) (frame : image)
    (fc pc : nat) :
  keeps_snapshot (save_frame self vf vfps frame fc pc).
Proof.
  unfold save_frame.
  apply keeps_bind; [auto with keeps | intros frame_id].
  apply keeps_bind; [auto with keeps | intros _].
  apply keeps_bind; [destruct (PyNum.is_zero vfps); auto with keeps |].
  intros ts. destruct (clip_model self) as [model |]; [| auto with keeps].
  apply keeps_bind; [apply keeps_generate |].
  intros [d |]; [destruct (PyStr.truthy d) |]; auto with keeps.
Qed.

Lemma keeps_extract_loop (self : t) (vf : string) (vfps : Q)
    (max_frames : option Z) (interval total : Z) :
  forall (stream : list image) (fc pc : nat) (acc : list FrameMetadata),
    keeps_snapshot
      (extract_loop self vf vfps max_frames interval total stream fc pc acc).
Proof.
  intros stream.
  induction stream as [| frame stream IH]; intros fc pc acc; simpl.
  - destruct (Z.of_nat fc <? total)%Z; auto with keeps.
  - destruct (Z.of_nat fc <? total)%Z; [| auto with keeps].
    destruct (Z.of_nat fc mod interval =? 0)%Z; [| apply IH].
    apply keeps_bind; [apply keeps_save_frame | intros metadata].
    destruct (cap_set max_frames && _); [auto with keeps | apply IH].
Qed.

Lemma keeps_extract (self : t) (v : video) (fps : option Q)
    (max_frames : option Z) :
  keeps_snapshot (extract_frames_from_video self v fps max_frames).
Proof.
  unfold extract_frames_from_video.
  destruct (negb (isOpened v)); [auto with keeps |].
  destruct (PyNum.is_zero _); [auto with keeps |].
  apply keeps_extract_loop.
Qed.

Lemma keeps_process_videos (self : t) :
  forall (files : list video) (md : dict),
    keeps_snapshot (process_videos self files md).
Proof.
  induction files as [| v files IH]; intros md; simpl; [auto with keeps |].
  apply keeps_bind; [auto with keeps | intros _].
  apply keeps_bind; [apply keeps_extract | intros frames]. apply IH.
Qed.

Lemma process_videos_app (self : t) :
  forall (pre rest : list video) (md : dict) (w : world),
    process_videos self (pre ++ rest) md w
    = match process_videos self pre md w with
      | (Ok md1, w1) => process_videos self rest md1 w1
      | (Raise e, w1) => (Raise e, w1)
      end.
Proof.
  induction pre as [| v pre IH]; intros rest md w; simpl; [reflexivity |].
  unfold bind. simpl.
  destruct (extract_frames_from_video self v None None _)
    as [[frames | e] w1]; [apply IH | reflexivity].
Qed.

Lemma process_videos_unopenable (self : t) (v : video) :
  isOpened v = false ->
  forall (files : list video) (md : dict) (w : world),
    In v files ->
    exists e : exn, fst (process_videos self files md w) = Raise e.
Proof.
  intros Ho. induction files as [| u files IH]; intros md w Hin;
    [destruct Hin |].
  simpl. unfold bind. simpl.
  destruct Hin as [-> | Hin].
  - rewrite extract_unopenable by assumption. simpl. eauto.
  - destruct (extract_frames_from_video self u None None _)
      as [[frames | e] w1]; [apply IH; exact Hin | simpl; eauto].
Qed.

Lemma process_all_videos_nonempty (self : t) (w : world) :
  video_files self <> [] ->
  process_all_videos self w
  = match process_videos self (video_files self) []
            (snd (print (found_line self) w)) with
    | (Ok md, w1) =>
        (do _ <- json_dump md;
         do _ <- print ("Processed " ++ PyStr.decimal (length md)
                        ++ " frames from "
                        ++ PyStr.decimal (length (video_files self))
                        ++ " videos");
         ret md) w1
    | (Raise e, w1) => (Raise e, w1)
    end.
Proof.
  intros Hne. unfold process_all_videos, found_line.
  destruct (video_files self) as [| v files] eqn:Hfiles; [congruence |].
  unfold bind at 1. simpl print. unfold bind at 1. reflexivity.
Qed.

(** C2, as the code has it: the batch does not survive a video that cannot
    be opened.  [process_all_videos] raises and writes no metadata snapshot;
    when the videos before it were processed, the error is the [ValueError]
    naming that video and the run stops right there, so that no later video
    is touched. *)
Theorem unopenable_video_aborts_batch (self : t) (pre post : list video)
    (v : video) (w : world) :
  video_files self = (pre ++ v :: post)%list ->
  isOpened v = false ->
  let outcome := process_all_videos self w in
  (exists e : exn, fst outcome = Raise e)
  /\ metadata_json (snd outcome) = metadata_json w
  /\ (forall (md : dict) (w1 : world),
        process_videos self pre [] (snd (print (found_line self) w))
        = (Ok md, w1) ->
        outcome
        = (Raise (ValueError ("Could not open video file: "
                              ++ video_path self v)),
           snd (print ("Processing video: " ++ video_path self v) w1))).
Proof.
  intros Hfiles Ho outcome.
  assert (Hne : video_files self <> []).
  { rewrite Hfiles. now destruct pre. }
  assert (Hin : In v (video_files self)).
  { rewrite Hfiles. apply in_or_app. right. now left. }
  subst outcome. rewrite (process_all_videos_nonempty self w Hne).
  destruct (process_videos_unopenable self v Ho (video_files self) []
              (snd (print (found_line self) w)) Hin) as [e He].
  assert (Hkeep := keeps_process_videos self (video_files self) []
                     (snd (print (found_line self) w))).
  destruct (process_videos self (video_files self) [] _)
    as [[md | e'] w1] eqn:Hrun; [discriminate |].
  split; [eauto |]. split; [exact Hkeep |].
  intros md w2 Hpre.
  rewrite Hfiles, process_videos_app, Hpre in Hrun.
  simpl in Hrun. unfold bind in Hrun. simpl in Hrun.
  rewrite extract_unopenable in Hrun by assumption.
  exact (eq_sym Hrun).
Qed.

Lemma unopenable_video_aborts_batch_witness :
  fst (process_all_videos
         (Demo.extractor [Demo.short_mp4; Demo.broken_mp4; Demo.clip_avi])
         Demo.world0)
  = Raise (ValueError "Could not open video file: data/videos/broken.mp4")
  /\ metadata_json
       (snd (process_all_videos
               (Demo.extractor [Demo.short_mp4; Demo.broken_mp4; Demo.clip_avi])
               Demo.world0)) = None.
Proof.
  destruct (unopenable_video_aborts_batch
              (Demo.extractor [Demo.short_mp4; Demo.broken_mp4; Demo.clip_avi])
              [Demo.short_mp4] [Demo.clip_avi] Demo.broken_mp4 Demo.world0
              eq_refl eq_refl) as (_ & Hmeta & Hstop).
  split; [| exact Hmeta].
  destruct (process_videos
              (Demo.extractor [Demo.short_mp4; Demo.broken_mp4; Demo.clip_avi])
              [Demo.short_mp4] []
              (snd (print
                      (found_line
                         (Demo.extractor
                            [Demo.short_mp4; Demo.broken_mp4; Demo.clip_avi]))
                      Demo.world0)))
    as [[md | e] w1] eqn:Hpre.
  - now rewrite (Hstop md w1 eq_refl).
  - vm_compute in Hpre. discriminate.
Defined.

(** C2 fails as stated: with an unopenable first video nothing is written
    for the openable video after it and no snapshot is written. *)
Lemma unopenable_video_counterexample :
  process_all_videos (Demo.extractor [Demo.broken_mp4; Demo.short_mp4])
                     Demo.world0
  = (Raise (ValueError "Could not open video file: data/videos/broken.mp4"),
     World Demo.uuids 0 ∅ None ∅
           ["Found 2 video files to process";
            "Processing video: data/videos/broken.mp4"]).
Proof. vm_compute. reflexivity. Qed.


(** *** Frame filenames *)

Lemma frame_filename_inj (vf1 vf2 : string) (n1 n2 : nat) :
  frame_filename vf1 n1 = frame_filename vf2 n2 ->
  fst (PyStr.splitext vf1) = fst (PyStr.splitext vf2) /\ n1 = n2.
Proof.
  unfold frame_filename.
  set (s1 := fst (PyStr.splitext vf1)). set (s2 := fst (PyStr.splitext vf2)).
  intros E.
  assert (Hshape : forall (s : string) (n : nat),
            s ++ "_frame_" ++ PyStr.format_05d n ++ ".jpg"
            = (s ++ "_frame") ++ String "_" (PyStr.format_05d n ++ ".jpg")).
  { intros s n. now rewrite PyStrFacts.append_assoc. }
  rewrite !Hshape in E.
  assert (Hnone : forall n : nat,
            StrSpec.occurs "_" (PyStr.format_05d n ++ ".jpg") = false).
  { intros n. rewrite PyStrFacts.occurs_append.
    rewrite (PyStrFacts.all_digits_no "_" _ eq_refl
               (PyStrFacts.format_05d_digits n)).
    reflexivity. }
  apply PyStrFacts.split_at_last in E as [Es En]; try apply Hnone.
  split.
  - change (s1 ++ "_frame") with (s1 ++ String "_" "frame") in Es.
    change (s2 ++ "_frame") with (s2 ++ String "_" "frame") in Es.
    now apply PyStrFacts.split_at_last in Es as [Es _].
  - change (PyStr.format_05d n1 ++ String "." "jpg"
            = PyStr.format_05d n2 ++ String "." "jpg") in En.
    apply PyStrFacts.split_at_last in En as [En _];
      try reflexivity;
      try (apply (PyStrFacts.all_digits_no "." _ eq_refl);
           apply PyStrFacts.format_05d_digits).
    now apply PyStrFacts.format_05d_inj.
Qed.

(** The filenames of the records one run returns are numbered from 0. *)
Lemma extract_filenames (self : t) (v : video) (fps : option Q)
    (max_frames : option Z) (w w1 : world) (frames : list FrameMetadata) :
  extract_frames_from_video self v fps max_frames w = (Ok frames, w1) ->
  map filename frames
  = map (frame_filename (name v)) (seq 0 (length frames)).
Proof.
  intros Hrun.
  destruct (isOpened v) eqn:Ho.
  2:{ rewrite extract_unopenable in Hrun by assumption. discriminate. }
  destruct (PyNum.is_zero (target_fps self fps)) eqn:Hfps.
  { unfold extract_frames_from_video in Hrun. rewrite Ho, Hfps in Hrun.
    discriminate. }
  destruct (PyNum.is_zero (CAP_PROP_FPS v)) eqn:Hv.
  { destruct (sampled self v fps max_frames) as [| s rest] eqn:Hs.
    - rewrite sampled_empty_returns in Hrun by assumption.
      now injection Hrun as <- _.
    - rewrite (extract_zero_fps _ _ _ _ _ s rest) in Hrun by assumption.
      discriminate. }
  destruct (extract_ok self v fps max_frames w Ho Hfps Hv)
    as (frames' & out & Hrun' & Herase & _).
  rewrite Hrun in Hrun'. injection Hrun' as <- _.
  assert (Hlen : length frames = length (sampled self v fps max_frames)).
  { apply (f_equal (@length _)) in Herase. rewrite length_map in Herase.
    rewrite Herase. clear.
    generalize (entropy w) (drawn w).
    induction (sampled self v fps max_frames) as [| s sel IH];
      intros ent k; simpl; [reflexivity | now rewrite IH]. }
  rewrite <- (map_erase _ filename) by reflexivity.
  rewrite Herase, plain_records_filenames, Hlen.
  unfold sampled. rewrite <- selection_counts.
  now rewrite map_map.
Qed.

(** *** The metadata dictionary *)

Lemma dict_set_values (d : dict) (k : string) (r : FrameMetadata) :
  forall x : FrameMetadata,
    In x (dict_values (dict_set d k r)) -> In x (dict_values d) \/ x = r.
Proof.
  induction d as [| [k' r'] d IH]; intros x; simpl.
  - intros [<- | []]. now right.
  - destruct (String.eqb k' k); simpl.
    + intros [<- | H]; auto.
    + intros [<- | H]; [auto |]. destruct (IH x H); auto.
Qed.

Lemma dict_set_NoDup (A : Type) (f : FrameMetadata -> A) (d : dict)
    (k : string) (r : FrameMetadata) :
  NoDup (map f (dict_values d)) ->
  ~ In (f r) (map f (dict_values d)) ->
  NoDup (map f (dict_values (dict_set d k r))).
Proof.
  induction d as [| [k' r'] d IH]; simpl; intros Hnd Hfresh.
  - constructor; [intros H; inversion H | constructor].
  - apply NoDup_cons in Hnd as [Hhead Hnd].
    destruct (String.eqb k' k); simpl.
    + apply NoDup_cons. split; [| exact Hnd].
      rewrite list_elem_of_In. intros Hin. apply Hfresh. right. exact Hin.
    + apply NoDup_cons. split.
      * rewrite list_elem_of_In. intros Hin.
        apply in_map_iff in Hin as (x & Hx & Hin).
        destruct (dict_set_values d k r x Hin) as [Hold | ->].
        -- apply Hhead. rewrite list_elem_of_In, <- Hx.
           now apply in_map.
        -- apply Hfresh. left. exact (eq_sym Hx).
      * apply IH; [exact Hnd |]. intros Hin. apply Hfresh. right. exact Hin.
Qed.

Lemma add_metadata_values (frames : list FrameMetadata) :
  forall (md : dict) (x : FrameMetadata),
    In x (dict_values (add_metadata md frames)) ->
    In x (dict_values md) \/ In x frames.
Proof.
  unfold add_metadata.
  induction frames as [| r frames IH]; intros md x; simpl; [auto |].
  intros H. destruct (IH _ _ H) as [Hin | Hin]; [| auto].
  destruct (dict_set_values _ _ _ _ Hin); auto.
Qed.

Lemma add_metadata_NoDup (A : Type) (f : FrameMetadata -> A)
    (frames : list FrameMetadata) :
  forall md : dict,
    NoDup (map f (dict_values md) ++ map f frames) ->
    NoDup (map f (dict_values (add_metadata md frames))).
Proof.
  unfold add_metadata.
  induction frames as [| r frames IH]; intros md; simpl.
  - now rewrite app_nil_r.
  - intros Hnd. apply IH.
    apply NoDup_app in Hnd as (Hmd & Hdisj & Hfr).
    apply NoDup_cons in Hfr as [Hr Hfr].
    apply NoDup_app. split; [| split; [| exact Hfr]].
    + apply dict_set_NoDup; [exact Hmd |].
      intros Hin. apply (Hdisj (f r)); [now apply list_elem_of_In | left].
    + intros y Hy Hy'. apply list_elem_of_In in Hy.
      apply in_map_iff in Hy as (x & <- & Hx).
      destruct (dict_set_values _ _ _ _ Hx) as [Hold | ->].
      * apply (Hdisj (f x)); [| now right].
        apply list_elem_of_In. now apply in_map.
      * contradiction.
Qed.


Lemma numbered_filenames_NoDup (vf : string) (n : nat) :
  NoDup (map (frame_filename vf) (seq 0 n)).
Proof.
  apply NoDup_fmap_2_strong; [| apply NoDup_seq].
  intros a b _ _ E. now apply frame_filename_inj in E.
Qed.

Lemma process_videos_filenames (self : t) :
  forall (files done : list video) (md md1 : dict) (w w1 : world),
    NoDup (map stem (done ++ files)) ->
    NoDup (map filename (dict_values md)) ->
    (forall r, In r (dict_values md) -> named_after done r) ->
    process_videos self files md w = (Ok md1, w1) ->
    NoDup (map filename (dict_values md1)).
Proof.
  induction files as [| v files IH]; intros done md md1 w w1 Hstems Hnd Hnamed.
  - simpl. now intros [= <- _].
  - simpl. unfold bind. simpl.
    destruct (extract_frames_from_video self v None None _)
      as [[frames | e] w2] eqn:Hrun; [| discriminate].
    assert (Hnames := extract_filenames _ _ _ _ _ _ _ Hrun).
    assert (Hv : ~ In (stem v) (map stem done)).
    { rewrite map_app in Hstems. apply NoDup_app in Hstems as (_ & Hd & _).
      intros Hin. apply (Hd (stem v)); [now apply list_elem_of_In | left]. }
    apply (IH (done ++ [v])%list).
    + now rewrite <- app_assoc.
    + apply add_metadata_NoDup. apply NoDup_app.
      split; [exact Hnd |]. split.
      * intros y Hy Hy'. apply list_elem_of_In in Hy, Hy'.
        apply in_map_iff in Hy as (r & <- & Hr).
        destruct (Hnamed r Hr) as (u & pc & Hu & Hname).
        rewrite Hnames, Hname in Hy'.
        apply in_map_iff in Hy' as (k & Hk & _).
        apply frame_filename_inj in Hk as [Hk _].
        apply Hv. fold (stem u) in Hk. fold (stem v) in Hk.
        rewrite Hk. now apply in_map.
      * rewrite Hnames. apply numbered_filenames_NoDup.
    + intros r Hr. apply add_metadata_values in Hr as [Hr | Hr].
      * destruct (Hnamed r Hr) as (u & pc & Hu & Hname).
        exists u, pc. split; [apply in_or_app; now left | exact Hname].
      * apply (in_map filename) in Hr. rewrite Hnames in Hr.
        apply in_map_iff in Hr as (k & Hk & _).
        exists v, k. split; [apply in_or_app; right; now left | now symmetry].
Qed.

(** C6 fails as stated: [clip.mp4] and [clip.avi] both write
    [clip_frame_00000.jpg]; the two records share the filename and the file
    ends up holding the frame of the video processed last. *)
Lemma same_stem_filenames_counterexample :
  map filename (records_of Demo.same_stem_run)
  = ["clip_frame_00000.jpg"; "clip_frame_00001.jpg";
     "clip_frame_00002.jpg"; "clip_frame_00003.jpg";
     "clip_frame_00000.jpg"]
  /\ map video_filename (records_of Demo.same_stem_run)
     = ["clip.mp4"; "clip.mp4"; "clip.mp4"; "clip.mp4"; "clip.avi"]
  /\ frames_dir (snd Demo.same_stem_run) !! "clip_frame_00000.jpg"
     = Some 500%nat.
Proof. vm_compute. repeat split; reflexivity. Qed.

End ExtractorFacts.

(** ** Indexing *)

Module IndexerFacts.
Import Indexer IndexerSpec.

Lemma replace_separators (s : string) :
  list_ascii_of_string (PyStr.replace "-" " " (PyStr.replace "_" " " s))
  = map normalize_char (list_ascii_of_string s).
Proof.
  induction s as [| c s IH]; simpl; [reflexivity |].
  rewrite IH. f_equal. unfold normalize_char.
  destruct (Ascii.eqb_spec c "_") as [-> | H1]; [reflexivity |].
  simpl. reflexivity.
Qed.

Lemma build_document_shape (frame_data : FrameMetadata) :
  build_document frame_data
  = match description frame_data with
    | Some caption => caption ++ " "
    | None => ""
    end
    ++ "Video: "
    ++ PyStr.replace "-" " "
         (PyStr.replace "_" " "
            (fst (PyStr.splitext (video_filename frame_data))))
    ++ " Frame from video content Scene from video".
Proof.
  unfold build_document, PyStr.join.
  destruct (description frame_data) as [caption |]; simpl.
  - rewrite !PyStrFacts.append_assoc. reflexivity.
  - rewrite !PyStrFacts.append_assoc. reflexivity.
Qed.

Lemma build_document_not_blank (frame_data : FrameMetadata) :
  PyStr.strip (build_document frame_data) <> "".
Proof.
  intros H. apply PyStrFacts.strip_empty in H.
  rewrite build_document_shape in H.
  rewrite !PyStrFacts.all_space_append in H.
  apply andb_prop in H as [_ H]. apply andb_prop in H as [H _].
  discriminate.
Qed.

(** C8: the document of a record is, in this order, the caption when there
    is one, the label ["Video: "] followed by the video's filename stem with
    ['_'] and ['-'] turned into spaces, and the two fixed phrases, joined by
    single spaces; it is never blank, with or without a caption. *)
Theorem build_document_structure (frame_data : FrameMetadata) :
  let stem := fst (PyStr.splitext (video_filename frame_data)) in
  let video_name := PyStr.replace "-" " " (PyStr.replace "_" " " stem) in
  build_document frame_data
  = match description frame_data with
    | Some caption => caption ++ " "
    | None => ""
    end
    ++ "Video: " ++ video_name
    ++ " Frame from video content Scene from video"
  /\ list_ascii_of_string video_name
     = map normalize_char (list_ascii_of_string stem)
  /\ PyStr.strip (build_document frame_data) <> "".
Proof.
  intros stem video_name. split; [apply build_document_shape |].
  split; [apply replace_separators | apply build_document_not_blank].
Qed.

Lemma prepare_ids (metadata : dict) :
  forall acc : Batch,
    ids (prepare metadata acc) = (ids acc ++ map fst metadata)%list.
Proof.
  induction metadata as [| [frame_id frame_data] metadata IH]; intros acc;
    simpl; [now rewrite app_nil_r |].
  assert (Ht : PyStr.truthy (PyStr.strip (build_document frame_data)) = true).
  { unfold PyStr.truthy. apply negb_true_iff. apply String.eqb_neq.
    apply build_document_not_blank. }
  rewrite Ht. simpl. rewrite IH. simpl. now rewrite <- app_assoc.
Qed.

(** C7, as the code has it: without video files [process_all_videos] raises
    a [ValueError] that says so; without documents [index_frames] reports
    ["No frames to index!"] and returns normally, leaving the collection
    without new entries. *)
Theorem empty_corpus_handling (self : FrameExtractor.t) (w : world)
    (cfg : Settings)
    (engine : list entry -> string -> nat -> result Hits)
    (metadata : dict) (args : Args) (w2 : world) :
  (FrameExtractor.video_files self = [] ->
   FrameExtractor.process_all_videos self w
   = (Raise (ValueError ("No video files found in "
                         ++ VIDEOS_DIR (FrameExtractor.settings self))),
      w))
  /\ (ids (prepare metadata empty_batch) = [] ->
      let outcome := index_frames cfg engine metadata args w2 in
      fst outcome = Ok tt
      /\ last (stdout (snd outcome)) = Some "No frames to index!"
      /\ chroma (snd outcome) !! COLLECTION_NAME cfg
         = Some (if recreate args then []
                 else default [] (chroma w2 !! COLLECTION_NAME cfg))).
Proof.
  split.
  - intros Hnone. unfold FrameExtractor.process_all_videos.
    now rewrite Hnone.
  - intros Hids outcome. subst outcome.
    unfold index_frames, bind, print, read_chroma, write_chroma, ret,
      has_collection.
    destruct w2 as [ent k files meta ch out]. simpl.
    fold empty_batch. rewrite Hids.
    destruct (recreate args); destruct (ch !! COLLECTION_NAME cfg) eqn:Hc;
      simpl; rewrite ?lookup_delete_eq, ?Hc; simpl;
      rewrite ?last_snoc, ?lookup_insert_eq, ?Hc; auto.
Qed.

Lemma empty_corpus_handling_witness :
  FrameExtractor.process_all_videos (Demo.extractor []) Demo.world0
  = (Raise (ValueError "No video files found in data/videos"), Demo.world0)
  /\ fst (index_frames default_settings Demo.nearest [] Demo.args
                       Demo.world0) = Ok tt
  /\ last (stdout (snd (index_frames default_settings Demo.nearest []
                                      Demo.args Demo.world0)))
     = Some "No frames to index!".
Proof.
  destruct (empty_corpus_handling (Demo.extractor []) Demo.world0
              default_settings Demo.nearest [] Demo.args Demo.world0)
    as [Hvideos Hdocs].
  split; [exact (Hvideos eq_refl) |].
  destruct (Hdocs eq_refl) as (Hok & Hlast & _).
  split; [exact Hok | exact Hlast].
Defined.

(** C7 fails as stated: without documents the indexing step does not fail;
    it prints its message and returns normally. *)
Lemma index_frames_empty_counterexample :
  index_frames default_settings Demo.nearest [] Demo.args Demo.world0
  = (Ok tt,
     World Demo.uuids 0 ∅ None {["ember_frames" := []]}
           ["Indexing frames in ChromaDB..."; "No frames to index!"]).
Proof. vm_compute. reflexivity. Qed.

End IndexerFacts.

(** ** Retrieval *)

Module SearchFacts.
Import SearchService SearchSpec.
Local Open Scope Q_scope.

Lemma gt_spec (x y : Q) : PyNum.gt x y = true <-> y < x.
Proof.
  unfold PyNum.gt. rewrite negb_true_iff.
  destruct (Qle_bool x y) eqn:E.
  - apply Qle_bool_iff in E. split; [discriminate | intros H; exfalso; lra].
  - split; [intros _ | reflexivity].
    apply Qnot_le_lt. intros H. apply Qle_bool_iff in H. congruence.
Qed.

Lemma half (d : Q) : d / 2 == d * (1 # 2).
Proof. reflexivity. Qed.

Lemma similarity_le_one (d : Q) : d <= 1 -> similarity d = d.
Proof.
  intros H. unfold similarity.
  destruct (PyNum.gt d 1) eqn:E; [| reflexivity].
  apply gt_spec in E. exfalso; lra.
Qed.

Lemma similarity_gt_one (d : Q) : 1 < d -> similarity d = 1 - Qmin d 2 / 2.
Proof.
  intros H. unfold similarity.
  destruct (PyNum.gt d 1) eqn:E; [reflexivity |].
  apply gt_spec in H. congruence.
Qed.

Lemma similarity_between (d : Q) :
  1 < d -> d <= 2 -> similarity d == 1 - d * (1 # 2).
Proof.
  intros H1 H2. rewrite similarity_gt_one by assumption.
  rewrite (Q.min_l d 2 H2). rewrite half. reflexivity.
Qed.

Lemma similarity_far (d : Q) : 2 <= d -> similarity d == 0.
Proof.
  intros H. rewrite similarity_gt_one by lra.
  rewrite (Q.min_r d 2 H). reflexivity.
Qed.

Lemma similarity_range (d : Q) :
  0 <= d -> 0 <= similarity d /\ similarity d <= 1.
Proof.
  intros H0. destruct (Qlt_le_dec 1 d) as [H1 | H1].
  - destruct (Qlt_le_dec d 2) as [H2 | H2].
    + rewrite (similarity_between d) by lra. split; lra.
    + rewrite (similarity_far d H2). split; lra.
  - rewrite similarity_le_one by assumption. split; lra.
Qed.

Lemma similarity_antitone_above_one (d1 d2 : Q) :
  1 < d1 -> d1 <= d2 -> similarity d2 <= similarity d1.
Proof.
  intros H1 H12.
  destruct (Qlt_le_dec d2 2) as [H2 | H2].
  - rewrite (similarity_between d1), (similarity_between d2) by lra. lra.
  - rewrite (similarity_far d2 H2). apply similarity_range. lra.
Qed.

Lemma similarity_is_spec (d : Q) : 0 <= d -> similarity d = similarity_spec d.
Proof.
  intros H0. unfold similarity_spec.
  apply Qle_bool_iff in H0. rewrite H0. simpl.
  destruct (Qle_bool d 1) eqn:E.
  - apply similarity_le_one. now apply Qle_bool_iff.
  - apply similarity_gt_one. apply gt_spec. unfold PyNum.gt. now rewrite E.
Qed.

Lemma collect_spec (self : t) (results : QueryResult) :
  forall (rest : list string) (i : nat) (acc : list schemas.FrameResponse),
    (length rest + i <= length (distances results))%nat ->
    collect self results i rest acc
    = Ok (acc ++ omap (response similarity (frame_metadata self))
                      (zip rest (drop i (distances results))))%list.
Proof.
  induction rest as [| frame_id rest IH]; intros i acc Hlen; simpl.
  - now rewrite app_nil_r.
  - simpl in Hlen.
    destruct (lookup_lt_is_Some_2 (distances results) i) as [d Hd]; [lia |].
    rewrite (drop_S _ _ _ Hd). simpl. unfold response at 1. simpl.
    destruct (dict_get (frame_metadata self) frame_id) as [metadata |].
    + rewrite Hd. rewrite IH by lia. now rewrite <- app_assoc.
    + apply IH. lia.
Qed.

Lemma responses_agree (md : dict) :
  forall (hits : list (string * Q)),
    Forall (fun hit => 0 <= snd hit) hits ->
    omap (response similarity md) hits
    = omap (response similarity_spec md) hits.
Proof.
  induction 1 as [| hit hits H0 _ IH]; [reflexivity |].
  unfold omap in IH |- *. simpl. rewrite IH. unfold response.
  rewrite (similarity_is_spec _ H0). reflexivity.
Qed.

(** The smoke test of [scripts/process_videos.py] converts every distance,
    the retriever only those above 1: the two disagree on [[0,1]]. *)
Remark smoke_test_conversion_differs :
  Indexer.test_query_similarity 0 == 1 /\ similarity 0 == 0.
Proof. split; reflexivity. Qed.

(** C1, as the code has it: a distance up to 1 is returned unchanged, so
    distance 0 has similarity 0 and the mapping increases on [[0,1]]; on
    every distance above 1 the mapping is [1 - min(distance, 2) / 2] and
    non-increasing; it sends every distance from 2 on to 0 and is bounded
    by [[0,1]] on non-negative distances. *)
Theorem similarity_mapping_properties :
  (forall d : Q, d <= 1 -> similarity d = d)
  /\ (forall d1 d2 : Q,
        0 <= d1 -> d1 < d2 -> d2 <= 1 -> similarity d1 < similarity d2)
  /\ (forall d : Q, 1 < d -> similarity d = 1 - Qmin d 2 / 2)
  /\ (forall d1 d2 : Q, 1 < d1 -> d1 <= d2 -> similarity d2 <= similarity d1)
  /\ (forall d : Q, 2 <= d -> similarity d == 0)
  /\ (forall d : Q, 0 <= d -> 0 <= similarity d /\ similarity d <= 1).
Proof.
  split; [exact similarity_le_one |].
  split.
  { intros d1 d2 _ Hlt H1. rewrite !similarity_le_one by lra. exact Hlt. }
  split; [exact similarity_gt_one |].
  split; [exact similarity_antitone_above_one |].
  split; [exact similarity_far | exact similarity_range].
Qed.

Lemma similarity_mapping_properties_witness :
  (0 <= similarity (3 # 2) /\ similarity (3 # 2) <= 1)
  /\ similarity 3 == 0
  /\ similarity 2 <= similarity (3 # 2)
  /\ similarity (3 # 2) = 1 - Qmin (3 # 2) 2 / 2
  /\ similarity (1 # 2) = 1 # 2
  /\ similarity 0 < similarity (1 # 2).
Proof.
  destruct similarity_mapping_properties
    as (Hid & Hinc & Hconv & Hanti & Hfar & Hrange).
  split; [apply Hrange; discriminate |].
  split; [apply Hfar; discriminate |].
  split; [apply Hanti; [reflexivity | discriminate] |].
  split; [apply Hconv; reflexivity |].
  split; [apply Hid; discriminate |].
  apply Hinc; [discriminate | reflexivity | discriminate].
Defined.

(** C1 fails as stated: distance 0 is mapped to similarity 0, not 1, and the
    mapping increases from distance 0 to distance 1. *)
Lemma similarity_zero_counterexample :
  similarity 0 == 0
  /\ (similarity 0 == 1 -> False)
  /\ similarity 0 < similarity 1.
Proof.
  split; [reflexivity |]. split; [discriminate | reflexivity].
Qed.

(** C5: every result of [search] carries the score the specification gives
    for its hit: the distance itself when it lies in [[0,1]], and
    [1 - min(distance, 2) / 2] otherwise.  Hits without metadata are skipped;
    distances are non-negative, as a collection returns them. *)
Theorem search_scores_as_specified (self : t) (query : string) (limit : nat)
    (results : QueryResult) :
  collection_query self query limit = Ok results ->
  (length (ids results) <= length (distances results))%nat ->
  Forall (fun d => 0 <= d) (distances results) ->
  search self query limit
  = Ok (omap (response similarity_spec (frame_metadata self))
             (zip (ids results) (distances results))).
Proof.
  intros Hq Hlen Hpos. unfold search. rewrite Hq.
  rewrite collect_spec by lia. rewrite drop_0. simpl.
  f_equal. apply responses_agree.
  apply Forall_forall. intros [frame_id d] Hin. simpl.
  rewrite Forall_forall in Hpos. apply Hpos.
  exact (elem_of_zip_r _ _ _ _ Hin).
Qed.

Lemma search_scores_as_specified_witness :
  search Demo.service "person using phone" 3
  = Ok [ {| schemas.image_url := "clip_frame_00000.jpg";
            schemas.video_filename := "clip.mp4";
            schemas.frame_number := 0;
            schemas.similarity_score := 1 # 2 |};
         {| schemas.image_url := "clip_frame_00001.jpg";
            schemas.video_filename := "clip.mp4";
            schemas.frame_number := 30;
            schemas.similarity_score := 1 - Qmin (3 # 2) 2 / 2 |} ].
Proof.
  rewrite (search_scores_as_specified Demo.service "person using phone" 3
             _ eq_refl).
  - reflexivity.
  - simpl. lia.
  - repeat (constructor; [discriminate |]). constructor.
Defined.

End SearchFacts.


(** ** Retrieval, continued *)

Module RetrievalFacts.
Import SearchService SearchSpec RetrievalSpec.

Lemma responses_of_known_hits (md : dict) (score : Q -> Q) :
  forall (ids : list string) (ds : list Q),
    (length ids <= length ds)%nat ->
    map shown (omap (response score md) (zip ids ds))
    = map stored (known_hits md ids).
Proof.
  unfold known_hits. intros ids.
  induction ids as [| frame_id ids IH]; intros [| d ds] Hlen;
    simpl in Hlen; try lia; [reflexivity | reflexivity |].
  change (zip (frame_id :: ids) (d :: ds)) with ((frame_id, d) :: zip ids ds).
  unfold omap in IH |- *. simpl. unfold response at 1. simpl.
  destruct (dict_get md frame_id) as [m |]; simpl.
  - f_equal. apply IH. lia.
  - apply IH. lia.
Qed.

Lemma known_hits_length (md : dict) (ids : list string) :
  (length (known_hits md ids) <= length ids)%nat.
Proof.
  unfold known_hits, omap. induction ids as [| frame_id ids IH]; simpl;
    [lia |].
  destruct (dict_get md frame_id); simpl; lia.
Qed.

Lemma collect_unknown (self : t) (results : QueryResult) :
  forall (rest : list string) (i : nat) (acc : list schemas.FrameResponse),
    Forall (fun frame_id => dict_get (frame_metadata self) frame_id = None)
           rest ->
    collect self results i rest acc = Ok acc.
Proof.
  induction rest as [| frame_id rest IH]; intros i acc Hnone; simpl;
    [reflexivity |].
  apply Forall_cons in Hnone as [Hhead Hrest].
  rewrite Hhead. now apply IH.
Qed.

Lemma search_known_hits (self : t) (query : string) (limit : nat)
    (results : QueryResult) :
  collection_query self query limit = Ok results ->
  (length (ids results) <= length (distances results))%nat ->
  exists rs : list schemas.FrameResponse,
    search self query limit = Ok rs
    /\ map shown rs = map stored (known_hits (frame_metadata self)
                                             (ids results))
    /\ (length rs <= length (ids results))%nat.
Proof.
  intros Hq Hlen. unfold search. rewrite Hq.
  rewrite SearchFacts.collect_spec by lia. rewrite drop_0. simpl.
  eexists. split; [reflexivity |].
  assert (Hshown := responses_of_known_hits (frame_metadata self) similarity
                      (ids results) (distances results) Hlen).
  split; [exact Hshown |].
  apply (f_equal (@length _)) in Hshown. rewrite !length_map in Hshown.
  rewrite Hshown. apply known_hits_length.
Qed.

(** The retriever answers with the frames of the hits it has metadata
    for, in the order of the hits, and with no more results than hits. *)
Theorem search_answers_known_hits_in_order (self : t) (query : string)
    (limit : nat) (results : QueryResult) :
  collection_query self query limit = Ok results ->
  (length (ids results) <= length (distances results))%nat ->
  exists rs : list schemas.FrameResponse,
    search self query limit = Ok rs
    /\ map shown rs = map stored (known_hits (frame_metadata self)
                                             (ids results))
    /\ (length rs <= length (ids results))%nat.
Proof. exact (search_known_hits self query limit results). Qed.

Lemma search_answers_known_hits_in_order_witness :
  exists rs : list schemas.FrameResponse,
    search Demo.service "person using phone" 3 = Ok rs
    /\ map shown rs
       = [("clip_frame_00000.jpg", "clip.mp4", 0%nat);
          ("clip_frame_00001.jpg", "clip.mp4", 30%nat)].
Proof.
  destruct (search_answers_known_hits_in_order Demo.service
              "person using phone" 3 _ eq_refl ltac:(simpl; lia))
    as (rs & Hrun & Hshown & _).
  exists rs. split; [exact Hrun | exact Hshown].
Defined.

(** Hits without metadata are dropped without an error, even when all of
    them are unknown and whatever the distances are. *)
Theorem search_skips_unknown_hits (self : t) (query : string) (limit : nat)
    (results : QueryResult) :
  collection_query self query limit = Ok results ->
  Forall (fun frame_id => dict_get (frame_metadata self) frame_id = None)
         (ids results) ->
  search self query limit = Ok [].
Proof.
  intros Hq Hnone. unfold search. rewrite Hq. now apply collect_unknown.
Qed.

Lemma search_skips_unknown_hits_witness :
  search DemoMore.blank_service "anything" 4 = Ok [].
Proof.
  apply (search_skips_unknown_hits DemoMore.blank_service "anything" 4
           {| ids := ["x"; "y"]; distances := [] |} eq_refl).
  repeat constructor.
Defined.

Local Open Scope Q_scope.

Lemma smoke_between (d : Q) :
  d <= 2 -> Indexer.test_query_similarity d == 1 - d * (1 # 2).
Proof.
  intros H. unfold Indexer.test_query_similarity.
  rewrite (Q.min_l d 2 H). rewrite SearchFacts.half. reflexivity.
Qed.

Lemma smoke_far (d : Q) : 2 <= d -> Indexer.test_query_similarity d == 0.
Proof.
  intros H. unfold Indexer.test_query_similarity.
  rewrite (Q.min_r d 2 H). reflexivity.
Qed.

(** The conversion of the smoke test is non-increasing in the distance,
    sends 0 to 1 and every distance from 2 on to 0, stays in [[0,1]] on
    non-negative distances, and gives the retriever's score on every
    distance above 1. *)
Theorem test_query_similarity_properties :
  (forall d1 d2 : Q,
     d1 <= d2 ->
     Indexer.test_query_similarity d2 <= Indexer.test_query_similarity d1)
  /\ Indexer.test_query_similarity 0 == 1
  /\ (forall d : Q, 2 <= d -> Indexer.test_query_similarity d == 0)
  /\ (forall d : Q,
        0 <= d ->
        0 <= Indexer.test_query_similarity d
        /\ Indexer.test_query_similarity d <= 1)
  /\ (forall d : Q, 1 < d -> Indexer.test_query_similarity d = similarity d).
Proof.
  split.
  { intros d1 d2 H12.
    destruct (Qlt_le_dec d2 2) as [H2 | H2].
    - rewrite (smoke_between d1), (smoke_between d2) by lra. lra.
    - rewrite (smoke_far d2 H2).
      destruct (Qlt_le_dec d1 2) as [H1 | H1].
      + rewrite (smoke_between d1) by lra. lra.
      + rewrite (smoke_far d1 H1). lra. }
  split; [reflexivity |].
  split; [exact smoke_far |].
  split.
  { intros d H0. destruct (Qlt_le_dec d 2) as [H2 | H2].
    - rewrite (smoke_between d) by lra. split; lra.
    - rewrite (smoke_far d H2). split; lra. }
  intros d H1. now rewrite SearchFacts.similarity_gt_one.
Qed.

Lemma test_query_similarity_properties_witness :
  Indexer.test_query_similarity 2 <= Indexer.test_query_similarity (1 # 2)
  /\ Indexer.test_query_similarity 3 == 0
  /\ Indexer.test_query_similarity (3 # 2) = similarity (3 # 2).
Proof.
  destruct test_query_similarity_properties
    as (Hanti & _ & Hfar & _ & Hsame).
  split; [apply Hanti; discriminate |].
  split; [apply Hfar; discriminate | apply Hsame; reflexivity].
Defined.

End RetrievalFacts.

(** ** The query endpoint *)

Module SearchRouteFacts.
Import SearchRoute RetrievalSpec.

Lemma rstrip_char_split (c : ascii) (s : string) :
  exists k : nat, s = rstrip_char c s ++ copies c k.
Proof.
  induction s as [| a s [k IH]]; [exists 0%nat; reflexivity |].
  simpl. destruct (rstrip_char c s) as [| b r] eqn:E.
  - destruct (Ascii.eqb_spec a c) as [-> | Hne].
    + exists (S k). simpl. now rewrite IH at 1.
    + exists k. now rewrite IH at 1.
  - exists k. rewrite PyStrFacts.append_cons. now rewrite <- IH.
Qed.

Lemma rstrip_char_last (c : ascii) (s : string) :
  last_char (rstrip_char c s) <> Some c.
Proof.
  induction s as [| a s IH]; [discriminate |].
  simpl. destruct (rstrip_char c s) as [| b r] eqn:E.
  - destruct (Ascii.eqb_spec a c) as [-> | Hne]; [discriminate |].
    simpl. congruence.
  - exact IH.
Qed.

(** The endpoint replies with everything or with one error: when the query
    fails the reply is a 500 that carries the message; otherwise it is a
    body that echoes the query, counts its results, has one result per known
    hit and gives each the URL [<base>/frames/<filename>], where [<base>] is
    the request's base URL without its trailing slashes. *)
Theorem search_frames_all_or_nothing (search_service : SearchService.t)
    (request_base_url query : string) (limit : nat) :
  (forall hits : SearchService.QueryResult,
     SearchService.collection_query search_service query limit = Ok hits ->
     (length (SearchService.ids hits)
      <= length (SearchService.distances hits))%nat) ->
  let base_url := rstrip_char "/" request_base_url in
  last_char base_url <> Some "/"%char
  /\ (exists k : nat, request_base_url = base_url ++ copies "/" k)
  /\ match SearchService.collection_query search_service query limit with
     | Raise e =>
         search_frames search_service request_base_url query limit
         = HTTPException 500 ("Search failed: " ++ exn_message e)
     | Ok hits =>
         exists body : SearchResponse,
           search_frames search_service request_base_url query limit
           = Response body
           /\ SearchRoute.query body = query
           /\ count body = length (results body)
           /\ (count body <= length (SearchService.ids hits))%nat
           /\ map schemas.image_url (results body)
              = map (fun m => base_url ++ "/frames/" ++ filename m)
                    (known_hits (SearchService.frame_metadata search_service)
                                (SearchService.ids hits))
     end.
Proof.
  intros Hwell base_url.
  split; [apply rstrip_char_last |]. split; [apply rstrip_char_split |].
  destruct (SearchService.collection_query search_service query limit)
    as [hits | e] eqn:Hq.
  - destruct (RetrievalFacts.search_known_hits
                search_service query limit hits Hq (Hwell hits eq_refl))
      as (rs & Hrun & Hshown & Hcount).
    unfold search_frames. rewrite Hrun. eexists. split; [reflexivity |].
    simpl. rewrite length_map.
    split; [reflexivity |]. split; [reflexivity |]. split; [exact Hcount |].
    fold base_url.
    apply (f_equal (map (fun x : string * string * nat =>
                           base_url ++ "/frames/" ++ fst (fst x)))) in Hshown.
    rewrite !map_map in Hshown. rewrite map_map. exact Hshown.
  - unfold search_frames, SearchService.search. now rewrite Hq.
Qed.

Lemma search_frames_all_or_nothing_witness :
  exists body : SearchResponse,
    search_frames Demo.service "http://testserver//" "person using phone" 3
    = Response body
    /\ count body = 2%nat
    /\ map schemas.image_url (results body)
       = ["http://testserver/frames/clip_frame_00000.jpg";
          "http://testserver/frames/clip_frame_00001.jpg"].
Proof.
  assert (Hwell : forall hits : SearchService.QueryResult,
            SearchService.collection_query Demo.service
              "person using phone" 3 = Ok hits ->
            (length (SearchService.ids hits)
             <= length (SearchService.distances hits))%nat).
  { intros hits [= <-]. simpl. lia. }
  destruct (search_frames_all_or_nothing Demo.service "http://testserver//"
              "person using phone" 3 Hwell)
    as (_ & _ & body & Hrun & _ & Hcount & _ & Hurls).
  exists body. split; [exact Hrun |]. split.
  - rewrite Hcount. apply (f_equal (@length _)) in Hurls.
    rewrite length_map in Hurls. exact Hurls.
  - exact Hurls.
Defined.

End SearchRouteFacts.


(** ** Indexing, continued *)

Module IndexingFacts.
Import Indexer IndexerSpec IndexingSpec.

Lemma prepare_lists (metadata : dict) :
  forall acc : Batch,
    prepare metadata acc
    = {| ids := ids acc ++ map fst metadata;
         documents :=
           documents acc ++ map (fun it => build_document (snd it)) metadata;
         metadatas :=
           metadatas acc
           ++ map (fun it => (video_filename (snd it), frame_number (snd it),
                              timestamp (snd it))) metadata |}%list.
Proof.
  induction metadata as [| [frame_id frame_data] metadata IH]; intros acc;
    simpl.
  - rewrite !app_nil_r. now destruct acc.
  - assert (Ht : PyStr.truthy (PyStr.strip (build_document frame_data))
                 = true).
    { unfold PyStr.truthy. apply negb_true_iff. apply String.eqb_neq.
      apply IndexerFacts.build_document_not_blank. }
    rewrite Ht. simpl. rewrite IH. simpl. now rewrite <- !app_assoc.
Qed.

Lemma zip3_maps (A : Type) (f : A -> string) (g : A -> string)
    (h : A -> string * nat * Q) (l : list A) :
  zip3 (map f l) (map g l) (map h l) = map (fun a => Entry (f a) (g a) (h a)) l.
Proof. induction l as [| a l IH]; simpl; [reflexivity | now rewrite IH]. Qed.

Lemma prepared (metadata : dict) :
  let b := prepare metadata empty_batch in
  ids b = map fst metadata
  /\ documents b = map (fun it => build_document (snd it)) metadata
  /\ metadatas b
     = map (fun it => (video_filename (snd it), frame_number (snd it),
                       timestamp (snd it))) metadata
  /\ zip3 (ids b) (documents b) (metadatas b) = map entry_of metadata.
Proof.
  intros b. subst b. rewrite prepare_lists. simpl.
  repeat split. apply zip3_maps.
Qed.

(** No record is skipped on the way to the collection: the three lists
    [index_frames] prepares hold, item by item and in the order of the
    metadata, the id, the document and the sidecar of every record. *)
Theorem prepare_keeps_every_record (metadata : dict) :
  let b := prepare metadata empty_batch in
  ids b = map fst metadata
  /\ documents b = map (fun it => build_document (snd it)) metadata
  /\ metadatas b
     = map (fun it => (video_filename (snd it), frame_number (snd it),
                       timestamp (snd it))) metadata
  /\ zip3 (ids b) (documents b) (metadatas b) = map entry_of metadata.
Proof. exact (prepared metadata). Qed.

Lemma range_step_100 (n : nat) :
  range_step n batch_size
  = map (fun k => k * batch_size)%nat
        (seq 0 (ExtractorSpec.ceil_div n batch_size)).
Proof. reflexivity. Qed.

Lemma slice_is_take (A : Type) (l : list A) (i : nat) :
  slice l i (Nat.min (i + batch_size) (length l))
  = take batch_size (drop i l).
Proof.
  unfold slice.
  destruct (Nat.le_gt_cases (i + batch_size) (length l)) as [H | H].
  - rewrite Nat.min_l by lia. f_equal. lia.
  - rewrite Nat.min_r by lia.
    rewrite !firstn_all2; [reflexivity | |]; rewrite length_skipn; lia.
Qed.

Lemma take_batches (A : Type) (l : list A) (m : nat) :
  concat (map (fun i => take batch_size (drop i l))
              (map (fun k => k * batch_size)%nat (seq 0 m)))
  = take (m * batch_size) l.
Proof.
  induction m as [| m IH]; [reflexivity |].
  rewrite seq_S, !map_app, concat_app, IH. cbn [map concat Nat.add].
  rewrite app_nil_r, take_take_drop. f_equal. lia.
Qed.

Lemma batches_concat (A : Type) (l : list A) : concat (batches l) = l.
Proof.
  unfold batches. rewrite range_step_100.
  assert (Hspec := fun k =>
            ExtractorFacts.ceil_div_spec (length l) batch_size k
              ltac:(unfold batch_size; lia)).
  rewrite (map_ext _ (fun i => take batch_size (drop i l)))
    by (intros i; apply slice_is_take).
  rewrite take_batches. apply take_ge.
  destruct (Nat.le_gt_cases (length l)
              (ExtractorSpec.ceil_div (length l) batch_size * batch_size))
    as [H | H]; [exact H |].
  apply Hspec in H. lia.
Qed.

(** The batch loop cuts the prepared list into consecutive slices that
    together are the whole list, each of them non-empty and of at most 100
    items, [ceil(n / 100)] in number. *)
Theorem batches_partition (A : Type) (l : list A) :
  concat (batches l) = l
  /\ Forall (fun b => 1 <= length b <= batch_size)%nat (batches l)
  /\ length (batches l) = ExtractorSpec.ceil_div (length l) batch_size.
Proof.
  split; [apply batches_concat |].
  unfold batches. rewrite range_step_100.
  assert (Hspec := fun k =>
            ExtractorFacts.ceil_div_spec (length l) batch_size k
              ltac:(unfold batch_size; lia)).
  split.
  - apply Forall_forall. intros b Hb. apply list_elem_of_In in Hb.
    apply in_map_iff in Hb as (i & <- & Hi).
    apply in_map_iff in Hi as (k & <- & Hk). apply in_seq in Hk.
    rewrite slice_is_take, length_take, length_drop.
    assert (k * batch_size < length l)%nat by (apply Hspec; lia).
    unfold batch_size in *. lia.
  - now rewrite !length_map, length_seq.
Qed.

Lemma zip3_take (n : nat) :
  forall (xs ys : list string) (zs : list (string * nat * Q)),
    zip3 (take n xs) (take n ys) (take n zs) = take n (zip3 xs ys zs).
Proof.
  induction n as [| n IH]; intros xs ys zs.
  - now destruct xs, ys, zs.
  - destruct xs as [| x xs]; [reflexivity |].
    destruct ys as [| y ys]; [reflexivity |].
    destruct zs as [| z zs]; [reflexivity |].
    simpl. now rewrite IH.
Qed.

Lemma zip3_drop (n : nat) :
  forall (xs ys : list string) (zs : list (string * nat * Q)),
    length xs = length ys -> length ys = length zs ->
    zip3 (drop n xs) (drop n ys) (drop n zs) = drop n (zip3 xs ys zs).
Proof.
  induction n as [| n IH]; intros xs ys zs Hxy Hyz; [reflexivity |].
  destruct xs as [| x xs], ys as [| y ys], zs as [| z zs];
    simpl in *; try discriminate; try reflexivity.
  apply IH; lia.
Qed.

Lemma zip3_length (xs ys : list string) (zs : list (string * nat * Q)) :
  length xs = length ys -> length ys = length zs ->
  length (zip3 xs ys zs) = length xs.
Proof.
  revert ys zs. induction xs as [| x xs IH]; intros ys zs Hxy Hyz;
    [reflexivity |].
  destruct ys as [| y ys], zs as [| z zs]; simpl in *; try discriminate.
  rewrite IH; lia.
Qed.

(** The entries the batch that starts at [i] adds. *)
Lemma batch_entries (b : Batch) (i : nat) :
  length (ids b) = length (documents b) ->
  length (documents b) = length (metadatas b) ->
  let batch_end := Nat.min (i + batch_size) (length (ids b)) in
  zip3 (slice (ids b) i batch_end) (slice (documents b) i batch_end)
       (slice (metadatas b) i batch_end)
  = slice (zip3 (ids b) (documents b) (metadatas b)) i
          (Nat.min (i + batch_size)
                   (length (zip3 (ids b) (documents b) (metadatas b)))).
Proof.
  intros Hxy Hyz batch_end. subst batch_end.
  rewrite zip3_length by assumption.
  unfold slice.
  rewrite zip3_take, zip3_drop by assumption. reflexivity.
Qed.

Lemma add_batches_run (name : string) (b : Batch) :
  length (ids b) = length (documents b) ->
  length (documents b) = length (metadatas b) ->
  forall (starts : list nat) (w : world) (old : list entry),
    chroma w !! name = Some old ->
    exists out : list string,
      add_batches name b starts w
      = (Ok tt,
         World (entropy w) (drawn w) (frames_dir w) (metadata_json w)
               (<[name := (old
                           ++ concat
                                (map (fun i =>
                                        slice (zip3 (ids b) (documents b)
                                                    (metadatas b)) i
                                          (Nat.min (i + batch_size)
                                             (length (zip3 (ids b)
                                                (documents b)
                                                (metadatas b)))))
                                     starts))%list]> (chroma w))
               (stdout w ++ out))
      /\ length out = length starts.
Proof.
  intros Hxy Hyz.
  induction starts as [| i starts IH]; intros w old Hold.
  - exists []. simpl. unfold ret. rewrite !app_nil_r.
    rewrite (insert_id _ _ _ Hold). now destruct w.
  - simpl. unfold bind, add_batch, collection_add, bind, read_chroma,
      write_chroma, print. simpl.
    rewrite Hold. simpl.
    rewrite (batch_entries b i Hxy Hyz).
    match goal with
    | |- context [add_batches name b starts ?w0] =>
        destruct (IH w0 _ (lookup_insert_eq _ _ _)) as (out & Hrun & Hlen)
    end.
    rewrite Hrun. simpl.
    eexists (_ :: out). split; [| simpl; now rewrite Hlen].
    rewrite insert_insert_eq, <- !app_assoc. reflexivity.
Qed.

(** *** The smoke test *)

Lemma print_results_frame (results : Hits) :
  forall (pairs : list (string * Q)) (i : nat) (w : world),
    exists out : list string,
      snd (print_results results i pairs w)
      = World (entropy w) (drawn w) (frames_dir w) (metadata_json w)
              (chroma w) (stdout w ++ out).
Proof.
  induction pairs as [| [doc_id distance] pairs IH]; intros i w.
  - exists []. simpl. rewrite app_nil_r. now destruct w.
  - simpl. unfold bind at 1. unfold print at 1. cbv beta iota.
    destruct (hit_documents results !! i) as [document |].
    + unfold bind at 1. unfold print at 1. cbv beta iota.
      match goal with
      | |- context [print_results results (S i) pairs ?w0] =>
          destruct (IH (S i) w0) as (out & Hout)
      end.
      rewrite Hout. simpl. eexists. rewrite <- !app_assoc. reflexivity.
    + unfold raise. simpl. eexists. reflexivity.
Qed.

Lemma run_queries_frame
    (engine : list entry -> string -> nat -> result Hits) (name : string) :
  forall (queries : list string) (w : world),
    exists out : list string,
      snd (run_queries engine name queries w)
      = World (entropy w) (drawn w) (frames_dir w) (metadata_json w)
              (chroma w) (stdout w ++ out).
Proof.
  induction queries as [| query queries IH]; intros w.
  - exists []. simpl. rewrite app_nil_r. now destruct w.
  - simpl. unfold bind at 1. unfold print at 1. cbv beta iota.
    unfold bind at 1. unfold read_chroma at 1. cbv beta iota.
    match goal with
    | |- context [engine ?es query 2%nat] =>
        destruct (engine es query 2%nat) as [results | e]
    end.
    + unfold bind at 1.
      match goal with
      | |- context [print_results results 0 ?ps ?w0] =>
          destruct (print_results_frame results ps 0 w0) as (out & Hout);
          destruct (print_results results 0 ps w0) as [[[] | e] w1]
      end; simpl in Hout; subst w1.
      * match goal with
        | |- context [run_queries engine name queries ?w0] =>
            destruct (IH w0) as (out' & Hout')
        end.
        rewrite Hout'. simpl. eexists. rewrite <- !app_assoc. reflexivity.
      * simpl. eexists. rewrite <- !app_assoc. reflexivity.
    + unfold raise. simpl. eexists. reflexivity.
Qed.

(** Whatever the smoke test does, it only prints. *)
Lemma smoke_test_frame
    (engine : list entry -> string -> nat -> result Hits) (name : string)
    (flag : bool) (w : world) :
  exists tail : list string,
    snd ((if flag then test_query engine name else ret tt) w)
    = World (entropy w) (drawn w) (frames_dir w) (metadata_json w)
            (chroma w) (stdout w ++ tail)
    /\ (flag = false ->
        fst ((if flag then test_query engine name else ret tt) w) = Ok tt
        /\ tail = []).
Proof.
  destruct flag.
  - unfold test_query, bind. unfold print at 1. cbv beta iota.
    match goal with
    | |- context [run_queries engine name test_queries ?w0] =>
        destruct (run_queries_frame engine name test_queries w0)
          as (out & Hout)
    end.
    eexists. split; [| discriminate].
    rewrite Hout. simpl. rewrite <- !app_assoc. reflexivity.
  - exists []. unfold ret. simpl. rewrite app_nil_r.
    split; [now destruct w | auto].
Qed.

(** *** A fresh collection *)

Lemma index_frames_empty (cfg : Settings)
    (engine : list entry -> string -> nat -> result Hits) (args : Args)
    (w : world) :
  recreate args = true \/ chroma w !! COLLECTION_NAME cfg = None ->
  exists out : list string,
    index_frames cfg engine [] args w
    = (Ok tt,
       World (entropy w) (drawn w) (frames_dir w) (metadata_json w)
             (<[COLLECTION_NAME cfg := []]> (chroma w))
             (stdout w ++ out)).
Proof.
  intros Hfresh.
  unfold index_frames, bind, print, read_chroma, write_chroma, ret,
    has_collection.
  destruct w as [ent k files meta ch out0]. simpl in *.
  destruct (recreate args) eqn:Hre; simpl.
  - destruct (ch !! COLLECTION_NAME cfg) eqn:Hc; simpl.
    + rewrite lookup_delete_eq. simpl. eexists.
      rewrite insert_delete_eq, <- !app_assoc. reflexivity.
    + rewrite Hc. simpl. eexists. rewrite <- !app_assoc. reflexivity.
  - destruct Hfresh as [Hfresh | Hfresh]; [discriminate |].
    rewrite Hfresh. simpl. eexists. rewrite <- !app_assoc. reflexivity.
Qed.

(** The collection once the batches are in and the count is printed. *)
Lemma batches_added (cfg : Settings) (metadata : dict) (w0 : world) :
  metadata <> [] ->
  chroma w0 !! COLLECTION_NAME cfg = Some [] ->
  let b := prepare metadata empty_batch in
  exists out : list string,
    add_batches (COLLECTION_NAME cfg) b
      (range_step (length (ids b)) batch_size) w0
    = (Ok tt,
       World (entropy w0) (drawn w0) (frames_dir w0) (metadata_json w0)
             (<[COLLECTION_NAME cfg := map entry_of metadata]> (chroma w0))
             (stdout w0 ++ out)).
Proof.
  intros Hne Hw0 b.
  destruct (prepared metadata) as (Hids & Hdocs & Hmetas & Hzip).
  fold b in Hids, Hdocs, Hmetas, Hzip.
  assert (Hxy : length (ids b) = length (documents b))
    by now rewrite Hids, Hdocs, !length_map.
  assert (Hyz : length (documents b) = length (metadatas b))
    by now rewrite Hdocs, Hmetas, !length_map.
  destruct (add_batches_run (COLLECTION_NAME cfg) b Hxy Hyz
              (range_step (length (ids b)) batch_size) w0 [] Hw0)
    as (out & Hrun & _).
  exists out. rewrite Hrun. do 3 f_equal.
  rewrite app_nil_l.
  replace (length (ids b))
    with (length (zip3 (ids b) (documents b) (metadatas b)))
    by now apply zip3_length.
  fold (batches (zip3 (ids b) (documents b) (metadatas b))).
  rewrite batches_concat. exact Hzip.
Qed.

Lemma index_frames_fresh (cfg : Settings)
    (engine : list entry -> string -> nat -> result Hits)
    (metadata : dict) (args : Args) (w : world) :
  metadata <> [] ->
  recreate args = true \/ chroma w !! COLLECTION_NAME cfg = None ->
  let outcome := index_frames cfg engine metadata args w in
  exists out tail : list string,
    snd outcome
    = World (entropy w) (drawn w) (frames_dir w) (metadata_json w)
            (<[COLLECTION_NAME cfg := map entry_of metadata]> (chroma w))
            (stdout w
             ++ out
             ++ ("Indexed " ++ PyStr.decimal (length metadata)
                 ++ " frames in ChromaDB") :: tail)
    /\ (test args = false -> fst outcome = Ok tt /\ tail = []).
Proof.
  intros Hne Hfresh outcome. subst outcome.
  destruct (prepared metadata) as (Hids & _).
  set (b := prepare metadata empty_batch) in *.
  assert (Hnonempty : exists x xs, ids b = x :: xs).
  { rewrite Hids. destruct metadata as [| [k r] md]; [congruence |].
    simpl. eauto. }
  destruct Hnonempty as (x & xs & Hcons).
  assert (Hlen : length (ids b) = length metadata)
    by now rewrite Hids, length_map.
  assert (Hall := fun w0 => batches_added cfg metadata w0 Hne).
  cbv zeta in Hall. fold b in Hall.
  unfold index_frames, bind, print, read_chroma, write_chroma, ret,
    has_collection.
  fold empty_batch. fold b. rewrite Hcons, <- Hcons, Hlen.
  destruct w as [ent k files meta ch out0]. simpl in *.
  assert (Hend : forall (c : gmap string (list entry)) (lines : list string),
            c !! COLLECTION_NAME cfg = Some [] ->
            <[COLLECTION_NAME cfg := map entry_of metadata]> c
            = <[COLLECTION_NAME cfg := map entry_of metadata]> ch ->
            let outcome :=
              match add_batches (COLLECTION_NAME cfg) b
                      (range_step (length metadata) batch_size)
                      (World ent k files meta c (out0 ++ lines)) with
              | (Ok _, w') =>
                  (if test args
                   then test_query engine (COLLECTION_NAME cfg)
                   else fun w => (Ok tt, w))
                    (World (entropy w') (drawn w') (frames_dir w')
                           (metadata_json w') (chroma w')
                           (stdout w'
                            ++ ["Indexed " ++ PyStr.decimal (length metadata)
                                ++ " frames in ChromaDB"]))
              | (Raise e, w') => (Raise e, w')
              end in
            exists out tail : list string,
              snd outcome
              = World ent k files meta
                      (<[COLLECTION_NAME cfg := map entry_of metadata]> ch)
                      (out0
                       ++ out
                       ++ ("Indexed " ++ PyStr.decimal (length metadata)
                           ++ " frames in ChromaDB") :: tail)
              /\ (test args = false -> fst outcome = Ok tt /\ tail = [])).
  { intros c lines Hc Hsame outcome. subst outcome.
    rewrite <- Hlen.
    destruct (Hall (World ent k files meta c (out0 ++ lines)) Hc)
      as (out & Hrun).
    rewrite Hrun. cbv beta iota. simpl.
    match goal with
    | |- context [(if test args then _ else _) ?w0] =>
        destruct (smoke_test_frame engine (COLLECTION_NAME cfg) (test args)
                    w0) as (tail & Htail & Hok)
    end.
    unfold ret in Htail, Hok. simpl in Htail.
    exists (lines ++ out)%list, tail. split.
    - rewrite Htail, Hsame, Hlen, <- !app_assoc. reflexivity.
    - exact Hok. }
  destruct (recreate args) eqn:Hre; simpl.
  - destruct (ch !! COLLECTION_NAME cfg) eqn:Hc; simpl.
    + rewrite lookup_delete_eq. simpl.
      rewrite <- !app_assoc. apply Hend; [apply lookup_insert_eq |].
      now rewrite insert_insert_eq, insert_delete_eq.
    + rewrite Hc. simpl. apply Hend; [apply lookup_insert_eq |].
      now rewrite insert_insert_eq.
  - destruct Hfresh as [Hfresh | Hfresh]; [discriminate |].
    rewrite Hfresh. simpl. apply Hend; [apply lookup_insert_eq |].
    now rewrite insert_insert_eq.
Qed.

(** Indexing into a fresh collection (recreated, or not there before)
    fills it with exactly one entry per record, in the order of the
    metadata, whatever the smoke test that [--test] adds does afterwards;
    it touches neither the frame files nor the metadata snapshot nor any
    other collection, and it prints the number of frames indexed.  Without
    [--test] that line is the last one and the call returns normally. *)
Theorem index_frames_fills_fresh_collection (cfg : Settings)
    (engine : list entry -> string -> nat -> result Hits)
    (metadata : dict) (args : Args) (w : world) :
  metadata <> [] ->
  recreate args = true \/ chroma w !! COLLECTION_NAME cfg = None ->
  let outcome := index_frames cfg engine metadata args w in
  exists out tail : list string,
    snd outcome
    = World (entropy w) (drawn w) (frames_dir w) (metadata_json w)
            (<[COLLECTION_NAME cfg := map entry_of metadata]> (chroma w))
            (stdout w
             ++ out
             ++ ("Indexed " ++ PyStr.decimal (length metadata)
                 ++ " frames in ChromaDB") :: tail)
    /\ (test args = false -> fst outcome = Ok tt /\ tail = []).
Proof. exact (index_frames_fresh cfg engine metadata args w). Qed.

Lemma index_frames_fills_fresh_collection_witness :
  exists w1 : world,
    snd (index_frames default_settings Demo.nearest
           (SearchService.frame_metadata Demo.service) BatchSpec.testing_args
           Demo.world0) = w1
    /\ map entry_id (default [] (chroma w1 !! "ember_frames")) = ["a"; "b"]
    /\ In "Indexed 2 frames in ChromaDB" (stdout w1).
Proof.
  destruct (index_frames_fills_fresh_collection default_settings
              Demo.nearest (SearchService.frame_metadata Demo.service)
              BatchSpec.testing_args Demo.world0 ltac:(discriminate)
              (or_intror eq_refl))
    as (out & tail & Hsnd & _).
  eexists. split; [exact Hsnd |]. simpl. rewrite lookup_insert_eq.
  split; [reflexivity |].
  apply in_or_app. right. left. reflexivity.
Defined.

End IndexingFacts.


(** ** Frame extraction, continued *)

Module ExtractionFacts.
Import FrameExtractor ExtractorSpec ExtractorFacts ExtractionSpec.

(** *** What a run leaves behind *)

Lemma extract_returns (self : t) (v : video) (fps : option Q)
    (max_frames : option Z) (w w1 : world) (frames : list FrameMetadata) :
  extract_frames_from_video self v fps max_frames w = (Ok frames, w1) ->
  let sel := sampled self v fps max_frames in
  exists out : list string,
    w1 = World (entropy w) (drawn w + length sel)
               (saved_files (name v) sel (frames_dir w))
               (metadata_json w) (chroma w) (stdout w ++ out)
    /\ map erase frames
       = plain_records (name v) (CAP_PROP_FPS v) (entropy w) (drawn w) sel
    /\ (clip_model self = None ->
        frames
        = plain_records (name v) (CAP_PROP_FPS v) (entropy w) (drawn w) sel
        /\ out = [])
    /\ Forall2 (fun (s : selected) (r : FrameMetadata) =>
                  frame_number r = fst (fst s)
                  /\ (captioning_raises self (snd s) -> description r = None))
               sel frames.
Proof.
  intros Hrun sel.
  destruct (isOpened v) eqn:Ho.
  2:{ rewrite extract_unopenable in Hrun by assumption. discriminate. }
  destruct (PyNum.is_zero (target_fps self fps)) eqn:Hfps.
  { unfold extract_frames_from_video in Hrun. rewrite Ho, Hfps in Hrun.
    discriminate. }
  destruct (PyNum.is_zero (CAP_PROP_FPS v)) eqn:Hv.
  { destruct (sampled self v fps max_frames) as [| s rest] eqn:Hs.
    - rewrite sampled_empty_returns in Hrun by assumption.
      injection Hrun as <- <-. subst sel. exists []. simpl.
      rewrite Nat.add_0_r, app_nil_r.
      split; [now destruct w |]. repeat split. constructor.
    - rewrite (extract_zero_fps _ _ _ _ _ s rest) in Hrun by assumption.
      discriminate. }
  destruct (extract_ok self v fps max_frames w Ho Hfps Hv)
    as (frames' & out & Hrun' & Hrest).
  rewrite Hrun in Hrun'. injection Hrun' as <- ->.
  exists out. split; [reflexivity | exact Hrest].
Qed.

Lemma plain_records_ids (vf : string) (vfps : Q) (sel : list selected) :
  forall (ent : nat -> string) (k : nat),
    map id (plain_records vf vfps ent k sel) = map ent (seq k (length sel)).
Proof.
  induction sel as [| s sel IH]; intros ent k; simpl; [reflexivity |].
  now rewrite IH.
Qed.

Lemma plain_records_length (vf : string) (vfps : Q) (sel : list selected) :
  forall (ent : nat -> string) (k : nat),
    length (plain_records vf vfps ent k sel) = length sel.
Proof.
  induction sel as [| s sel IH]; intros ent k; simpl; [reflexivity |].
  now rewrite IH.
Qed.

Lemma plain_records_In (vf : string) (vfps : Q) (sel : list selected) :
  forall (ent : nat -> string) (k : nat) (x : FrameMetadata),
    In x (plain_records vf vfps ent k sel) ->
    exists (s : selected) (j : nat),
      In s sel /\ x = plain_record vf vfps (ent j) s.
Proof.
  induction sel as [| s sel IH]; intros ent k x; simpl; [tauto |].
  intros [<- | Hin]; [exists s, k; auto |].
  destruct (IH _ _ _ Hin) as (s' & j & Hs & Hx). exists s', j. auto.
Qed.

Lemma returned_length (self : t) (v : video) (fps : option Q)
    (max_frames : option Z) (w w1 : world) (frames : list FrameMetadata) :
  extract_frames_from_video self v fps max_frames w = (Ok frames, w1) ->
  length frames = length (sampled self v fps max_frames).
Proof.
  intros Hrun. destruct (extract_returns _ _ _ _ _ _ _ Hrun)
    as (out & _ & Herase & _).
  apply (f_equal (@length _)) in Herase.
  now rewrite length_map, plain_records_length in Herase.
Qed.

Lemma extract_ids (self : t) (v : video)
    (fps : option Q) (max_frames : option Z) (w w1 : world)
    (frames : list FrameMetadata) :
  extract_frames_from_video self v fps max_frames w = (Ok frames, w1) ->
  map id frames = map (entropy w) (seq (drawn w) (length frames))
  /\ drawn w1 = (drawn w + length frames)%nat
  /\ entropy w1 = entropy w.
Proof.
  intros Hrun. assert (Hlen := returned_length _ _ _ _ _ _ _ Hrun).
  destruct (extract_returns _ _ _ _ _ _ _ Hrun) as (out & -> & Herase & _).
  simpl. rewrite Hlen. split; [| auto].
  rewrite <- (map_erase _ id) by reflexivity.
  now rewrite Herase, plain_records_ids.
Qed.

(** One fresh id is drawn per returned record, in order: the ids of a run
    are the next values of the id source, and the source has advanced by the
    number of records. *)
Theorem extract_draws_one_id_per_frame (self : t) (v : video)
    (fps : option Q) (max_frames : option Z) (w w1 : world)
    (frames : list FrameMetadata) :
  extract_frames_from_video self v fps max_frames w = (Ok frames, w1) ->
  map id frames = map (entropy w) (seq (drawn w) (length frames))
  /\ drawn w1 = (drawn w + length frames)%nat
  /\ entropy w1 = entropy w.
Proof.
  exact (extract_ids self v fps max_frames w w1 frames).
Qed.


Lemma extract_draws_one_id_per_frame_witness :
  exists (frames : list FrameMetadata) (w1 : world),
    DemoMore.short_run = (Ok frames, w1)
    /\ map id frames = ["uuid-0"; "uuid-1"; "uuid-2"]
    /\ drawn w1 = 3%nat.
Proof.
  destruct DemoMore.short_run as [[frames | e] w1] eqn:Hrun;
    [| vm_compute in Hrun; discriminate].
  exists frames, w1. split; [reflexivity |].
  destruct (extract_draws_one_id_per_frame _ _ _ _ _ _ _ Hrun)
    as (Hids & Hdrawn & _).
  assert (Hlen : length frames = 3%nat).
  { apply (f_equal (fun r => length (frames_of r))) in Hrun.
    vm_compute in Hrun. now symmetry. }
  rewrite Hids, Hdrawn, Hlen. split; vm_compute; reflexivity.
Defined.

(** *** Positions *)

Section Positions.

Variable max_frames : option Z.
Variable frame_interval : Z.
Variable frames_to_extract : Z.

Lemma selection_below :
  forall (stream : list image) (fc pc : nat),
    Forall (fun s : selected =>
              (Z.of_nat (position s) < frames_to_extract)%Z)
           (selection max_frames frame_interval frames_to_extract stream
                      fc pc).
Proof.
  intros stream. induction stream as [| frame stream IH]; intros fc pc;
    simpl.
  - destruct (Z.of_nat fc <? frames_to_extract)%Z; constructor.
  - destruct (Z.of_nat fc <? frames_to_extract)%Z eqn:Hlt; [| constructor].
    destruct (Z.of_nat fc mod frame_interval =? 0)%Z; [| apply IH].
    constructor; [now apply Z.ltb_lt |].
    destruct (cap_set max_frames && _); [constructor | apply IH].
Qed.

Lemma selection_sorted :
  forall (stream : list image) (fc pc : nat),
    StronglySorted lt
      (map position
           (selection max_frames frame_interval frames_to_extract stream
                      fc pc)).
Proof.
  intros stream. induction stream as [| frame stream IH]; intros fc pc;
    simpl.
  - destruct (Z.of_nat fc <? frames_to_extract)%Z; constructor.
  - destruct (Z.of_nat fc <? frames_to_extract)%Z; [| constructor].
    destruct (Z.of_nat fc mod frame_interval =? 0)%Z; [| apply IH].
    simpl. constructor.
    + destruct (cap_set max_frames && _); [constructor | apply IH].
    + destruct (cap_set max_frames && _); [constructor |].
      apply Forall_forall. intros x Hx. apply list_elem_of_In in Hx.
      apply in_map_iff in Hx as (s & <- & Hs).
      assert (Hge := selection_frames max_frames frame_interval
                       frames_to_extract stream (S fc) (S pc)).
      rewrite Forall_forall in Hge.
      destruct (Hge s (proj2 (list_elem_of_In _ _) Hs)) as [Hle _].
      unfold position. simpl. lia.
Qed.

End Positions.

Lemma frames_to_extract_le (total : Z) (max_frames : option Z) (i : Z) :
  (frames_to_extract total max_frames i <= total)%Z.
Proof. unfold frames_to_extract. destruct (cap_set max_frames); lia. Qed.

(** Every returned record describes a frame of its video: it carries the
    video's filename, a frame number that is a position of the decode
    stream below the reported frame count, and the timestamp
    [frame_number / native fps]; frame numbers grow strictly along the
    list. *)
Theorem extract_records_describe_frames (self : t) (v : video)
    (fps : option Q) (max_frames : option Z) (w w1 : world)
    (frames : list FrameMetadata) :
  extract_frames_from_video self v fps max_frames w = (Ok frames, w1) ->
  Forall (fun r =>
            video_filename r = name v
            /\ timestamp r
               = (inject_Z (Z.of_nat (frame_number r)) / CAP_PROP_FPS v)%Q
            /\ is_Some (stream v !! frame_number r)
            /\ (Z.of_nat (frame_number r) < CAP_PROP_FRAME_COUNT v)%Z)
         frames
  /\ StronglySorted lt (map frame_number frames).
Proof.
  intros Hrun.
  destruct (extract_returns _ _ _ _ _ _ _ Hrun) as (out & _ & Herase & _).
  assert (Hnum : map frame_number frames
                 = map position (sampled self v fps max_frames)).
  { rewrite <- (map_erase _ frame_number) by reflexivity.
    now rewrite Herase, plain_records_positions. }
  split; [| rewrite Hnum; apply selection_sorted].
  apply Forall_forall. intros r Hr. apply list_elem_of_In in Hr.
  assert (Hin : In (erase r) (map erase frames)) by now apply in_map.
  rewrite Herase in Hin.
  apply plain_records_In in Hin as (s & j & Hs & Hr').
  assert (Hfields : video_filename r = name v
                    /\ timestamp r = timestamp_of (CAP_PROP_FPS v)
                                                  (frame_number r)
                    /\ frame_number r = position s).
  { change (video_filename (erase r) = name v
            /\ timestamp (erase r)
               = timestamp_of (CAP_PROP_FPS v) (frame_number (erase r))
            /\ frame_number (erase r) = position s).
    rewrite Hr'. repeat split. }
  destruct Hfields as (Hvf & Hts & Hpos).
  split; [exact Hvf |]. split; [exact Hts |].
  apply (proj2 (list_elem_of_In _ _)) in Hs.
  split.
  - assert (Hfr := selection_frames max_frames
              (frame_interval (CAP_PROP_FPS v) (target_fps self fps))
              (frames_to_extract (CAP_PROP_FRAME_COUNT v) max_frames
                 (frame_interval (CAP_PROP_FPS v) (target_fps self fps)))
              (stream v) 0 0).
    rewrite Forall_forall in Hfr. destruct (Hfr s Hs) as [_ Hget].
    rewrite Hpos. unfold position. rewrite Nat.sub_0_r in Hget.
    rewrite Hget. eauto.
  - assert (Hbelow := selection_below max_frames
              (frame_interval (CAP_PROP_FPS v) (target_fps self fps))
              (frames_to_extract (CAP_PROP_FRAME_COUNT v) max_frames
                 (frame_interval (CAP_PROP_FPS v) (target_fps self fps)))
              (stream v) 0 0).
    rewrite Forall_forall in Hbelow. specialize (Hbelow s Hs).
    rewrite Hpos.
    pose proof (frames_to_extract_le (CAP_PROP_FRAME_COUNT v) max_frames
                  (frame_interval (CAP_PROP_FPS v) (target_fps self fps))).
    lia.
Qed.


Lemma extract_records_describe_frames_witness :
  exists (frames : list FrameMetadata) (w1 : world),
    DemoMore.short_run = (Ok frames, w1)
    /\ Forall (fun r => video_filename r = "short.mp4"
                        /\ (Z.of_nat (frame_number r) < 3)%Z) frames
    /\ StronglySorted lt (map frame_number frames).
Proof.
  destruct DemoMore.short_run as [[frames | e] w1] eqn:Hrun;
    [| vm_compute in Hrun; discriminate].
  exists frames, w1. split; [reflexivity |].
  destruct (extract_records_describe_frames _ _ _ _ _ _ _ Hrun)
    as [Hall Hsorted].
  split; [| exact Hsorted].
  eapply Forall_impl; [exact Hall |].
  intros r (Hvf & _ & _ & Hlt). split; [exact Hvf | exact Hlt].
Defined.

(** *** A target rate above the native rate *)

Lemma interval_clamped (video_fps fps : Q) :
  (0 < video_fps)%Q -> (video_fps < fps)%Q ->
  frame_interval video_fps fps = 1%Z.
Proof.
  intros Hv Hlt. unfold frame_interval.
  assert (Hq : (0 < video_fps / fps)%Q).
  { apply Qlt_shift_div_l; lra. }
  assert (Hq1 : (video_fps / fps <= inject_Z 1)%Q).
  { change (inject_Z 1) with 1%Q. apply Qle_shift_div_r; lra. }
  assert (H0 := PyNumFacts.round53_nonneg _ Hq).
  assert (H1 := PyNumFacts.round53_le _ 1 Hq eq_refl Hq1).
  fold (PyNum.truediv video_fps fps) in H0, H1.
  rewrite ExtractorFacts.int_is_floor by exact H0.
  apply Qfloor_resp_le in H1. rewrite Qfloor_Z in H1.
  destruct (Qfloor (PyNum.truediv video_fps fps) <? 1)%Z eqn:E;
    [reflexivity |].
  apply Z.ltb_ge in E. lia.
Qed.

Lemma ceil_div_one (a : nat) : ceil_div a 1 = a.
Proof.
  unfold ceil_div. rewrite Nat.add_sub. apply Nat.div_1_r.
Qed.

(** Asking for more frames per second than the video has does not
    duplicate frames: the interval is clamped to 1 and, without a cap, the
    run returns every decoded frame below the reported frame count once, in
    order. *)
Theorem target_above_native_selects_every_frame (self : t) (v : video)
    (fps : option Q) (w : world) :
  isOpened v = true ->
  (0 < CAP_PROP_FPS v)%Q ->
  (CAP_PROP_FPS v < target_fps self fps)%Q ->
  let decoded :=
    Z.to_nat (Z.min (CAP_PROP_FRAME_COUNT v) (Z.of_nat (length (stream v)))) in
  frame_interval (CAP_PROP_FPS v) (target_fps self fps) = 1%Z
  /\ exists frames : list FrameMetadata,
       fst (extract_frames_from_video self v fps None w) = Ok frames
       /\ map frame_number frames = seq 0 decoded.
Proof.
  intros Ho Hv Hlt decoded.
  assert (Hone := interval_clamped _ _ Hv Hlt).
  split; [exact Hone |].
  destruct (ExtractorFacts.extract_positions self v fps None w Ho)
    as (frames & Hrun & Hpos);
    [apply ExtractorFacts.is_zero_false; lra
    | apply ExtractorFacts.is_zero_false; exact Hv |].
  exists frames. split; [exact Hrun |].
  rewrite Hpos, Hone. fold decoded.
  unfold selected_count. simpl cap_set. cbv iota.
  change (Z.to_nat 1) with 1%nat. rewrite ceil_div_one.
  rewrite <- (map_id (seq 0 decoded)) at 2.
  apply map_ext. intros k. lia.
Qed.

Lemma target_above_native_selects_every_frame_witness :
  exists frames : list FrameMetadata,
    fst (extract_frames_from_video (Demo.extractor [Demo.short_mp4])
           Demo.short_mp4 (Some 5%Q) None Demo.world0) = Ok frames
    /\ map frame_number frames = [0; 1; 2]%nat.
Proof.
  destruct (target_above_native_selects_every_frame
              (Demo.extractor [Demo.short_mp4]) Demo.short_mp4 (Some 5%Q)
              Demo.world0 eq_refl eq_refl eq_refl)
    as (_ & frames & Hrun & Hpos).
  exists frames. split; [exact Hrun | exact Hpos].
Defined.

(** *** Files *)

Lemma saved_files_foreign (vf : string) (path : string) :
  foreign_to vf path ->
  forall (sel : list selected) (files : gmap string image),
    saved_files vf sel files !! path = files !! path.
Proof.
  intros Hforeign. induction sel as [| s sel IH]; intros files; simpl;
    [reflexivity |].
  rewrite IH. apply lookup_insert_ne. intros E. symmetry in E.
  exact (Hforeign _ E).
Qed.

Lemma saved_files_keeps (vf : string) (n : nat) (img : image) :
  forall (sel : list selected) (files : gmap string image),
    ~ In n (map sequence sel) ->
    files !! frame_filename vf n = Some img ->
    saved_files vf sel files !! frame_filename vf n = Some img.
Proof.
  induction sel as [| s sel IH]; intros files Hfresh Hget; simpl;
    [exact Hget |].
  apply IH; [intros Hin; apply Hfresh; now right |].
  rewrite lookup_insert_ne; [exact Hget |].
  intros E. apply frame_filename_inj in E as [_ E].
  apply Hfresh. left. exact E.
Qed.

Lemma saved_files_lookup (vf : string) :
  forall (sel : list selected) (files : gmap string image) (s : selected),
    NoDup (map sequence sel) ->
    In s sel ->
    saved_files vf sel files !! frame_filename vf (sequence s)
    = Some (snd s).
Proof.
  induction sel as [| s0 sel IH]; intros files s Hnd Hin; [destruct Hin |].
  simpl in Hnd. apply NoDup_cons in Hnd as [Hhead Hnd]. simpl.
  destruct Hin as [-> | Hin].
  - apply saved_files_keeps; [| apply lookup_insert_eq].
    now rewrite <- list_elem_of_In.
  - now apply IH.
Qed.

Lemma sampled_sequences_NoDup (self : t) (v : video) (fps : option Q)
    (max_frames : option Z) :
  NoDup (map sequence (sampled self v fps max_frames)).
Proof.
  unfold sampled.
  rewrite (selection_counts max_frames _ _ (stream v) 0 0).
  apply NoDup_seq.
Qed.

Lemma extract_persists (self : t) (v : video) (fps : option Q)
    (max_frames : option Z) (w w1 : world) (frames : list FrameMetadata) :
  extract_frames_from_video self v fps max_frames w = (Ok frames, w1) ->
  Forall (persisted [v] (frames_dir w1)) frames.
Proof.
  intros Hrun.
  destruct (extract_returns _ _ _ _ _ _ _ Hrun) as (out & -> & Herase & _).
  apply Forall_forall. intros r Hr. apply list_elem_of_In in Hr.
  assert (Hin : In (erase r) (map erase frames)) by now apply in_map.
  rewrite Herase in Hin.
  apply plain_records_In in Hin as (s & j & Hs & Hr').
  assert (Hfields : filename r = frame_filename (name v) (sequence s)
                    /\ frame_number r = position s
                    /\ video_filename r = name v).
  { change (filename (erase r) = frame_filename (name v) (sequence s)
            /\ frame_number (erase r) = position s
            /\ video_filename (erase r) = name v).
    rewrite Hr'. repeat split. }
  destruct Hfields as (Hfile & Hpos & Hvideo).
  exists v, (sequence s), (snd s).
  split; [now left |]. split; [exact Hvideo |]. split; [exact Hfile |].
  split.
  - assert (Hfr := selection_frames max_frames
              (frame_interval (CAP_PROP_FPS v) (target_fps self fps))
              (frames_to_extract (CAP_PROP_FRAME_COUNT v) max_frames
                 (frame_interval (CAP_PROP_FPS v) (target_fps self fps)))
              (stream v) 0 0).
    rewrite Forall_forall in Hfr.
    destruct (Hfr s (proj2 (list_elem_of_In _ _) Hs)) as [_ Hget].
    rewrite Hpos. unfold position. now rewrite Nat.sub_0_r in Hget.
  - simpl. rewrite Hfile.
    apply saved_files_lookup; [apply sampled_sequences_NoDup | exact Hs].
Qed.

(** After a successful run, the file each record names holds the image of
    the frame the record describes. *)
Theorem extract_saves_each_frame (self : t) (v : video) (fps : option Q)
    (max_frames : option Z) (w w1 : world) (frames : list FrameMetadata) :
  extract_frames_from_video self v fps max_frames w = (Ok frames, w1) ->
  Forall (fun r =>
            exists img : image,
              stream v !! frame_number r = Some img
              /\ frames_dir w1 !! filename r = Some img)
         frames.
Proof.
  intros Hrun.
  destruct (extract_returns _ _ _ _ _ _ _ Hrun) as (out & -> & Herase & _).
  apply Forall_forall. intros r Hr. apply list_elem_of_In in Hr.
  assert (Hin : In (erase r) (map erase frames)) by now apply in_map.
  rewrite Herase in Hin.
  apply plain_records_In in Hin as (s & j & Hs & Hr').
  assert (Hfields : filename r = frame_filename (name v) (sequence s)
                    /\ frame_number r = position s).
  { change (filename (erase r) = frame_filename (name v) (sequence s)
            /\ frame_number (erase r) = position s).
    rewrite Hr'. split; reflexivity. }
  destruct Hfields as [Hfile Hpos].
  exists (snd s). split.
  - assert (Hfr := selection_frames max_frames
              (frame_interval (CAP_PROP_FPS v) (target_fps self fps))
              (frames_to_extract (CAP_PROP_FRAME_COUNT v) max_frames
                 (frame_interval (CAP_PROP_FPS v) (target_fps self fps)))
              (stream v) 0 0).
    rewrite Forall_forall in Hfr.
    destruct (Hfr s (proj2 (list_elem_of_In _ _) Hs)) as [_ Hget].
    rewrite Hpos. unfold position. now rewrite Nat.sub_0_r in Hget.
  - simpl. rewrite Hfile.
    apply saved_files_lookup; [apply sampled_sequences_NoDup | exact Hs].
Qed.

Lemma extract_saves_each_frame_witness :
  exists (frames : list FrameMetadata) (w1 : world),
    DemoMore.short_run = (Ok frames, w1)
    /\ map filename frames
       = ["short_frame_00000.jpg"; "short_frame_00001.jpg";
          "short_frame_00002.jpg"]
    /\ Forall (fun r =>
                 exists img : image,
                   [7; 8; 9]%nat !! frame_number r = Some img
                   /\ frames_dir w1 !! filename r = Some img)
              frames.
Proof.
  destruct DemoMore.short_run as [[frames | e] w1] eqn:Hrun;
    [| vm_compute in Hrun; discriminate].
  exists frames, w1. split; [reflexivity |]. split.
  - apply (f_equal (fun r => map filename (frames_of r))) in Hrun.
    vm_compute in Hrun. now symmetry.
  - exact (extract_saves_each_frame _ _ _ _ _ _ _ Hrun).
Defined.

Lemma extract_frame_rule (self : t) (v : video)
    (fps : option Q) (max_frames : option Z) (w : world) :
  let w1 := snd (extract_frames_from_video self v fps max_frames w) in
  metadata_json w1 = metadata_json w
  /\ chroma w1 = chroma w
  /\ entropy w1 = entropy w
  /\ (drawn w <= drawn w1)%nat
  /\ (forall path : string,
        foreign_to (name v) path ->
        frames_dir w1 !! path = frames_dir w !! path).
Proof.
  intros w1. subst w1.
  destruct (isOpened v) eqn:Ho.
  2:{ rewrite extract_unopenable by assumption. simpl. auto. }
  destruct (PyNum.is_zero (target_fps self fps)) eqn:Hfps.
  { unfold extract_frames_from_video. rewrite Ho, Hfps. simpl. auto. }
  destruct (PyNum.is_zero (CAP_PROP_FPS v)) eqn:Hv.
  { destruct (sampled self v fps max_frames) as [| s rest] eqn:Hs.
    - rewrite sampled_empty_returns by assumption. simpl. auto.
    - rewrite (extract_zero_fps _ _ _ _ _ s rest) by assumption. simpl.
      repeat split; [lia |]. intros path Hforeign.
      apply lookup_insert_ne. intros E. symmetry in E.
  exact (Hforeign _ E). }
  destruct (extract_ok self v fps max_frames w Ho Hfps Hv)
    as (frames & out & Hrun & _).
  rewrite Hrun. simpl. repeat split; [lia |].
  intros path Hforeign. now apply saved_files_foreign.
Qed.

(** Whatever its outcome, a run on one video never touches the metadata
    snapshot or the collections, never rewinds the id source, and leaves
    every file that is not one of that video's frame files as it was. *)
Theorem extract_touches_only_its_own_files (self : t) (v : video)
    (fps : option Q) (max_frames : option Z) (w : world) :
  let w1 := snd (extract_frames_from_video self v fps max_frames w) in
  metadata_json w1 = metadata_json w
  /\ chroma w1 = chroma w
  /\ entropy w1 = entropy w
  /\ (drawn w <= drawn w1)%nat
  /\ (forall path : string,
        foreign_to (name v) path ->
        frames_dir w1 !! path = frames_dir w !! path).
Proof. exact (extract_frame_rule self v fps max_frames w). Qed.


(** *** Captions *)

(** Without a captioning model no record has a description, and a run
    prints nothing. *)
Theorem no_model_no_captions (self : t) (v : video) (fps : option Q)
    (max_frames : option Z) (w w1 : world) (frames : list FrameMetadata) :
  clip_model self = None ->
  extract_frames_from_video self v fps max_frames w = (Ok frames, w1) ->
  Forall (fun r => description r = None) frames
  /\ stdout w1 = stdout w.
Proof.
  intros Hnone Hrun.
  destruct (extract_returns _ _ _ _ _ _ _ Hrun)
    as (out & -> & _ & Hplain & _).
  destruct (Hplain Hnone) as [-> ->]. simpl. rewrite app_nil_r.
  split; [| reflexivity].
  apply Forall_forall. intros r Hr. apply list_elem_of_In in Hr.
  apply plain_records_In in Hr as (s & j & _ & ->). reflexivity.
Qed.

Lemma no_model_no_captions_witness :
  exists (frames : list FrameMetadata) (w1 : world),
    DemoMore.short_run = (Ok frames, w1)
    /\ length frames = 3%nat
    /\ Forall (fun r => description r = None) frames
    /\ stdout w1 = [].
Proof.
  destruct DemoMore.short_run as [[frames | e] w1] eqn:Hrun;
    [| vm_compute in Hrun; discriminate].
  exists frames, w1. split; [reflexivity |]. split.
  - apply (f_equal (fun r => length (frames_of r))) in Hrun.
    vm_compute in Hrun. now symmetry.
  - exact (no_model_no_captions (Demo.extractor [Demo.short_mp4])
             Demo.short_mp4 None None Demo.world0 w1 frames eq_refl Hrun).
Defined.

Lemma pick_labels_spec (candidate_labels : list string) :
  forall (indices : list nat) (labels : list string),
    pick_labels candidate_labels indices = Ok labels ->
    Forall2 (fun i l => candidate_labels !! i = Some l) indices labels.
Proof.
  induction indices as [| idx indices IH]; intros labels; simpl.
  - intros [= <-]. constructor.
  - destruct (candidate_labels !! idx) as [label |] eqn:Hl; [| discriminate].
    destruct (pick_labels candidate_labels indices) as [ls | e];
      [| discriminate].
    intros [= <-]. constructor; [exact Hl | now apply IH].
Qed.

Lemma generated_caption (self : t) (model : clip) (path : string)
    (w w1 : world) (d : string) :
  clip_model self = Some model ->
  _generate_frame_description self model path w = (Ok (Some d), w1) ->
  exists img : image,
    frames_dir w !! path = Some img /\ caption_of self img d.
Proof.
  intros Hclip.
  unfold _generate_frame_description, try_except, describe, bind,
    read_frames_dir, print, ret, raise. simpl.
  destruct (frames_dir w !! path) as [img |] eqn:Hfile; simpl;
    [| discriminate].
  destruct (topk model (_get_candidate_labels self) img) as [idx | e] eqn:Hk;
    simpl; [| discriminate].
  destruct (pick_labels (_get_candidate_labels self) idx) as [ls | e] eqn:Hp;
    simpl; [| discriminate].
  intros [= <- _]. exists img. split; [reflexivity |].
  exists model, idx, ls. repeat split; try assumption.
  now apply pick_labels_spec.
Qed.

Lemma save_frame_caption (self : t) (vf : string) (vfps : Q) (frame : image)
    (fc pc : nat) (w w1 : world) (r : FrameMetadata) :
  save_frame self vf vfps frame fc pc w = (Ok r, w1) ->
  frame_number r = fc
  /\ (forall d : string,
        description r = Some d -> d <> "" /\ caption_of self frame d).
Proof.
  unfold save_frame, bind, uuid4, imwrite, ret, raise. simpl.
  destruct (PyNum.is_zero vfps); simpl; [discriminate |].
  destruct (clip_model self) as [model |] eqn:Hclip.
  2:{ intros [= <- _]. split; [reflexivity | discriminate]. }
  match goal with
  | |- context [_generate_frame_description self model ?p ?w0] =>
      destruct (_generate_frame_description self model p w0)
        as [[[d |] | e] w2] eqn:Hgen
  end; simpl; try discriminate.
  - destruct (PyStr.truthy d) eqn:Ht.
    + intros [= <- _]. split; [reflexivity |]. intros d' [= <-].
      split.
      * intros ->. discriminate.
      * destruct (generated_caption _ _ _ _ _ _ Hclip Hgen)
          as (img & Himg & Hcap).
        simpl in Himg. rewrite lookup_insert_eq in Himg.
        now injection Himg as <-.
    + intros [= <- _]. split; [reflexivity | discriminate].
  - intros [= <- _]. split; [reflexivity | discriminate].
Qed.

Lemma save_all_captions (self : t) (vf : string) (vfps : Q) :
  forall (sel : list selected) (acc res : list FrameMetadata) (w w1 : world),
    save_all self vf vfps sel acc w = (Ok res, w1) ->
    exists new : list FrameMetadata,
      res = (acc ++ new)%list
      /\ Forall2 (fun (s : selected) (r : FrameMetadata) =>
                    frame_number r = position s
                    /\ (forall d : string,
                          description r = Some d ->
                          d <> "" /\ caption_of self (snd s) d))
                 sel new.
Proof.
  induction sel as [| [[fc pc] frame] sel IH]; intros acc res w w1; simpl.
  - intros [= <- _]. exists []. rewrite app_nil_r. split; constructor.
  - unfold bind.
    destruct (save_frame self vf vfps frame fc pc w) as [[r | e] w2] eqn:Hs;
      [| discriminate].
    intros Hrest. destruct (IH _ _ _ _ Hrest) as (new & -> & Hall).
    exists (r :: new). split; [now rewrite <- app_assoc |].
    constructor; [| exact Hall].
    exact (save_frame_caption _ _ _ _ _ _ _ _ _ Hs).
Qed.

(** A description, when a record has one, is never empty: it is the
    candidate labels at the indices the model ranked first for that
    record's frame, joined by [", "]. *)
Theorem captions_are_joined_top_labels (self : t) (v : video)
    (fps : option Q) (max_frames : option Z) (w w1 : world)
    (frames : list FrameMetadata) :
  extract_frames_from_video self v fps max_frames w = (Ok frames, w1) ->
  forall (r : FrameMetadata) (d : string),
    In r frames ->
    description r = Some d ->
    d <> ""
    /\ exists img : image,
         stream v !! frame_number r = Some img /\ caption_of self img d.
Proof.
  intros Hrun r d Hr Hd.
  destruct (isOpened v) eqn:Ho.
  2:{ rewrite extract_unopenable in Hrun by assumption. discriminate. }
  destruct (PyNum.is_zero (target_fps self fps)) eqn:Hfps.
  { unfold extract_frames_from_video in Hrun. rewrite Ho, Hfps in Hrun.
    discriminate. }
  rewrite extract_as_save_all in Hrun by assumption.
  apply save_all_captions in Hrun as (new & -> & Hall). simpl in Hr.
  assert (Hfr := selection_frames max_frames
            (frame_interval (CAP_PROP_FPS v) (target_fps self fps))
            (frames_to_extract (CAP_PROP_FRAME_COUNT v) max_frames
               (frame_interval (CAP_PROP_FPS v) (target_fps self fps)))
            (stream v) 0 0).
  fold (sampled self v fps max_frames) in Hfr.
  revert Hfr Hr. induction Hall as [| s r' sel new [Hnum Hcap] _ IH];
    intros Hfr Hr; [destruct Hr |].
  apply Forall_cons in Hfr as [[_ Hget] Hfr].
  destruct Hr as [-> | Hr]; [| now apply IH].
  destruct (Hcap d Hd) as [Hne Hc]. split; [exact Hne |].
  exists (snd s). split; [| exact Hc].
  rewrite Hnum. unfold position. now rewrite Nat.sub_0_r in Hget.
Qed.

Lemma captions_are_joined_top_labels_witness :
  exists (frames : list FrameMetadata) (w1 : world),
    DemoMore.labelled_run = (Ok frames, w1)
    /\ map description frames
       = [Some "Ember holding phone, Ember using phone";
          Some "Ember holding phone, Ember using phone";
          Some "Ember holding phone, Ember using phone"]
    /\ Forall (fun r =>
                 exists d : string,
                   description r = Some d /\ d <> ""
                   /\ exists img : image,
                        [7; 8; 9]%nat !! frame_number r = Some img
                        /\ caption_of
                             (DemoMore.labelling_extractor [Demo.short_mp4])
                             img d)
              frames.
Proof.
  destruct DemoMore.labelled_run as [[frames | e] w1] eqn:Hrun;
    [| vm_compute in Hrun; discriminate].
  exists frames, w1. split; [reflexivity |].
  assert (Hdesc : map description frames
                  = [Some "Ember holding phone, Ember using phone";
                     Some "Ember holding phone, Ember using phone";
                     Some "Ember holding phone, Ember using phone"]).
  { apply (f_equal (fun r => map description (frames_of r))) in Hrun.
    vm_compute in Hrun. now symmetry. }
  split; [exact Hdesc |].
  apply Forall_forall. intros r Hr. apply list_elem_of_In in Hr.
  assert (Hd : In (description r) (map description frames))
    by now apply in_map.
  rewrite Hdesc in Hd.
  exists "Ember holding phone, Ember using phone".
  assert (Hsome : description r
                  = Some "Ember holding phone, Ember using phone").
  { simpl in Hd. destruct Hd as [Hd | [Hd | [Hd | []]]]; now symmetry. }
  split; [exact Hsome |].
  exact (captions_are_joined_top_labels _ _ _ _ _ _ _ Hrun r _ Hr Hsome).
Defined.

(** *** The video files *)

Lemma endswith_same_length (s a b : string) :
  PyStr.endswith s a = true -> PyStr.endswith s b = true ->
  String.length a = String.length b -> a = b.
Proof.
  unfold PyStr.endswith. intros Ha Hb Hlen.
  apply andb_prop in Ha as [_ Ha]. apply andb_prop in Hb as [_ Hb].
  apply String.eqb_eq in Ha, Hb. rewrite <- Hlen in Hb. congruence.
Qed.

Lemma glob_names_NoDup (dir : list video) (ext : string) :
  NoDup (map name dir) -> NoDup (map name (glob dir ext)).
Proof.
  unfold glob. induction dir as [| v dir IH]; simpl; [constructor |].
  intros Hnd. apply NoDup_cons in Hnd as [Hhead Hnd].
  destruct (PyStr.endswith (name v) ext); simpl; [| now apply IH].
  apply NoDup_cons. split; [| now apply IH].
  intros Hin. apply Hhead. apply list_elem_of_In in Hin.
  apply list_elem_of_In.
  apply in_map_iff in Hin as (u & Hu & Hin). apply filter_In in Hin as [Hin _].
  rewrite <- Hu. now apply in_map.
Qed.

Lemma glob_In (dir : list video) (ext : string) (v : video) :
  In v (glob dir ext) <-> In v dir /\ PyStr.endswith (name v) ext = true.
Proof. unfold glob. apply filter_In. Qed.

Lemma globs_names_NoDup (dir : list video) (n : nat) :
  NoDup (map name dir) ->
  forall exts : list string,
    Forall (fun ext => String.length ext = n) exts ->
    NoDup exts ->
    NoDup (map name (flat_map (glob dir) exts)).
Proof.
  intros Hdir. induction exts as [| ext exts IH]; intros Hlen Hnd; simpl;
    [constructor |].
  apply Forall_cons in Hlen as [Hext Hlen].
  apply NoDup_cons in Hnd as [Hfresh Hnd].
  rewrite map_app. apply NoDup_app.
  split; [now apply glob_names_NoDup |]. split; [| now apply IH].
  intros x Hx Hx'. apply list_elem_of_In in Hx, Hx'.
  apply in_map_iff in Hx as (u & <- & Hu).
  apply in_map_iff in Hx' as (u' & Hn & Hu').
  apply glob_In in Hu as [_ Hu].
  apply in_flat_map in Hu' as (ext' & Hin & Hu').
  apply glob_In in Hu' as [_ Hu']. rewrite Hn in Hu'.
  apply Hfresh. apply list_elem_of_In.
  rewrite Forall_forall in Hlen.
  assert (Hl : String.length ext' = n)
    by (apply Hlen; now apply list_elem_of_In).
  rewrite (endswith_same_length (name u) ext ext'); congruence.
Qed.

(** [process_all_videos] works on exactly the files of the videos
    directory whose name ends in [.mp4], [.avi], [.mov] or [.mkv]
    (lower case), and on each of them once. *)
Theorem video_files_are_the_videos_once (self : t) :
  NoDup (map name (videos_dir self)) ->
  NoDup (map name (video_files self))
  /\ (forall v : video,
        In v (video_files self)
        <-> In v (videos_dir self) /\ has_video_extension (name v) = true).
Proof.
  intros Hnd. unfold video_files, has_video_extension, video_extensions.
  split.
  - apply (globs_names_NoDup _ 4); [exact Hnd | |].
    + repeat constructor.
    + apply (bool_decide_unpack _). vm_compute. exact I.
  - intros v. simpl. rewrite !in_app_iff, !glob_In, !orb_true_iff. simpl.
    intuition discriminate.
Qed.

Lemma video_files_are_the_videos_once_witness :
  map name (video_files
              (Demo.extractor [Demo.clip_avi; Demo.short_mp4; Demo.clip_mp4]))
  = ["short.mp4"; "clip.mp4"; "clip.avi"]
  /\ NoDup (map name
              (video_files
                 (Demo.extractor
                    [Demo.clip_avi; Demo.short_mp4; Demo.clip_mp4]))).
Proof.
  split; [vm_compute; reflexivity |].
  apply (video_files_are_the_videos_once
           (Demo.extractor [Demo.clip_avi; Demo.short_mp4; Demo.clip_mp4])).
  apply (bool_decide_unpack _). vm_compute. exact I.
Defined.

End ExtractionFacts.

(** ** The batch and the script *)

Module BatchFacts.
Import FrameExtractor ExtractorSpec ExtractionSpec IndexingSpec BatchSpec.

(** *** The dictionary *)

Lemma dict_set_keys_In (d : dict) (k : string) (r : FrameMetadata) :
  forall x : string,
    In x (map fst (dict_set d k r)) -> In x (map fst d) \/ x = k.
Proof.
  induction d as [| [k' r'] d IH]; intros x; simpl.
  - intros [<- | []]. now right.
  - destruct (String.eqb k' k); simpl.
    + intros [<- | H]; auto.
    + intros [<- | H]; [auto |]. destruct (IH x H); auto.
Qed.

Lemma dict_set_keys_NoDup (d : dict) (k : string) (r : FrameMetadata) :
  NoDup (map fst d) -> NoDup (map fst (dict_set d k r)).
Proof.
  induction d as [| [k' r'] d IH]; simpl; intros Hnd.
  - constructor; [intros H; inversion H | constructor].
  - apply NoDup_cons in Hnd as [Hhead Hnd].
    destruct (String.eqb_spec k' k) as [-> | Hne]; simpl.
    + apply NoDup_cons. split; assumption.
    + apply NoDup_cons. split; [| now apply IH].
      rewrite list_elem_of_In. intros Hin.
      destruct (dict_set_keys_In _ _ _ _ Hin) as [Hold | ->].
      * apply Hhead. now apply list_elem_of_In.
      * now apply Hne.
Qed.

Lemma dict_set_keyed (d : dict) (k : string) (r : FrameMetadata) :
  keyed_by_id d -> id r = k -> keyed_by_id (dict_set d k r).
Proof.
  unfold keyed_by_id. intros Hd Hr.
  induction d as [| [k' r'] d IH]; simpl.
  - repeat constructor. exact Hr.
  - apply Forall_cons in Hd as [Hhead Hd].
    destruct (String.eqb_spec k' k) as [-> | Hne].
    + constructor; [exact Hr | exact Hd].
    + constructor; [exact Hhead | now apply IH].
Qed.

Lemma dict_set_fresh (d : dict) (k : string) (r : FrameMetadata) :
  ~ In k (map fst d) -> dict_set d k r = (d ++ [(k, r)])%list.
Proof.
  induction d as [| [k' r'] d IH]; simpl; intros Hfresh; [reflexivity |].
  destruct (String.eqb_spec k' k) as [-> | Hne]; [tauto |].
  rewrite IH; [reflexivity | tauto].
Qed.

Lemma dict_get_In (d : dict) (k : string) :
  In k (map fst d) -> is_Some (dict_get d k).
Proof.
  induction d as [| [k' r'] d IH]; simpl; [tauto |].
  destruct (String.eqb_spec k' k) as [-> | Hne]; [eauto |].
  intros [E | Hin]; [congruence | now apply IH].
Qed.

Lemma dict_get_item (d : dict) (k : string) (r : FrameMetadata) :
  NoDup (map fst d) -> In (k, r) d -> dict_get d k = Some r.
Proof.
  induction d as [| [k' r'] d IH]; simpl; intros Hnd Hin; [tauto |].
  apply NoDup_cons in Hnd as [Hhead Hnd].
  destruct Hin as [[= -> ->] | Hin].
  - now rewrite String.eqb_refl.
  - destruct (String.eqb_spec k' k) as [-> | Hne]; [| now apply IH].
    exfalso. apply Hhead. apply list_elem_of_In.
    change k with (fst (k, r)). now apply in_map.
Qed.

Lemma add_metadata_invariant (frames : list FrameMetadata) :
  forall md : dict,
    NoDup (map fst md) -> keyed_by_id md ->
    NoDup (map fst (add_metadata md frames))
    /\ keyed_by_id (add_metadata md frames).
Proof.
  unfold add_metadata.
  induction frames as [| r frames IH]; intros md Hnd Hkeyed; simpl;
    [auto |].
  apply IH; [now apply dict_set_keys_NoDup | now apply dict_set_keyed].
Qed.

Lemma add_metadata_fresh (frames : list FrameMetadata) :
  forall md : dict,
    NoDup (map fst md ++ map id frames) ->
    add_metadata md frames = (md ++ map (fun r => (id r, r)) frames)%list.
Proof.
  unfold add_metadata.
  induction frames as [| r frames IH]; intros md Hnd; simpl;
    [now rewrite app_nil_r |].
  apply NoDup_app in Hnd as (Hmd & Hdisj & Hfr).
  apply NoDup_cons in Hfr as [Hr Hfr].
  rewrite dict_set_fresh.
  2:{ intros Hin. apply (Hdisj (id r)); [now apply list_elem_of_In | left]. }
  rewrite IH; [now rewrite <- app_assoc |].
  rewrite map_app. simpl. rewrite <- app_assoc. simpl.
  apply NoDup_app. split; [exact Hmd |]. split.
  - intros x Hx Hx'. apply elem_of_cons in Hx' as [-> | Hx'].
    + apply (Hdisj (id r)); [exact Hx | left].
    + apply (Hdisj x); [exact Hx | now right].
  - apply NoDup_cons. split; assumption.
Qed.

(** *** The loop over the videos *)

Lemma process_videos_frame (self : t) :
  forall (files : list video) (md : dict) (w : world),
    let w1 := snd (process_videos self files md w) in
    metadata_json w1 = metadata_json w
    /\ chroma w1 = chroma w
    /\ entropy w1 = entropy w
    /\ (drawn w <= drawn w1)%nat.
Proof.
  induction files as [| v files IH]; intros md w; simpl; [auto |].
  unfold bind. simpl.
  match goal with
  | |- context [extract_frames_from_video self v None None ?w0] =>
      destruct (ExtractionFacts.extract_frame_rule self v None None w0)
        as (Hm & Hc & He & Hd & _);
      destruct (extract_frames_from_video self v None None w0)
        as [[frames | e] w2]
  end; simpl in *.
  - destruct (IH (add_metadata md frames) w2) as (Hm' & Hc' & He' & Hd').
    repeat split; try congruence. lia.
  - auto.
Qed.

Lemma process_videos_invariant (self : t) :
  forall (files : list video) (md md1 : dict) (w w1 : world),
    process_videos self files md w = (Ok md1, w1) ->
    NoDup (map fst md) -> keyed_by_id md ->
    NoDup (map fst md1) /\ keyed_by_id md1.
Proof.
  induction files as [| v files IH]; intros md md1 w w1; simpl.
  - intros [= <- _]. auto.
  - unfold bind. simpl.
    destruct (extract_frames_from_video self v None None _)
      as [[frames | e] w2]; [| discriminate].
    intros Hrest Hnd Hkeyed.
    destruct (add_metadata_invariant frames md Hnd Hkeyed).
    now apply (IH _ _ _ _ Hrest).
Qed.

Lemma seq_split (a n m : nat) :
  (n <= m)%nat -> seq a m = (seq a n ++ seq (a + n) (m - n))%list.
Proof.
  intros H. replace m with (n + (m - n))%nat at 1 by lia. apply seq_app.
Qed.

Lemma process_videos_ids (self : t) :
  forall (files : list video) (md md1 : dict) (w w1 : world) (d0 : nat),
    process_videos self files md w = (Ok md1, w1) ->
    (d0 <= drawn w)%nat ->
    map fst md = map (entropy w) (seq d0 (drawn w - d0)) ->
    NoDup (map (entropy w) (seq d0 (drawn w1 - d0))) ->
    map fst md1 = map (entropy w) (seq d0 (drawn w1 - d0)).
Proof.
  induction files as [| v files IH]; intros md md1 w w1 d0; simpl.
  - intros [= <- <-]. auto.
  - unfold bind. simpl.
    match goal with
    | |- context [extract_frames_from_video self v None None ?w0] =>
        destruct (extract_frames_from_video self v None None w0)
          as [[frames | e] w2] eqn:Hrun
    end; [| discriminate].
    intros Hrest Hle Hkeys Hnd.
    destruct (ExtractionFacts.extract_ids _ _ _ _ _ _ _ Hrun)
      as (Hids & Hdrawn & Hent).
    simpl in Hids, Hdrawn, Hent.
    destruct (process_videos_frame self files (add_metadata md frames) w2)
      as (_ & _ & _ & Hmono).
    rewrite Hrest in Hmono. simpl in Hmono.
    assert (Hto : map (entropy w) (seq d0 (drawn w2 - d0))
                  = (map fst md ++ map id frames)%list).
    { rewrite (seq_split d0 (drawn w - d0) (drawn w2 - d0)) by lia.
      rewrite map_app, Hkeys, Hids. do 3 f_equal; lia. }
    rewrite <- Hent.
    apply (IH _ _ _ _ _ Hrest); [lia | | now rewrite Hent].
    rewrite Hent, Hto.
    rewrite add_metadata_fresh.
    + rewrite map_app, map_map. simpl. reflexivity.
    + rewrite <- Hto.
      rewrite (seq_split d0 (drawn w2 - d0) (drawn w1 - d0)) in Hnd by lia.
      rewrite map_app in Hnd. now apply NoDup_app in Hnd as (Hnd & _).
Qed.

Lemma batch_outcome (self : t) (w : world) :
  let r := process_all_videos self w in
  chroma (snd r) = chroma w
  /\ entropy (snd r) = entropy w
  /\ (drawn w <= drawn (snd r))%nat
  /\ metadata_json (snd r)
     = match fst r with
       | Ok md => Some md
       | Raise _ => metadata_json w
       end.
Proof.
  destruct (video_files self) as [| v files] eqn:Hfiles.
  { unfold process_all_videos. rewrite Hfiles. simpl. auto. }
  rewrite ExtractorFacts.process_all_videos_nonempty by congruence.
  destruct (process_videos_frame self (video_files self) []
              (snd (print (found_line self) w)))
    as (Hm & Hc & He & Hd).
  destruct (process_videos self (video_files self) [] _) as [[md | e] w2];
    simpl in *; auto.
Qed.

Lemma batch_returns (self : t) (w w1 : world) (md : dict) :
  process_all_videos self w = (Ok md, w1) ->
  exists w0 w2 : world,
    process_videos self (video_files self) [] w0 = (Ok md, w2)
    /\ drawn w0 = drawn w /\ entropy w0 = entropy w
    /\ drawn w1 = drawn w2.
Proof.
  destruct (video_files self) as [| v files] eqn:Hfiles.
  { unfold process_all_videos. rewrite Hfiles. discriminate. }
  rewrite ExtractorFacts.process_all_videos_nonempty by congruence.
  rewrite Hfiles.
  destruct (process_videos self (v :: files) [] _) as [[md' | e] w2] eqn:Hrun;
    [| discriminate].
  unfold bind, json_dump, print, ret. simpl. intros [= <- <-].
  eexists _, w2. split; [exact Hrun |]. simpl. auto.
Qed.

(** The snapshot a successful batch writes is the dictionary it returns;
    its keys are pairwise distinct, every record sits under its own id,
    and looking an item's key up gives that item's record. *)
Theorem snapshot_is_keyed_by_id (self : t) (w w1 : world) (md : dict) :
  process_all_videos self w = (Ok md, w1) ->
  metadata_json w1 = Some md
  /\ NoDup (map fst md)
  /\ (forall (k : string) (r : FrameMetadata),
        In (k, r) md -> id r = k /\ dict_get md k = Some r).
Proof.
  intros Hrun.
  destruct (batch_outcome self w) as (_ & _ & _ & Hm).
  rewrite Hrun in Hm. simpl in Hm. split; [exact Hm |].
  destruct (batch_returns _ _ _ _ Hrun) as (w0 & w2 & Hloop & _).
  destruct (process_videos_invariant _ _ _ _ _ _ Hloop)
    as [Hnd Hkeyed]; [constructor | constructor |].
  split; [exact Hnd |]. intros k r Hin. split.
  - unfold keyed_by_id in Hkeyed. rewrite Forall_forall in Hkeyed.
    exact (Hkeyed (k, r) (proj2 (list_elem_of_In _ _) Hin)).
  - now apply dict_get_item.
Qed.

Lemma snapshot_is_keyed_by_id_witness :
  exists (md : dict) (w1 : world),
    process_all_videos (Demo.extractor [Demo.short_mp4]) Demo.world0
    = (Ok md, w1)
    /\ metadata_json w1 = Some md
    /\ NoDup (map fst md).
Proof.
  destruct (process_all_videos (Demo.extractor [Demo.short_mp4]) Demo.world0)
    as [[md | e] w1] eqn:Hrun; [| vm_compute in Hrun; discriminate].
  exists md, w1. split; [reflexivity |].
  destruct (snapshot_is_keyed_by_id _ _ _ _ Hrun) as (Hm & Hnd & _).
  split; assumption.
Defined.

(** When the ids drawn during a successful batch are pairwise distinct, no
    record replaces another: the keys of the returned dictionary are
    exactly the ids drawn, in the order drawn, one per saved frame. *)
Theorem batch_records_every_frame (self : t) (w w1 : world) (md : dict) :
  NoDup (ids_drawn w w1) ->
  process_all_videos self w = (Ok md, w1) ->
  map fst md = ids_drawn w w1
  /\ length md = (drawn w1 - drawn w)%nat.
Proof.
  unfold ids_drawn. intros Hnd Hrun.
  destruct (batch_returns _ _ _ _ Hrun) as (w0 & w2 & Hloop & Hd & He & Hd').
  assert (Hkeys : map fst md = map (entropy w) (seq (drawn w)
                                                    (drawn w1 - drawn w))).
  { rewrite <- He, <- Hd, Hd'.
    apply (process_videos_ids self _ _ _ _ _ _ Hloop); [lia | |].
    - now rewrite Nat.sub_diag.
    - now rewrite He, Hd, <- Hd'. }
  split; [exact Hkeys |].
  apply (f_equal (@length _)) in Hkeys.
  now rewrite !length_map, length_seq in Hkeys.
Qed.

Lemma batch_records_every_frame_witness :
  exists (md : dict) (w1 : world),
    process_all_videos (Demo.extractor [Demo.clip_mp4; Demo.short_mp4])
                       Demo.world0 = (Ok md, w1)
    /\ map fst md
       = ["uuid-0"; "uuid-1"; "uuid-2"; "uuid-3"; "uuid-4"; "uuid-5";
          "uuid-6"].
Proof.
  destruct (process_all_videos
              (Demo.extractor [Demo.clip_mp4; Demo.short_mp4]) Demo.world0)
    as [[md | e] w1] eqn:Hrun; [| vm_compute in Hrun; discriminate].
  exists md, w1. split; [reflexivity |].
  assert (Hdrawn : drawn w1 = 7%nat).
  { apply (f_equal (fun r => drawn (snd r))) in Hrun.
    vm_compute in Hrun. now symmetry. }
  assert (Hnd : NoDup (ids_drawn Demo.world0 w1)).
  { unfold ids_drawn. rewrite Hdrawn.
    apply (bool_decide_unpack _). vm_compute. exact I. }
  destruct (batch_records_every_frame _ _ _ _ Hnd Hrun) as [Hkeys _].
  rewrite Hkeys. unfold ids_drawn. rewrite Hdrawn. vm_compute. reflexivity.
Defined.

End BatchFacts.

(** ** Frame files across a batch *)

Module FilenameFacts.
Import FrameExtractor ExtractorSpec ExtractionSpec.

Lemma persisted_more (done extra : list video) (files : gmap string image)
    (r : FrameMetadata) :
  persisted done files r -> persisted (done ++ extra) files r.
Proof.
  intros (v & pc & img & Hv & Hrest). exists v, pc, img.
  split; [apply in_or_app; now left | exact Hrest].
Qed.

Lemma persisted_new (done : list video) (v : video)
    (files : gmap string image) (r : FrameMetadata) :
  persisted [v] files r -> persisted (done ++ [v]) files r.
Proof.
  intros (u & pc & img & [<- | []] & Hrest). exists v, pc, img.
  split; [apply in_or_app; right; now left | exact Hrest].
Qed.

(** A file named after a video of another stem is none of the files a run
    on [v] writes. *)
Lemma other_stem_foreign (u v : video) (pc : nat) :
  stem u <> stem v ->
  foreign_to (name v) (frame_filename (name u) pc).
Proof.
  intros Hne k E. apply ExtractorFacts.frame_filename_inj in E as [E _].
  now apply Hne.
Qed.

Lemma process_videos_persists (self : t) :
  forall (files done : list video) (md md1 : dict) (w w1 : world),
    NoDup (map stem (done ++ files)) ->
    Forall (persisted done (frames_dir w)) (dict_values md) ->
    process_videos self files md w = (Ok md1, w1) ->
    Forall (persisted (done ++ files) (frames_dir w1)) (dict_values md1).
Proof.
  induction files as [| v files IH]; intros done md md1 w w1 Hstems Hold.
  - simpl. intros [= <- <-]. now rewrite app_nil_r.
  - simpl. unfold bind. simpl.
    match goal with
    | |- context [extract_frames_from_video self v None None ?w0] =>
        destruct (ExtractionFacts.extract_frame_rule self v None None w0)
          as (_ & _ & _ & _ & Hkeep);
        destruct (extract_frames_from_video self v None None w0)
          as [[frames | e] w2] eqn:Hrun
    end; [| discriminate].
    simpl in Hkeep. intros Hrest.
    assert (Hnew := ExtractionFacts.extract_persists _ _ _ _ _ _ _ Hrun).
    assert (Hv : forall u : video, In u done -> stem u <> stem v).
    { intros u Hu E. rewrite map_app in Hstems.
      apply NoDup_app in Hstems as (_ & Hd & _).
      apply (Hd (stem u)).
      - apply list_elem_of_In. now apply in_map.
      - rewrite E. left. }
    replace (done ++ v :: files)%list with ((done ++ [v]) ++ files)%list
      by now rewrite <- app_assoc.
    apply (IH (done ++ [v])%list (add_metadata md frames) md1 w2 w1);
      [now rewrite <- app_assoc | | exact Hrest].
    apply Forall_forall. intros r Hr. apply list_elem_of_In in Hr.
    apply ExtractorFacts.add_metadata_values in Hr as [Hr | Hr].
    + rewrite Forall_forall in Hold.
      destruct (Hold r (proj2 (list_elem_of_In _ _) Hr))
        as (u & pc & img & Hu & Hvideo & Hfile & Hframe & Hheld).
      exists u, pc, img.
      split; [apply in_or_app; now left |].
      split; [exact Hvideo |]. split; [exact Hfile |].
      split; [exact Hframe |].
      rewrite Hkeep; [exact Hheld |].
      rewrite Hfile. apply other_stem_foreign. now apply Hv.
    + rewrite Forall_forall in Hnew.
      apply persisted_new.
      exact (Hnew r (proj2 (list_elem_of_In _ _) Hr)).
Qed.

Lemma batch_files (self : t) (w w1 : world) (md : dict) :
  process_all_videos self w = (Ok md, w1) ->
  exists w0 w2 : world,
    process_videos self (video_files self) [] w0 = (Ok md, w2)
    /\ frames_dir w1 = frames_dir w2.
Proof.
  destruct (video_files self) as [| v files] eqn:Hfiles.
  { unfold process_all_videos. rewrite Hfiles. discriminate. }
  rewrite ExtractorFacts.process_all_videos_nonempty by congruence.
  rewrite Hfiles.
  destruct (process_videos self (v :: files) [] _) as [[md' | e] w2] eqn:Hrun;
    [| discriminate].
  unfold bind, json_dump, print, ret. simpl. intros [= <- <-].
  eexists _, w2. split; [exact Hrun | reflexivity].
Qed.

(** C6, as the code has it: when the videos of a batch have pairwise
    distinct filename stems, the records of the batch have pairwise distinct
    frame filenames, and every file is stable once written: at the end of
    the batch the file of each record, named
    [<video_stem>_frame_<sequence>.jpg] after the record's own video, still
    holds the image of the frame the record describes. *)
Theorem filenames_distinct_and_stable (self : t) (w w1 : world) (md : dict) :
  NoDup (map stem (video_files self)) ->
  process_all_videos self w = (Ok md, w1) ->
  NoDup (map filename (dict_values md))
  /\ Forall (persisted (video_files self) (frames_dir w1)) (dict_values md).
Proof.
  intros Hstems Hrun.
  destruct (batch_files _ _ _ _ Hrun) as (w0 & w2 & Hloop & Hfiles).
  split.
  - eapply (ExtractorFacts.process_videos_filenames self (video_files self)
              [] [] md);
      [exact Hstems | constructor | intros r [] | exact Hloop].
  - rewrite Hfiles.
    exact (process_videos_persists self (video_files self) [] [] md w0 w2
             Hstems (List.Forall_nil _) Hloop).
Qed.

Lemma filenames_distinct_and_stable_witness :
  exists (md : dict) (w1 : world),
    process_all_videos (Demo.extractor [Demo.clip_mp4; Demo.short_mp4])
                       Demo.world0 = (Ok md, w1)
    /\ length md = 7%nat
    /\ NoDup (map filename (dict_values md))
    /\ Forall (persisted [Demo.clip_mp4; Demo.short_mp4] (frames_dir w1))
              (dict_values md).
Proof.
  destruct (process_all_videos (Demo.extractor [Demo.clip_mp4; Demo.short_mp4])
                               Demo.world0) as [[md | e] w1] eqn:Hrun.
  - exists md, w1. split; [reflexivity |]. split.
    + apply (f_equal (fun r => match fst r with
                               | Ok m => length m
                               | Raise _ => 0%nat
                               end)) in Hrun.
      vm_compute in Hrun. now symmetry.
    + apply (filenames_distinct_and_stable
               (Demo.extractor [Demo.clip_mp4; Demo.short_mp4]) Demo.world0 w1);
        [| exact Hrun].
      vm_compute. apply (bool_decide_unpack _). vm_compute. exact I.
  - vm_compute in Hrun. discriminate.
Defined.

End FilenameFacts.

(** ** The script and the service built afterwards *)

Module ScriptFacts.
Import Indexer IndexingSpec BatchSpec RetrievalSpec.

Lemma init_returns (cfg : Settings) (rt : Startup.Runtime) (dir : list video)
    (ember_only : bool) (w : world) :
  exists (self : FrameExtractor.t) (out : list string),
    Startup.FrameExtractor_init cfg rt dir ember_only w
    = (Ok self,
       World (entropy w) (drawn w) (frames_dir w) (metadata_json w)
             (chroma w) (stdout w ++ out))
    /\ FrameExtractor.settings self = cfg
    /\ FrameExtractor.videos_dir self = dir.
Proof.
  unfold Startup.FrameExtractor_init.
  destruct (Startup.CLIP_AVAILABLE rt && Startup.USE_CLIP_CAPTIONING rt).
  - destruct (Startup.clip_load rt) as [model | e];
      unfold bind, print, ret; simpl; eexists _, [_]; repeat split.
  - unfold ret. eexists _, []. rewrite app_nil_r. destruct w. repeat split.
Qed.

Lemma main_extracting (cfg : Settings) (rt : Startup.Runtime)
    (engine : list entry -> string -> nat -> result Hits)
    (dir : list video) (args : Args) (w : world) :
  skip_extraction args = false ->
  exists (self : FrameExtractor.t) (w0 : world),
    FrameExtractor.settings self = cfg
    /\ FrameExtractor.videos_dir self = dir
    /\ metadata_json w0 = metadata_json w
    /\ chroma w0 = chroma w
    /\ frames_dir w0 = frames_dir w
    /\ Script.main cfg rt engine dir args w
       = match FrameExtractor.process_all_videos self w0 with
         | (Ok metadata, w1) => index_frames cfg engine metadata args w1
         | (Raise e, w1) => (Raise e, w1)
         end.
Proof.
  intros Hskip. unfold Script.main, Script.process_videos. rewrite Hskip.
  simpl. unfold bind at 1. unfold print at 1. simpl.
  unfold bind at 1. unfold bind at 1.
  match goal with
  | |- context [Startup.FrameExtractor_init cfg rt dir false ?w0] =>
      destruct (init_returns cfg rt dir false w0)
        as (self & out & Hinit & Hcfg & Hdir)
  end.
  simpl in Hinit. rewrite Hinit.
  exists self,
    (World (entropy w) (drawn w) (frames_dir w) (metadata_json w) (chroma w)
           ((stdout w ++ ["Extracting frames from videos..."]) ++ out)).
  repeat split; assumption.
Qed.

(** When extraction fails, the script fails with the same error and
    nothing of the failed run is indexed or recorded: the collections and
    the metadata snapshot are as they were before the script started. *)
Theorem extraction_failure_indexes_nothing (cfg : Settings)
    (rt : Startup.Runtime)
    (engine : list entry -> string -> nat -> result Hits)
    (dir : list video) (args : Args) (w w1 : world) (e : exn) :
  skip_extraction args = false ->
  Script.process_videos cfg rt dir
    (snd (print "Extracting frames from videos..." w)) = (Raise e, w1) ->
  Script.main cfg rt engine dir args w = (Raise e, w1)
  /\ chroma w1 = chroma w
  /\ metadata_json w1 = metadata_json w.
Proof.
  intros Hskip Hrun. split.
  - unfold Script.main. rewrite Hskip. cbn [negb].
    unfold bind at 1. unfold print at 1. cbv beta iota.
    unfold print in Hrun. cbn [snd] in Hrun.
    unfold bind at 1. now rewrite Hrun.
  - unfold Script.process_videos, bind in Hrun.
    match type of Hrun with
    | context [Startup.FrameExtractor_init cfg rt dir false ?w0] =>
        destruct (init_returns cfg rt dir false w0)
          as (self & out & Hinit & _)
    end.
    rewrite Hinit in Hrun.
    match type of Hrun with
    | FrameExtractor.process_all_videos self ?w0 = _ =>
        destruct (BatchFacts.batch_outcome self w0) as (Hc & _ & _ & Hm)
    end.
    rewrite Hrun in Hc, Hm. simpl in Hc, Hm. split; assumption.
Qed.

Lemma extraction_failure_indexes_nothing_witness :
  exists (e : exn) (w1 : world),
    Script.main default_settings plain_runtime Demo.nearest
                [Demo.broken_mp4] Demo.args Demo.world0 = (Raise e, w1)
    /\ chroma w1 = ∅
    /\ metadata_json w1 = None.
Proof.
  destruct (Script.process_videos default_settings plain_runtime
              [Demo.broken_mp4]
              (snd (print "Extracting frames from videos..." Demo.world0)))
    as [[md | e] w1] eqn:Hrun; [vm_compute in Hrun; discriminate |].
  exists e, w1.
  exact (extraction_failure_indexes_nothing default_settings plain_runtime
           Demo.nearest [Demo.broken_mp4] Demo.args Demo.world0 w1 e eq_refl
           Hrun).
Defined.

(** A successful run of the script with extraction, on a collection that
    is recreated or was not there, leaves the snapshot and the collection
    in step: the collection holds one entry per record of the snapshot, in
    the snapshot's order and under the same ids. *)
Theorem main_fresh_run_is_in_sync (cfg : Settings) (rt : Startup.Runtime)
    (engine : list entry -> string -> nat -> result Hits)
    (dir : list video) (args : Args) (w w1 : world) :
  skip_extraction args = false ->
  recreate args = true \/ chroma w !! COLLECTION_NAME cfg = None ->
  Script.main cfg rt engine dir args w = (Ok tt, w1) ->
  exists metadata : dict,
    metadata_json w1 = Some metadata
    /\ chroma w1
       = <[COLLECTION_NAME cfg := map entry_of metadata]> (chroma w)
    /\ entry_ids (map entry_of metadata) = map fst metadata.
Proof.
  intros Hskip Hfresh.
  destruct (main_extracting cfg rt engine dir args w Hskip)
    as (self & w0 & _ & _ & Hm & Hc & _ & ->).
  destruct (BatchFacts.batch_outcome self w0) as (Hc' & _ & _ & Hm').
  destruct (FrameExtractor.process_all_videos self w0)
    as [[metadata | e'] w2]; simpl in Hc', Hm'; cbv beta iota;
    [| discriminate].
  assert (Hfresh' : recreate args = true
                    \/ chroma w2 !! COLLECTION_NAME cfg = None)
    by (rewrite Hc', Hc; exact Hfresh).
  intros Hrun. exists metadata.
  assert (Hids : entry_ids (map entry_of metadata) = map fst metadata).
  { unfold entry_ids. rewrite map_map. reflexivity. }
  destruct metadata as [| item metadata].
  - destruct (IndexingFacts.index_frames_empty cfg engine args w2 Hfresh')
      as (out & Hidx).
    rewrite Hidx in Hrun. injection Hrun as <-. simpl.
    repeat split; [exact Hm' | congruence].
  - destruct (IndexingFacts.index_frames_fresh cfg engine (item :: metadata)
                args w2 ltac:(discriminate) Hfresh')
      as (out & tail & Hidx & _).
    rewrite Hrun in Hidx. simpl in Hidx. rewrite Hidx. simpl.
    split; [exact Hm' |]. split; [congruence | exact Hids].
Qed.

Lemma main_fresh_run_is_in_sync_witness :
  exists (w1 : world) (metadata : dict),
    Script.main default_settings plain_runtime Demo.nearest
                [Demo.short_mp4] testing_args Demo.world0 = (Ok tt, w1)
    /\ metadata_json w1 = Some metadata
    /\ map entry_id (default [] (chroma w1 !! "ember_frames"))
       = map fst metadata.
Proof.
  destruct (Script.main default_settings plain_runtime Demo.nearest
                        [Demo.short_mp4] testing_args Demo.world0)
    as [[[] | e] w1] eqn:Hrun; [| vm_compute in Hrun; discriminate].
  destruct (main_fresh_run_is_in_sync default_settings plain_runtime
              Demo.nearest [Demo.short_mp4] testing_args Demo.world0 w1
              eq_refl (or_intror eq_refl) Hrun)
    as (metadata & Hm & Hc & Hids).
  exists w1, metadata. split; [reflexivity |]. split; [exact Hm |].
  rewrite Hc. simpl. rewrite lookup_insert_eq. exact Hids.
Defined.

Lemma known_hits_all (md : dict) :
  forall found : list string,
    Forall (fun frame_id => In frame_id (map fst md)) found ->
    length (known_hits md found) = length found.
Proof.
  unfold known_hits, omap.
  induction found as [| frame_id found IH]; intros Hall; simpl;
    [reflexivity |].
  apply Forall_cons in Hall as [Hhead Hall].
  destruct (BatchFacts.dict_get_In md frame_id Hhead) as [r ->]. simpl.
  now rewrite IH.
Qed.

(** A service started on a snapshot and a collection that are in step
    drops no hit: when the collection answers with ids of its entries, the
    service starts without changing anything and returns one result per
    hit, in the order of the hits. *)
Theorem service_in_sync_answers_every_hit (cfg : Settings)
    (engine : list entry -> string -> nat -> result SearchService.QueryResult)
    (w : world) (metadata : dict) (query : string) (limit : nat)
    (hits : SearchService.QueryResult) :
  metadata_json w = Some metadata ->
  chroma w !! COLLECTION_NAME cfg = Some (map entry_of metadata) ->
  engine (map entry_of metadata) query limit = Ok hits ->
  Forall (fun frame_id => In frame_id (entry_ids (map entry_of metadata)))
         (SearchService.ids hits) ->
  (length (SearchService.ids hits)
   <= length (SearchService.distances hits))%nat ->
  exists (service : SearchService.t) (rs : list schemas.FrameResponse),
    Startup.SearchService_init cfg engine w = (Ok service, w)
    /\ SearchService.search service query limit = Ok rs
    /\ length rs = length (SearchService.ids hits)
    /\ map shown rs
       = map stored (known_hits metadata (SearchService.ids hits)).
Proof.
  intros Hm Hc Hq Hin Hlen.
  unfold Startup.SearchService_init, bind, read_chroma, read_metadata_json,
    ret.
  simpl. rewrite Hc, Hm. simpl.
  eexists. 
  destruct (RetrievalFacts.search_known_hits
              (SearchService.Make (engine (map entry_of metadata)) metadata)
              query limit hits Hq Hlen) as (rs & Hrun & Hshown & _).
  exists rs. split; [reflexivity |]. split; [exact Hrun |].
  simpl in Hshown. split; [| exact Hshown].
  apply (f_equal (@length _)) in Hshown. rewrite !length_map in Hshown.
  rewrite Hshown. apply known_hits_all.
  unfold entry_ids in Hin. rewrite map_map in Hin. exact Hin.
Qed.

Lemma service_in_sync_answers_every_hit_witness :
  exists (service : SearchService.t) (rs : list schemas.FrameResponse),
    Startup.SearchService_init default_settings first_entries synced_world
    = (Ok service, synced_world)
    /\ SearchService.search service "person" 2 = Ok rs
    /\ map shown rs
       = [("clip_frame_00000.jpg", "clip.mp4", 0%nat);
          ("clip_frame_00001.jpg", "clip.mp4", 30%nat)].
Proof.
  destruct (service_in_sync_answers_every_hit default_settings first_entries
              synced_world (SearchService.frame_metadata Demo.service)
              "person" 2
              {| SearchService.ids := ["a"; "b"];
                 SearchService.distances := [1 # 2; 1 # 2]%Q |}
              eq_refl (lookup_insert_eq _ _ _) eq_refl)
    as (service & rs & Hinit & Hsearch & _ & Hshown).
  - apply Forall_forall. intros x Hx. apply list_elem_of_In in Hx.
    exact Hx.
  - simpl. lia.
  - exists service, rs. split; [exact Hinit |]. split; [exact Hsearch |].
    exact Hshown.
Defined.

End ScriptFacts.
